(** * Live Share SDK: session join coordination and role verification

    A shallow embedding of
    - [TeamsFluidClient.getOrCreateContainer] / [createNewContainer]
      (the resource-creation coordinator),
    - [RoleVerifier] ([registerClientId], [getClientRoles],
      [verifyRolesAllowed]),
    - the single-flight TTL cache ([RequestCache]) and the bounded backoff
      poller ([waitForResult]) they are built on.

    Asynchronous functions are modelled as state transformers that return
    the way their promise settles.  Remote collaborators are deterministic
    functions of the history of calls made so far, so that a collaborator
    may answer differently on every invocation. *)

From Stdlib Require Import ZArith Lia.
From stdpp Require Import base option list strings gmap pretty.

Local Open Scope Z_scope.

(** ** Errors and promise outcomes *)

(** Every failure in the source is a JavaScript [Error] carrying a message.
    The constructors record which class of the error taxonomy raised it:
    a missing identifier, an exhausted retry plan, a failure of a remote
    collaborator, or a run-time type error of the language itself. *)
Inductive Error : Type :=
| InvalidArgument (message : string)
| Timeout (message : string)
| UpstreamFailure (message : string)
| TypeError (message : string).

(** How a promise ends: fulfilled, rejected, or not settled within the
    modelled run (the recursion budget ran out, or the promise waits on a
    resolution that another caller owns). *)
Inductive Outcome (A : Type) : Type :=
| Fulfilled (value : A)
| Rejected (reason : Error)
| Unsettled.
Arguments Fulfilled {A} value.
Arguments Rejected {A} reason.
Arguments Unsettled {A}.

(** What a collaborator answers: a value, or a failure of its own. *)
Inductive Reply (A : Type) : Type :=
| Returned (value : A)
| Failed (message : string).
Arguments Returned {A} value.
Arguments Failed {A} message.

Definition settle {A} (r : Reply A) : Outcome A :=
  match r with
  | Returned v => Fulfilled v
  | Failed m => Rejected (UpstreamFailure m)
  end.

(** An asynchronous computation over a state [St]. *)
Definition Async (St A : Type) : Type := St -> Outcome A * St.

Definition resolve {St A} (a : A) : Async St A := fun s => (Fulfilled a, s).
Definition reject {St A} (e : Error) : Async St A := fun s => (Rejected e, s).
Definition pending {St A} : Async St A := fun s => (Unsettled, s).

(** [await]: run [m]; continue with its value, or stop the way it ended. *)
Definition await {St A B} (m : Async St A) (k : A -> Async St B) : Async St B :=
  fun s =>
    match m s with
    | (Fulfilled a, s') => k a s'
    | (Rejected e, s') => (Rejected e, s')
    | (Unsettled, s') => (Unsettled, s')
    end.

Notation "x <- m ;; k" := (await m (fun x => k))
  (at level 100, m at next level, right associativity).
Notation "m ;;; k" := (await m (fun _ => k))
  (at level 100, right associativity).

(** ** Bounded backoff poller ([waitForResult], spec name [pollUntil]) *)

Section Poller.
Context {St T : Type}.
(** The timed wait of the host ([setTimeout]) as an effect on the state. *)
Variable wait : Z -> St -> St.

Definition sleep (delay : Z) : Async St unit :=
  fun s => (Fulfilled tt, wait delay s).

(** Modelled from the spec: [waitForResult] lives in [internals/utils],
    which is not part of the available sources.  Following section 4.2:
    invoke the operation, propagate its failure; return an acceptable
    result; otherwise wait the next scheduled duration and retry, or fail
    with [onTimeout ()] once the schedule is exhausted. *)
Fixpoint pollUntil (operation : Async St T) (isAcceptable : T -> bool)
    (onTimeout : unit -> Error) (schedule : list Z) : Async St T :=
  result <- operation ;;
  if isAcceptable result then resolve result
  else
    match schedule with
    | [] => reject (onTimeout tt)
    | delay :: rest =>
        sleep delay ;;; pollUntil operation isAcceptable onTimeout rest
    end.
End Poller.

(** *** Observing a poller run

    To count invocations and waits the poller is run over a state paired
    with a log: the observed operation appends the way each invocation
    ended, the observed wait appends the duration. The underlying operation
    and wait are arbitrary and cannot touch the log. *)
Inductive PollEvent (T : Type) : Type :=
| Attempted (ended : Outcome T)
| Waited (delay : Z).
Arguments Attempted {T} ended.
Arguments Waited {T} delay.

Section Observed.
Context {St T : Type}.
Variable wait : Z -> St -> St.
Variable operation : Async St T.

Definition observedWait (delay : Z) (sl : St * list (PollEvent T))
    : St * list (PollEvent T) :=
  (wait delay sl.1, sl.2 ++ [Waited delay]).

Definition observedOperation : Async (St * list (PollEvent T)) T :=
  fun sl =>
    let '(o, s') := operation sl.1 in
    (o, (s', sl.2 ++ [Attempted o])).

Definition attempts (log : list (PollEvent T)) : list (Outcome T) :=
  omap (fun ev => match ev with Attempted o => Some o | Waited _ => None end) log.

Definition waits (log : list (PollEvent T)) : list Z :=
  omap (fun ev => match ev with Waited d => Some d | Attempted _ => None end) log.

(** The log a run of [n + 1] attempts leaves when the first [n] results
    are rejected by the predicate: attempt, wait, attempt, ..., attempt. *)
Fixpoint pollLog (rejected : list T) (delays : list Z) (last : Outcome T)
    : list (PollEvent T) :=
  match rejected, delays with
  | r :: rejected', d :: delays' =>
      Attempted (Fulfilled r) :: Waited d :: pollLog rejected' delays' last
  | _, _ => [Attempted last]
  end.

Definition observedPoll (isAcceptable : T -> bool) (onTimeout : unit -> Error)
    (schedule : list Z) : Async (St * list (PollEvent T)) T :=
  pollUntil observedWait observedOperation isAcceptable onTimeout schedule.

(** How a run ends, given the results it rejected on the way and the way
    its last attempt ended. *)
Definition pollEnded (isAcceptable : T -> bool) (onTimeout : unit -> Error)
    (schedule : list Z) (rejected : list T) (last ended : Outcome T) : Prop :=
  match last with
  | Fulfilled r =>
      if isAcceptable r then ended = Fulfilled r
      else length rejected = length schedule /\ ended = Rejected (onTimeout tt)
  | Rejected e => ended = Rejected e
  | Unsettled => ended = Unsettled
  end.

(** An attempt that produced a result the predicate turned down. *)
Definition turnedDown (isAcceptable : T -> bool) (o : Outcome T) : Prop :=
  match o with
  | Fulfilled r => isAcceptable r = false
  | _ => False
  end.
End Observed.

(** ** Single-flight TTL cache ([RequestCache]) *)

(** Callers of the cache, told apart so that deliveries can be traced. *)
Definition Caller : Type := nat.

(** Modelled from the spec: [RequestCache] lives in
    [internals/RequestCache], which is not part of the available sources.
    Following the data model and the design notes, a key is mapped to a
    small tagged state: no entry, a pending shared resolution with the
    callers attached to it, or a ready value with its expiry. *)
Inductive CacheEntry (T : Type) : Type :=
| Pending (waiters : list Caller)
| Ready (value : T) (expiresAt : Z).
Arguments Pending {T} waiters.
Arguments Ready {T} value expiresAt.

Record RequestCache (T : Type) : Type := mkCache {
  lifetime : Z;
  entries : gmap string (CacheEntry T)
}.
Arguments mkCache {T} lifetime entries.
Arguments lifetime {T} r.
Arguments entries {T} r.

Definition newRequestCache {T} (cacheLifetime : Z) : RequestCache T :=
  mkCache cacheLifetime ∅.

(** What a caller of [resolve(key, producer)] meets on arrival. *)
Inductive Arrival (T : Type) : Type :=
| Served (value : T)
| Attached
| Started.
Arguments Served {T} value.
Arguments Attached {T}.
Arguments Started {T}.

(** Modelled from the spec: the first half of [resolve] (section 4.1).  A
    live value is returned without invoking the producer; a caller that
    finds a pending resolution attaches to it; otherwise (no entry, or an
    expired one, which is evicted now) the producer is started and recorded
    as the in-flight resolution of the key. *)
Definition arrive {T} (now : Z) (key : string) (caller : Caller)
    (c : RequestCache T) : Arrival T * RequestCache T :=
  match entries c !! key with
  | Some (Ready value expiresAt) =>
      if now <? expiresAt then (Served value, c)
      else (Started,
            mkCache (lifetime c) (<[key := Pending [caller]]> (delete key (entries c))))
  | Some (Pending waiters) =>
      (Attached,
       mkCache (lifetime c) (<[key := Pending (waiters ++ [caller])]> (entries c)))
  | None =>
      (Started, mkCache (lifetime c) (<[key := Pending [caller]]> (entries c)))
  end.

(** Modelled from the spec: the second half of [resolve].  When the
    producer of [key] ends, every attached caller receives its outcome; a
    value is stored with expiry [now + TTL], a failure clears the in-flight
    marker and stores nothing. *)
Definition complete {T} (now : Z) (key : string) (ended : Outcome T)
    (c : RequestCache T) : list (Caller * Outcome T) * RequestCache T :=
  match ended, entries c !! key with
  | Fulfilled value, Some (Pending waiters) =>
      (map (fun w => (w, ended)) waiters,
       mkCache (lifetime c) (<[key := Ready value (now + lifetime c)]> (entries c)))
  | Rejected _, Some (Pending waiters) =>
      (map (fun w => (w, ended)) waiters,
       mkCache (lifetime c) (delete key (entries c)))
  | _, _ => ([], c)
  end.

(** *** Interleavings of callers

    Under cooperative scheduling the cache is only touched at two atomic
    moments: a caller arriving, and a producer ending.  A schedule is any
    sequence of such moments. *)
Inductive CacheStep (T : Type) : Type :=
| Resolve (now : Z) (key : string) (caller : Caller)
| Settle (now : Z) (key : string) (ended : Outcome T).
Arguments Resolve {T} now key caller.
Arguments Settle {T} now key ended.

Inductive Observation (T : Type) : Type :=
| Arrived (key : string) (caller : Caller) (met : Arrival T)
| Delivered (key : string) (caller : Caller) (ended : Outcome T).
Arguments Arrived {T} key caller met.
Arguments Delivered {T} key caller ended.

Fixpoint runCache {T} (steps : list (CacheStep T)) (c : RequestCache T)
    : list (Observation T) * RequestCache T :=
  match steps with
  | [] => ([], c)
  | Resolve now key caller :: rest =>
      let '(met, c1) := arrive now key caller c in
      let '(obs, c2) := runCache rest c1 in
      (Arrived key caller met :: obs, c2)
  | Settle now key ended :: rest =>
      let '(deliveries, c1) := complete now key ended c in
      let '(obs, c2) := runCache rest c1 in
      (map (fun d => Delivered key d.1 d.2) deliveries ++ obs, c2)
  end.

(** The number of times the producer of [key] was started. *)
Definition producerStarts {T} (key : string) (obs : list (Observation T)) : nat :=
  length (omap (fun o => match o with
                         | Arrived k w Started =>
                             if decide (k = key) then Some w else None
                         | _ => None
                         end) obs).

(** The outcomes handed to the callers attached to [key], in order. *)
Definition deliveries {T} (key : string) (obs : list (Observation T))
    : list (Caller * Outcome T) :=
  omap (fun o => match o with
                 | Delivered k w ended =>
                     if decide (k = key) then Some (w, ended) else None
                 | Arrived _ _ _ => None
                 end) obs.

Definition callersOf {T} (key : string) (steps : list (CacheStep T)) : list Caller :=
  omap (fun st => match st with
                  | Resolve _ k w => if decide (k = key) then Some w else None
                  | Settle _ _ _ => None
                  end) steps.

Definition settlesKey {T} (key : string) (st : CacheStep T) : Prop :=
  match st with
  | Settle _ k _ => k = key
  | Resolve _ _ _ => False
  end.

(** No live value and no resolution in flight for [key] at time [now]. *)
Definition cacheMiss {T} (now : Z) (key : string) (c : RequestCache T) : Prop :=
  match entries c !! key with
  | None => True
  | Some (Ready _ expiresAt) => expiresAt <= now
  | Some (Pending _) => False
  end.

(** *** The cache as seen by one sequential caller *)
Section CacheRequest.
Context {St T : Type}.
Variable now : St -> Z.
Variable getCache : St -> RequestCache T.
Variable setCache : RequestCache T -> St -> St.
Variable self : Caller.

(** Modelled from the spec: [cacheRequest(key, producer)], the source's
    name for [resolve].  The caller arrives; when it starts the producer
    it runs it to its end and the end settles the entry. *)
Definition cacheRequest (key : string) (producer : Async St T) : Async St T :=
  fun s =>
    match arrive (now s) key self (getCache s) with
    | (Served value, c) => (Fulfilled value, setCache c s)
    | (Attached, c) => (Unsettled, setCache c s)
    | (Started, c) =>
        let '(ended, s1) := producer (setCache c s) in
        (ended, setCache (complete (now s1) key ended (getCache s1)).2 s1)
    end.
End CacheRequest.

(** ** Role verification service ([RoleVerifier.ts]) *)

Module RoleVerifier.

(** [UserMeetingRole] is declared in [interfaces], outside the available
    sources; the verifier only compares roles for equality, so a role is
    modelled by its string value. *)
Definition UserMeetingRole : Type := string.

(** What the role endpoints hand back at run time: an array of roles, or
    [undefined] while the client is not known yet. *)
Inductive RolesValue : Type :=
| Undefined
| RoleArray (roles : list UserMeetingRole).

(** [Array.isArray(result)] *)
Definition isArray (result : RolesValue) : bool :=
  match result with
  | RoleArray _ => true
  | Undefined => false
  end.

Definition EXPONENTIAL_BACKOFF_SCHEDULE : list Z := [100; 200; 200; 400; 600].
Definition CACHE_LIFETIME : Z := 60 * 60 * 1000.

(** The calls the verifier makes to the outside, in order. *)
Inductive Event : Type :=
| RegisterCalled (clientId : string)
| GetRolesCalled (clientId : string)
| Slept (delay : Z).

(** The two role endpoints of [TeamsLiveAPI] as collaborators: each answer
    may depend on everything that happened before the call. *)
Record TeamsLiveAPI : Type := mkAPI {
  api_registerClientId : list Event -> string -> Reply RolesValue;
  api_getClientRoles : list Event -> string -> Reply RolesValue
}.

(** The verifier's private state, with the calls made and the time. *)
Record State : Type := mkState {
  history : list Event;
  clock : Z;
  registerRequestCache : RequestCache RolesValue;
  getRequestCache : RequestCache RolesValue
}.

(** [new RoleVerifier(api)] at time [now]. *)
Definition create (now : Z) : State :=
  mkState [] now (newRequestCache CACHE_LIFETIME) (newRequestCache CACHE_LIFETIME).

Definition setRegisterRequestCache (c : RequestCache RolesValue) (s : State) : State :=
  mkState (history s) (clock s) c (getRequestCache s).

Definition setGetRequestCache (c : RequestCache RolesValue) (s : State) : State :=
  mkState (history s) (clock s) (registerRequestCache s) c.

(** A timed wait: time passes and the wait is recorded. *)
Definition wait (delay : Z) (s : State) : State :=
  mkState (history s ++ [Slept delay]) (clock s + delay)
          (registerRequestCache s) (getRequestCache s).

(** [await this.api.registerClientId(clientId)] *)
Definition callRegisterClientId (api : TeamsLiveAPI) (clientId : string)
    : Async State RolesValue :=
  fun s =>
    (settle (api_registerClientId api (history s) clientId),
     mkState (history s ++ [RegisterCalled clientId]) (clock s)
             (registerRequestCache s) (getRequestCache s)).

(** [await this.api.getClientRoles(clientId)] *)
Definition callGetClientRoles (api : TeamsLiveAPI) (clientId : string)
    : Async State RolesValue :=
  fun s =>
    (settle (api_getClientRoles api (history s) clientId),
     mkState (history s ++ [GetRolesCalled clientId]) (clock s)
             (registerRequestCache s) (getRequestCache s)).

(** [!clientId] for a string: only the empty string is falsy. *)
Definition missing (clientId : string) : bool :=
  match clientId with
  | EmptyString => true
  | String _ _ => false
  end.

(** The verifier itself is the one sequential caller of its caches. *)
Definition verifier : Caller := 0%nat.

Definition registerClientId (api : TeamsLiveAPI) (clientId : string)
    : Async State RolesValue :=
  cacheRequest clock registerRequestCache setRegisterRequestCache verifier clientId
    (pollUntil wait (callRegisterClientId api clientId) isArray
       (fun _ => Timeout "RoleVerifier: timed out registering local client ID")
       EXPONENTIAL_BACKOFF_SCHEDULE).

Definition getClientRoles (api : TeamsLiveAPI) (clientId : string)
    : Async State RolesValue :=
  if missing clientId then
    reject (InvalidArgument "RoleVerifier: called getCLientRoles() without a clientId")
  else
    cacheRequest clock getRequestCache setGetRequestCache verifier clientId
      (pollUntil wait (callGetClientRoles api clientId) isArray
         (fun _ => Timeout "RoleVerifier: timed out getting roles for a remote client ID")
         EXPONENTIAL_BACKOFF_SCHEDULE).

(** [roles.indexOf(role)]: the first position of [role], or -1. *)
Fixpoint indexOf (roles : list UserMeetingRole) (role : UserMeetingRole) : Z :=
  match roles with
  | [] => -1
  | r :: rest =>
      if String.eqb r role then 0
      else let i := indexOf rest role in if i <? 0 then -1 else i + 1
  end.

(** The [for] loop of [verifyRolesAllowed] over [allowedRoles]. *)
Fixpoint anyRoleAllowed (roles allowedRoles : list UserMeetingRole) : bool :=
  match allowedRoles with
  | [] => false
  | role :: rest =>
      if 0 <=? indexOf roles role then true else anyRoleAllowed roles rest
  end.

(** [allowedRoles] may be absent at run time, hence the [option]. *)
Definition verifyRolesAllowed (api : TeamsLiveAPI) (clientId : string)
    (allowedRoles : option (list UserMeetingRole)) : Async State bool :=
  if missing clientId then
    reject (InvalidArgument "RoleVerifier: called verifyRolesAllowed() without a clientId")
  else
    match allowedRoles with
    | Some ((_ :: _) as allowed) =>
        roles <- getClientRoles api clientId ;;
        match roles with
        | RoleArray held => resolve (anyRoleAllowed held allowed)
        | Undefined =>
            reject (TypeError "Cannot read properties of undefined (reading 'indexOf')")
        end
    | _ => resolve true
    end.

(** Every value a cache holds passed [Array.isArray] when it was stored. *)
Definition holdsArrays (c : RequestCache RolesValue) : Prop :=
  forall key value expiresAt,
    entries c !! key = Some (Ready value expiresAt) -> isArray value = true.

(** From [s] to [s'] only calls were made: both caches are untouched. *)
Definition onlyCalls (s s' : State) : Prop :=
  registerRequestCache s' = registerRequestCache s
  /\ getRequestCache s' = getRequestCache s
  /\ exists made, history s' = history s ++ made.

Definition invalidArgument (e : Error) : Prop :=
  exists message, e = InvalidArgument message.

(** The promise was rejected with an invalid-argument error. *)
Definition invalidArgument_outcome {A} (o : Outcome A) : Prop :=
  match o with
  | Rejected e => invalidArgument e
  | _ => False
  end.

End RoleVerifier.

(** ** Resource-creation coordinator ([TeamsFluidClient]) *)

Module TeamsFluidClient.

(** [ContainerState] is declared in [TestTeamsClientApi], outside the
    available sources; these are the members the sources refer to. *)
Inductive ContainerState : Type :=
| added
| alreadyExists
| notFound.

Record IFluidContainerInfo : Type := mkInfo {
  containerState : ContainerState;
  containerId : option string;
  shouldCreate : bool;
  retryAfter : Z
}.

(** Fluid containers and their services are opaque handles. *)
Definition IFluidContainer : Type := nat.
Definition AzureContainerServices : Type := nat.

Record ContainerAndServices : Type := mkHandles {
  handle_container : IFluidContainer;
  handle_services : AzureContainerServices
}.

Record JoinResult : Type := mkJoin {
  container : IFluidContainer;
  services : AzureContainerServices;
  created : bool
}.

(** What the coordinator did to the outside, in order, each call with the
    answer it got. *)
Inductive Event : Type :=
| LookedUp (reply : Reply IFluidContainerInfo)
| ReadLocalTestContainerId (reply : option string)
| Published (newContainerId : string) (reply : Reply bool)
| WroteLocalTestContainerId (newContainerId : string)
| Created (reply : Reply ContainerAndServices)
| Initialized (c : IFluidContainer) (reply : Reply unit)
| AttachedToService (c : IFluidContainer) (reply : Reply string)
| Disposed (c : IFluidContainer)
| Opened (existingId : string) (reply : Reply ContainerAndServices)
| Waited (delay : Z).

(** The [onContainerFirstCreated] callback: what it answers when run on a
    container (it may throw). *)
Definition Hook : Type := list Event -> IFluidContainer -> Reply unit.

(** The client with its collaborators: the container mapping endpoints of
    [TeamsLiveAPI], the local test mapping, and the Fluid client.  Every
    answer may depend on all that happened before the call. *)
Record Client : Type := mkClient {
  isTesting : bool;
  maxContainerLookupTries : Z;
  api_getFluidContainerId : list Event -> Reply IFluidContainerInfo;
  api_setFluidContainerId : list Event -> string -> Reply bool;
  getLocalTestContainerId : list Event -> option string;
  client_createContainer : list Event -> Reply ContainerAndServices;
  client_getContainer : list Event -> string -> Reply ContainerAndServices;
  container_attach : list Event -> IFluidContainer -> Reply string
}.

(** The state of a join is the sequence of calls made so far. *)
Definition State : Type := list Event.

(** Truthiness of [string | undefined]: present and not empty. *)
Definition present (id : option string) : bool :=
  match id with
  | Some (String _ _) => true
  | _ => false
  end.

Section Coordinator.
Variable this : Client.

Definition getFluidContainerId : Async State IFluidContainerInfo :=
  fun h =>
    if negb (isTesting this) then
      let reply := api_getFluidContainerId this h in
      (settle reply, h ++ [LookedUp reply])
    else
      let localId := getLocalTestContainerId this h in
      (Fulfilled
         {| containerState := if present localId then alreadyExists else notFound;
            shouldCreate := negb (present localId);
            containerId := localId;
            retryAfter := 0 |},
       h ++ [ReadLocalTestContainerId localId]).

Definition setFluidContainerId (newContainerId : string) : Async State bool :=
  fun h =>
    if negb (isTesting this) then
      let reply := api_setFluidContainerId this h newContainerId in
      (settle reply, h ++ [Published newContainerId reply])
    else
      (Fulfilled true, h ++ [WroteLocalTestContainerId newContainerId]).

(** [setTimeout] behind a promise. *)
Definition wait (delay : Z) : Async State unit :=
  fun h => (Fulfilled tt, h ++ [Waited delay]).

Definition createContainer : Async State ContainerAndServices :=
  fun h =>
    let reply := client_createContainer this h in
    (settle reply, h ++ [Created reply]).

Definition getContainer (existingId : string) : Async State ContainerAndServices :=
  fun h =>
    let reply := client_getContainer this h existingId in
    (settle reply, h ++ [Opened existingId reply]).

Definition attach (c : IFluidContainer) : Async State string :=
  fun h =>
    let reply := container_attach this h c in
    (settle reply, h ++ [AttachedToService c reply]).

Definition dispose (c : IFluidContainer) : Async State unit :=
  fun h => (Fulfilled tt, h ++ [Disposed c]).

(** [if (onInitializeContainer) { onInitializeContainer(container) }] *)
Definition initialize (onInitializeContainer : option Hook) (c : IFluidContainer)
    : Async State unit :=
  match onInitializeContainer with
  | Some hook =>
      fun h => let reply := hook h c in (settle reply, h ++ [Initialized c reply])
  | None => resolve tt
  end.

Definition timedOut : Error :=
  Timeout "TeamsFluidClient: timed out attempting to create or get container for current context.".

(** The two mutually recursive methods.  Nothing in the source bounds the
    alternation of lost races and fresh lookups, so the recursion is
    cut by [fuel]: one unit per method call. *)
Fixpoint getOrCreateContainer (fuel : nat) (tries : Z)
    (onInitializeContainer : option Hook) {struct fuel} : Async State JoinResult :=
  match fuel with
  | O => pending
  | S fuel' =>
      containerInfo <- getFluidContainerId ;;
      if shouldCreate containerInfo then
        createNewContainer fuel' tries onInitializeContainer
      else if present (containerId containerInfo) then
        opened <- getContainer (default EmptyString (containerId containerInfo)) ;;
        resolve {| created := false;
                   container := handle_container opened;
                   services := handle_services opened |}
      else if (tries <? maxContainerLookupTries this)
              && (0 <? retryAfter containerInfo) then
        wait (retryAfter containerInfo) ;;;
        getOrCreateContainer fuel' (tries + 1) onInitializeContainer
      else
        reject timedOut
  end
with createNewContainer (fuel : nat) (tries : Z)
    (onInitializeContainer : option Hook) {struct fuel} : Async State JoinResult :=
  match fuel with
  | O => pending
  | S fuel' =>
      fresh <- createContainer ;;
      initialize onInitializeContainer (handle_container fresh) ;;;
      newContainerId <- attach (handle_container fresh) ;;
      accepted <- setFluidContainerId newContainerId ;;
      if negb accepted then
        dispose (handle_container fresh) ;;;
        getOrCreateContainer fuel' (tries + 1) onInitializeContainer
      else
        resolve {| container := handle_container fresh;
                   services := handle_services fresh;
                   created := true |}
  end.

(** [joinContainer] enters the coordinator with no tries used, and what
    the coordinator returns is what the join returns. *)
Definition join (fuel : nat) (onContainerFirstCreated : option Hook)
    : Async State JoinResult :=
  getOrCreateContainer fuel 0 onContainerFirstCreated.
End Coordinator.

(** How often the lookup collaborator was invoked. *)
Definition lookups (h : list Event) : nat :=
  length (omap (fun ev => match ev with
                          | LookedUp reply => Some reply
                          | _ => None
                          end) h).

(** The calls of one execution of the creation branch: everything up to
    the next lookup. *)
Fixpoint untilLookup (h : list Event) : list Event :=
  match h with
  | [] => []
  | LookedUp _ :: _ => []
  | ReadLocalTestContainerId _ :: _ => []
  | ev :: rest => ev :: untilLookup rest
  end.

(** A lookup service that on every invocation says: do not create, no
    container yet, retry after [delay]. *)
Definition alwaysRetry (this : Client) (delay : Z) : Prop :=
  isTesting this = false
  /\ forall h, exists info,
       api_getFluidContainerId this h = Returned info
       /\ shouldCreate info = false
       /\ containerId info = None
       /\ retryAfter info = delay.

(** The containers the initialization hook was run on, in order. *)
Definition hookRuns (h : list Event) : list IFluidContainer :=
  omap (fun ev => match ev with
                  | Initialized c _ => Some c
                  | _ => None
                  end) h.

(** The conditional publish of [newContainerId] answered [true]. *)
Definition publishAccepted (newContainerId : string) (ev : Event) : Prop :=
  ev = Published newContainerId (Returned true)
  \/ ev = WroteLocalTestContainerId newContainerId.



End TeamsFluidClient.


(** ** Scenarios *)

(** An operation that answers with the number of earlier invocations. *)
Definition countingOperation : Async nat nat :=
  fun invoked => (Fulfilled invoked, S invoked).

(** An operation that answers twice and fails on its third invocation. *)
Definition failingThird : Async nat nat :=
  fun invoked =>
    (if (invoked <? 2)%nat then Fulfilled invoked
     else Rejected (UpstreamFailure "503"),
     S invoked).

Definition noWait (delay : Z) (invoked : nat) : nat := invoked.

Definition pollTimedOut (_ : unit) : Error := Timeout "timed out".

(** A one-hour cache that already holds an expired value for ["b"]. *)
Definition staleCache : RequestCache nat :=
  mkCache 3600000 {[ "b" := Ready 7%nat 1000 ]}.

(** Three callers ask for ["a"] while its producer runs; a caller of ["b"]
    comes and goes in between. *)
Definition crowd : list (CacheStep nat) :=
  [ Resolve 2010 "a" 2%nat;
    Resolve 2020 "b" 9%nat;
    Settle 2030 "b" (Fulfilled 8%nat);
    Resolve 2040 "a" 3%nat ].

(** A role service that knows nobody until two calls have been made, and
    from then on reports a presenter who is also an attendee. *)
Definition slowRoleService : RoleVerifier.TeamsLiveAPI :=
  RoleVerifier.mkAPI
    (fun h _ =>
       if (length h <? 2)%nat then Returned RoleVerifier.Undefined
       else Returned (RoleVerifier.RoleArray ["Presenter"; "Attendee"]))
    (fun h _ =>
       if (length h <? 2)%nat then Returned RoleVerifier.Undefined
       else Returned (RoleVerifier.RoleArray ["Presenter"; "Attendee"])).

(** A role service whose lookups fail outright. *)
Definition brokenRoleService : RoleVerifier.TeamsLiveAPI :=
  RoleVerifier.mkAPI (fun _ _ => Failed "500") (fun _ _ => Failed "500").

(** A mapping service that never has a container and never asks for one to
    be created: every lookup says "retry in 50 ms". *)
Definition retryLater : TeamsFluidClient.IFluidContainerInfo :=
  TeamsFluidClient.mkInfo TeamsFluidClient.notFound None false 50.

Definition stubbornClient (maxTries : Z) : TeamsFluidClient.Client :=
  TeamsFluidClient.mkClient false maxTries
    (fun _ => Returned retryLater)
    (fun _ _ => Returned false)
    (fun _ => None)
    (fun _ => Failed "unused")
    (fun _ _ => Failed "unused")
    (fun _ _ => Failed "unused").

(** Two clients saw "please create" at the same time.  This one is told so
    on its first lookup; once it has created a container of its own, the
    mapping service answers [publishWins] to its publish, and every later
    lookup names the registered container. *)
Definition racingClient (publishWins : bool) : TeamsFluidClient.Client :=
  TeamsFluidClient.mkClient false 3
    (fun h =>
       match h with
       | [] => Returned (TeamsFluidClient.mkInfo TeamsFluidClient.notFound None true 0)
       | _ => Returned (TeamsFluidClient.mkInfo TeamsFluidClient.alreadyExists
                          (Some "winner") false 0)
       end)
    (fun _ _ => Returned publishWins)
    (fun _ => None)
    (fun _ => Returned (TeamsFluidClient.mkHandles 1%nat 10%nat))
    (fun _ _ => Returned (TeamsFluidClient.mkHandles 2%nat 20%nat))
    (fun _ _ => Returned "mine").

Definition quietHook : TeamsFluidClient.Hook := fun _ _ => Returned tt.

(** ** Further observations on a join *)

Module JoinTrace.
Import TeamsFluidClient.

Definition count (p : Event -> bool) (h : list Event) : nat :=
  length (List.filter p h).
Arguments count p !h /.

Definition isWait (ev : Event) : bool :=
  match ev with Waited _ => true | _ => false end.

Definition isDisposal (ev : Event) : bool :=
  match ev with Disposed _ => true | _ => false end.

(** A conditional publish that the mapping service turned down. *)
Definition isRefusal (ev : Event) : bool :=
  match ev with Published _ (Returned false) => true | _ => false end.

Definition isLocalRead (ev : Event) : bool :=
  match ev with ReadLocalTestContainerId _ => true | _ => false end.

(** A call that went to the remote container mapping. *)
Definition isRemoteMapping (ev : Event) : bool :=
  match ev with LookedUp _ | Published _ _ => true | _ => false end.

Definition isCreation (ev : Event) : bool :=
  match ev with Created _ => true | _ => false end.

(** The container ID a lookup reported, if it reported one. *)
Definition reportedId (ev : Event) : option string :=
  match ev with
  | LookedUp (Returned info) => containerId info
  | ReadLocalTestContainerId localId => localId
  | _ => None
  end.

(** A mapping service that tells every client to create, while another
    client always wins the publish. *)
Definition alwaysLoses (this : Client) : Prop :=
  isTesting this = false
  /\ (forall h, exists info,
        api_getFluidContainerId this h = Returned info /\ shouldCreate info = true)
  /\ (forall h, exists fresh, client_createContainer this h = Returned fresh)
  /\ (forall h c, exists newId, container_attach this h c = Returned newId)
  /\ (forall h newId, api_setFluidContainerId this h newId = Returned false).

(** A mapping service that never tells this client to create. *)
Definition neverAsksToCreate (this : Client) : Prop :=
  isTesting this = false
  /\ forall h info,
       api_getFluidContainerId this h = Returned info -> shouldCreate info = false.

End JoinTrace.

(** A client whose every publish loses the race. *)
Definition unluckyClient : TeamsFluidClient.Client :=
  TeamsFluidClient.mkClient false 3
    (fun _ => Returned (TeamsFluidClient.mkInfo TeamsFluidClient.notFound None true 0))
    (fun _ _ => Returned false)
    (fun _ => None)
    (fun h => Returned (TeamsFluidClient.mkHandles (length h) (length h)))
    (fun _ _ => Failed "unused")
    (fun _ _ => Returned "mine").

(** A client in local test mode whose local mapping is [localId]. *)
Definition localClient (localId : option string) : TeamsFluidClient.Client :=
  TeamsFluidClient.mkClient true 3
    (fun _ => Failed "unused")
    (fun _ _ => Failed "unused")
    (fun _ => localId)
    (fun _ => Returned (TeamsFluidClient.mkHandles 1%nat 10%nat))
    (fun _ _ => Returned (TeamsFluidClient.mkHandles 2%nat 20%nat))
    (fun _ _ => Returned "mine").

(** A hook that returns normally whenever it is run (or no hook). *)
Definition quiet (hook : option TeamsFluidClient.Hook) : Prop :=
  match hook with
  | Some run => forall h c, run h c = Returned tt
  | None => True
  end.

(** A mapping service that never creates: it first says "retry", then names
    a container. *)
Definition lateClient : TeamsFluidClient.Client :=
  TeamsFluidClient.mkClient false 3
    (fun h =>
       if (length h <? 2)%nat
       then Returned (TeamsFluidClient.mkInfo TeamsFluidClient.notFound None false 50)
       else Returned (TeamsFluidClient.mkInfo TeamsFluidClient.alreadyExists
                        (Some "shared") false 0))
    (fun _ _ => Returned false)
    (fun _ => None)
    (fun _ => Failed "unused")
    (fun _ _ => Returned (TeamsFluidClient.mkHandles 2%nat 20%nat))
    (fun _ _ => Failed "unused").

(** ** The [connected] handler of [joinContainer] *)

Module Connected.
Import RoleVerifier.

(** The body of the handler that [joinContainer] installs: when a role
    verifier exists, every connection of the local member is registered, one
    after the other.  [connections] is
    [services.audience.getMyself()?.connections ?? []], as client IDs. *)
Fixpoint registerEach (api : TeamsLiveAPI) (connections : list string)
    : Async State unit :=
  match connections with
  | [] => resolve tt
  | clientId :: rest =>
      registerClientId api clientId ;;; registerEach api rest
  end.

Definition onConnected (roleVerifier : option TeamsLiveAPI)
    (myself : option (list string)) : Async State unit :=
  match roleVerifier with
  | Some api => registerEach api (default [] myself)
  | None => resolve tt
  end.

(** The calls one poll of an endpoint leaves in the history: a call, then a
    sleep and a call again for every delay used. *)
Definition pollCalls (call : Event) (delays : list Z) : list Event :=
  call :: flat_map (fun d => [Slept d; call]) delays.

Definition isCall (ev : Event) : bool :=
  match ev with Slept _ => false | _ => true end.

End Connected.

(** ** One registration, as the registration endpoint sees it *)

Module Registration.
Import RoleVerifier.

(** What the verifier does for each turned-down answer: the call, then the
    wait of the next delay. *)
Definition rounds (clientId : string) (delays : list Z) : list Event :=
  flat_map (fun d => [RegisterCalled clientId; Slept d]) delays.

(** The answer of the registration endpoint to the call that follows [n]
    turned-down ones, in a registration started in [s]. *)
Definition answer (api : TeamsLiveAPI) (clientId : string) (s : State) (n : nat)
    : Reply RolesValue :=
  api_registerClientId api
    (history s ++ rounds clientId (take n EXPONENTIAL_BACKOFF_SCHEDULE)) clientId.

(** The first [n] answers were [undefined]. *)
Definition turnedDownUntil (api : TeamsLiveAPI) (clientId : string) (s : State)
    (n : nat) : Prop :=
  forall i, (i < n)%nat -> answer api clientId s i = Returned Undefined.

(** A registration started in [s] ended in [s'] with its [n + 1]-th call:
    [n] calls with their waits and one more call were made, the clock moved
    by the waits, the role cache is untouched, and the registration cache
    holds [entry] for the client. *)
Definition endsAfter (clientId : string) (n : nat) (s s' : State)
    (entry : option (CacheEntry RolesValue)) : Prop :=
  history s'
  = history s ++ rounds clientId (take n EXPONENTIAL_BACKOFF_SCHEDULE)
    ++ [RegisterCalled clientId]
  /\ clock s' = clock s + foldr Z.add 0 (take n EXPONENTIAL_BACKOFF_SCHEDULE)
  /\ getRequestCache s' = getRequestCache s
  /\ entries (registerRequestCache s') !! clientId = entry.

(** How a registration that finds nothing live or in flight for the client
    ends, given the answers of the endpoint: the first answer that is an
    array is returned and cached for the lifetime, a failure of the endpoint
    is passed on and nothing is cached, and so is the timeout after the
    sixth [undefined]. *)
Definition followsAnswers (api : TeamsLiveAPI) (clientId : string) (s : State)
    (n : nat) (run : Outcome RolesValue * State) : Prop :=
  match answer api clientId s n with
  | Returned (RoleArray roles) =>
      run.1 = Fulfilled (RoleArray roles)
      /\ endsAfter clientId n s run.2
           (Some (Ready (RoleArray roles)
                    (clock run.2 + lifetime (registerRequestCache s))))
  | Failed message =>
      run.1 = Rejected (UpstreamFailure message)
      /\ endsAfter clientId n s run.2 None
  | Returned Undefined =>
      n = length EXPONENTIAL_BACKOFF_SCHEDULE ->
      run.1 = Rejected (Timeout "RoleVerifier: timed out registering local client ID")
      /\ endsAfter clientId n s run.2 None
  end.

End Registration.

(** A registration service that fails for the client ["b"] only. *)
Definition pickyRegistration : RoleVerifier.TeamsLiveAPI :=
  RoleVerifier.mkAPI
    (fun _ clientId =>
       if String.eqb clientId "b" then Failed "403"
       else Returned (RoleVerifier.RoleArray ["Attendee"]))
    (fun _ _ => Returned RoleVerifier.Undefined).

(** ** Token provider ([TeamsFluidTokenProvider]) *)

Module TeamsFluidTokenProvider.

(** The provider's own fields; all three start out [undefined]. *)
Record Fields : Type := mkFields {
  frsToken : option string;
  _documentId : option string;
  _tenantId : option string
}.

Definition create : Fields := mkFields None None None.

(** [ITokenResponse] of the Fluid driver. *)
Record ITokenResponse : Type := mkResponse {
  jwt : option string;
  fromCache : bool
}.

(** Truthiness of [string | undefined]. *)
Definition truthy (v : option string) : bool :=
  match v with
  | Some (String _ _) => true
  | _ => false
  end.

(** [a !== b] on [string | undefined]. *)
Definition differs (a b : option string) : bool :=
  negb (bool_decide (a = b)).

Section Provider.
(** The state of the [TeamsLiveAPI] the provider was built with, and its
    [getFluidToken(documentId)]. *)
Context {Api : Type}.
Variable getFluidToken : option string -> Async Api string.

(** The assignments after the [if]: the tenant is always remembered, the
    document only when it is truthy. *)
Definition remember (tenantId : string) (documentId : option string)
    (f : Fields) : Fields :=
  mkFields (frsToken f)
           (if truthy documentId then documentId else _documentId f)
           (Some tenantId).

(** [refresh] is [false] for an absent or falsy argument. *)
Definition fetchFluidToken (tenantId : string) (documentId : option string)
    (refresh : bool) : Async (Fields * Api) ITokenResponse :=
  fun '(f, api) =>
    if negb (truthy (frsToken f))
       || refresh
       || differs (_tenantId f) (Some tenantId)
       || differs (_documentId f) documentId
    then
      match getFluidToken documentId api with
      | (Fulfilled token, api') =>
          let f' := remember tenantId documentId
                      (mkFields (Some token) (_documentId f) (_tenantId f)) in
          (Fulfilled (mkResponse (frsToken f') false), (f', api'))
      | (Rejected e, api') => (Rejected e, (f, api'))
      | (Unsettled, api') => (Unsettled, (f, api'))
      end
    else
      let f' := remember tenantId documentId f in
      (Fulfilled (mkResponse (frsToken f') true), (f', api)).

Definition fetchOrdererToken (tenantId : string) (documentId : option string)
    (refresh : bool) : Async (Fields * Api) ITokenResponse :=
  tokenResponse <- fetchFluidToken tenantId documentId refresh ;;
  resolve tokenResponse.

Definition fetchStorageToken (tenantId : string) (documentId : option string)
    (refresh : bool) : Async (Fields * Api) ITokenResponse :=
  tokenResponse <- fetchFluidToken tenantId documentId refresh ;;
  resolve tokenResponse.

(** The provider can answer [(tenantId, documentId)] from what it holds. *)
Definition holdsFor (tenantId : string) (documentId : option string)
    (f : Fields) : Prop :=
  truthy (frsToken f) = true
  /\ _tenantId f = Some tenantId
  /\ _documentId f = documentId.
End Provider.

End TeamsFluidTokenProvider.

(** A token service that counts its calls and hands out ["t1"], ["t2"], ... *)
Definition countingTokens (documentId : option string) : Async nat string :=
  fun calls => (Fulfilled ("t" +:+ pretty (S calls)), S calls).

(** A token service that is down. *)
Definition tokensDown (documentId : option string) : Async nat string :=
  fun calls => (Rejected (UpstreamFailure "503"), S calls).

(** A provider that holds token ["t1"] for tenant ["T"], document ["D"]. *)
Definition warmProvider : TeamsFluidTokenProvider.Fields :=
  TeamsFluidTokenProvider.mkFields (Some "t1") (Some "D") (Some "T").

(** ** The HTTP client of the Teams collaboration service ([TeamsLiveAPI]) *)

Module LiveAPI.

Definition APP_ID : string := "current-app-id".

(** [ITokenPayload] and the Teams [Context] are declared outside the
    available sources; these are the members the sources read or write. *)
Record ITokenPayload : Type := mkPayload {
  oid : string;
  aud : string;
  tid : string
}.

Record Context : Type := mkContext {
  meetingId : option string
}.

(** JSON values: what request bodies are built from and what a response
    body parses to. *)
#[warnings="-register-all"] Inductive Json : Type :=
| JNull
| JBool (b : bool)
| JNumber (n : Z)
| JString (s : string)
| JArray (items : list Json)
| JObject (members : list (string * Json)).

(** A JavaScript value read from JSON: [None] is [undefined]. *)
Definition JsValue : Type := option Json.

(** Truthiness, as [if (v)] and [!v] see it. *)
Definition truthyValue (v : JsValue) : bool :=
  match v with
  | None => false
  | Some JNull => false
  | Some (JBool b) => b
  | Some (JNumber n) => negb (n =? 0)
  | Some (JString EmptyString) => false
  | Some _ => true
  end.

Fixpoint lookupMember (name : string) (members : list (string * Json)) : JsValue :=
  match members with
  | [] => None
  | (key, value) :: rest =>
      match lookupMember name rest with
      | Some later => Some later
      | None => if String.eqb key name then Some value else None
      end
  end.

(** [value.name] for one of the member names the sources read: a type error
    on [null], the member of an object (the last one of that name), and
    [undefined] on anything else. *)
Definition member (name : string) (value : Json) : Reply JsValue :=
  match value with
  | JNull => Failed "TypeError: Cannot read properties of null"
  | JObject members => Returned (lookupMember name members)
  | _ => Returned None
  end.

(** [value?.name] *)
Definition optionalMember (name : string) (value : JsValue) : JsValue :=
  match value with
  | Some (JObject members) => lookupMember name members
  | _ => None
  end.

(** What [fetch] is called with, and what it answers. *)
Record Request : Type := mkRequest {
  url : string;
  method : string;
  headers : list (string * string);
  mode : string;
  body : option Json
}.

Record Response : Type := mkHttp {
  status : Z;
  json : Reply Json
}.

(** The calls the client makes to the outside, each with its answer. *)
Inductive Event : Type :=
| AskedAuthToken (reply : Reply string)
| AskedContext (context : Context)
| Fetched (request : Request) (reply : Reply Response).

(** The Teams SDK, the network, and the two helpers that are declared
    outside the available sources: [parseJwt] of [utils], and the comparison
    with [ContainerState.added] of [TestTeamsClientApi]. *)
Record Platform : Type := mkPlatform {
  sdk_getAuthToken : list Event -> Reply string;
  sdk_getContext : list Event -> Context;
  net_fetch : list Event -> Request -> Reply Response;
  parseJwt : string -> Reply ITokenPayload;
  equalsAdded : JsValue -> bool
}.

(** The fields of a [TeamsLiveAPI], with the calls it has made. *)
Record Api : Type := mkApi {
  _apiHost : string;
  _isTesting : bool;
  _authToken : option string;
  _context : option Context;
  _tokenPayload : option ITokenPayload;
  log : list Event
}.

Fixpoint endsWithSlash (s : string) : bool :=
  match s with
  | EmptyString => false
  | String c EmptyString => String.eqb (String c EmptyString) "/"
  | String _ rest => endsWithSlash rest
  end.

(** [constructor(apiHost = "https://dev.teamsgraph.teams.microsoft.net/",
    isTesting = false)] *)
Definition new (apiHost : option string) (isTesting : option bool) : Api :=
  let host := default "https://dev.teamsgraph.teams.microsoft.net/" apiHost in
  mkApi (if endsWithSlash host then host else host +:+ "/")
        (default false isTesting) None None None [].

Definition nonEmpty (s : option string) : bool :=
  match s with
  | Some (String _ _) => true
  | _ => false
  end.

Definition setAuthToken (token : string) (reply : Reply string) (a : Api) : Api :=
  mkApi (_apiHost a) (_isTesting a) (Some token) (_context a) (_tokenPayload a)
        (log a ++ [AskedAuthToken reply]).

Definition logged (ev : Event) (a : Api) : Api :=
  mkApi (_apiHost a) (_isTesting a) (_authToken a) (_context a) (_tokenPayload a)
        (log a ++ [ev]).

Definition setContext (c : Context) (a : Api) : Api :=
  mkApi (_apiHost a) (_isTesting a) (_authToken a) (Some c) (_tokenPayload a)
        (log a ++ [AskedContext c]).

Definition setTokenPayload (p : ITokenPayload) (a : Api) : Api :=
  mkApi (_apiHost a) (_isTesting a) (_authToken a) (_context a) (Some p) (log a).

Section Methods.
Variable platform : Platform.

Definition getAuthToken : Async Api string :=
  fun a =>
    if nonEmpty (_authToken a) then (Fulfilled (default EmptyString (_authToken a)), a)
    else
      let reply := sdk_getAuthToken platform (log a) in
      match reply with
      | Returned result => (Fulfilled result, setAuthToken result reply a)
      | Failed error => (Rejected (UpstreamFailure error), logged (AskedAuthToken reply) a)
      end.

Definition getContext : Async Api Context :=
  fun a =>
    match _context a with
    | Some context => (Fulfilled context, a)
    | None =>
        let result := sdk_getContext platform (log a) in
        (Fulfilled result, setContext result a)
    end.

Definition testPayload : ITokenPayload :=
  mkPayload "test-user" "https://example.com" EmptyString.

Definition getTokenPayload : Async Api ITokenPayload :=
  fun a =>
    match _tokenPayload a with
    | Some payload => (Fulfilled payload, a)
    | None =>
        if negb (_isTesting a) then
          (token <- getAuthToken ;;
           fun a1 =>
             match parseJwt platform token with
             | Returned payload => (Fulfilled payload, setTokenPayload payload a1)
             | Failed error => (Rejected (UpstreamFailure error), a1)
             end) a
        else (Fulfilled testPayload, setTokenPayload testPayload a)
    end.

(** The private [fetch(url, options)]: [options] arrives with its method
    and body, and leaves with headers and CORS mode. *)
Definition fetch (url : string) (method : string) (body : option Json)
    : Async Api Response :=
  headers <-
    (fun a =>
       if negb (_isTesting a) then
         (token <- getAuthToken ;;
          resolve [("Content-Type", "application/json");
                   ("Authorization", "Bearer " +:+ token)]) a
       else (Fulfilled [("Content-Type", "application/json")], a)) ;;
  fun a =>
    let request := mkRequest url method headers "cors" body in
    let reply := net_fetch platform (log a) request in
    (settle reply, logged (Fetched request reply) a).

(** A member of an object literal under [JSON.stringify]: a member whose
    value is [undefined] is left out. *)
Definition field (name : string) (value : JsValue) : list (string * Json) :=
  match value with
  | Some v => [(name, v)]
  | None => []
  end.

Definition jsonString (s : option string) : JsValue :=
  match s with
  | Some text => Some (JString text)
  | None => None
  end.

(** The members every POST body starts with. *)
Definition contextMembers (contextType : string) (payload : ITokenPayload)
    (context : Context) : list (string * Json) :=
  [ ("appId", JString APP_ID);
    ("originUri", JString (aud payload));
    ("teamsContextType", JString contextType);
    ("teamsContext", JObject (field "meetingId" (jsonString (meetingId context)))) ].

(** [throw new Error(... ${res.status})] *)
Definition statusError (what : string) (res : Response) : Error :=
  UpstreamFailure (what +:+ pretty (status res)).

(** [await res.json()] *)
Definition readJson (res : Response) : Async Api Json :=
  fun a => (settle (json res), a).

(** A thrown [TypeError] of a member access. *)
Definition access (name : string) (value : Json) : Async Api JsValue :=
  fun a =>
    match member name value with
    | Returned v => (Fulfilled v, a)
    | Failed message => (Rejected (TypeError message), a)
    end.

(** [fetch(`${this._apiHost}path`, { method: 'POST', body })] *)
Definition post (path : string) (members : list (string * Json))
    : Async Api Response :=
  fun a => fetch (_apiHost a +:+ path) "POST" (Some (JObject members)) a.

Definition getFluidToken (containerId : option string) : Async Api JsValue :=
  tokenPayload <- getTokenPayload ;;
  context <- getContext ;;
  res <- post "livesync/v1/fluid/token/get"
           (contextMembers "meetingId" tokenPayload context
            ++ [ ("containerId",
                  if nonEmpty containerId
                  then JString (default EmptyString containerId) else JNull);
                 ("userId", JString (oid tokenPayload));
                 ("userName", JString "User") ]) ;;
  if 400 <=? status res then
    reject (statusError "TeamsLiveAPI: request for fluid token returned a status of " res)
  else
    response <- readJson res ;;
    token <- access "token" response ;;
    if negb (truthyValue token) then
      reject (UpstreamFailure "TeamsLiveAPI: no token in token providers response")
    else resolve token.

Definition getFluidTenantInfo : Async Api JsValue :=
  tokenPayload <- getTokenPayload ;;
  context <- getContext ;;
  res <- post "livesync/v1/fluid/tenantInfo/get"
           (contextMembers "MeetingId" tokenPayload context) ;;
  if 400 <=? status res then
    reject (statusError "TeamsLiveAPI: request for fluid tenant info returned a status of " res)
  else
    info <- readJson res ;;
    let frsTenantInfo :=
      optionalMember "frsTenantInfo" (optionalMember "broadcaster" (Some info)) in
    if negb (truthyValue frsTenantInfo) then
      reject (UpstreamFailure "TeamsLiveAPI: no FRS info in collabSpaceInfo response")
    else resolve frsTenantInfo.

Definition getFluidContainerId : Async Api JsValue :=
  tokenPayload <- getTokenPayload ;;
  context <- getContext ;;
  res <- post "livesync/v1/fluid/container/get"
           (contextMembers "MeetingId" tokenPayload context) ;;
  if 400 <=? status res then
    reject (statusError "TeamsLiveAPI: request for fluid container id returned a status of " res)
  else
    response <- readJson res ;;
    resolve (Some response).

Definition setFluidContainerId (containerId : string) : Async Api bool :=
  tokenPayload <- getTokenPayload ;;
  context <- getContext ;;
  res <- post "livesync/v1/fluid/container/set"
           (contextMembers "MeetingId" tokenPayload context
            ++ [("containerId", JString containerId)]) ;;
  if 400 <=? status res then
    reject (statusError "TeamsLiveAPI: request to set fluid container id returned a status of " res)
  else
    response <- readJson res ;;
    containerState <- access "containerState" response ;;
    resolve (equalsAdded platform containerState).

Definition getNtpTime : Async Api JsValue :=
  res <- (fun a => fetch (_apiHost a +:+ "livesync/v1/getNTPTime") "GET" None a) ;;
  if 400 <=? status res then
    reject (statusError "TeamsLiveAPI: request for current time returned a status of " res)
  else
    response <- readJson res ;;
    resolve (Some response).

Definition registerClientId (clientId : string) : Async Api JsValue :=
  tokenPayload <- getTokenPayload ;;
  context <- getContext ;;
  res <- post "livesync/v1/clientRoles/register"
           (contextMembers "MeetingId" tokenPayload context
            ++ [("clientId", JString clientId)]) ;;
  if 400 <=? status res then
    reject (statusError "TeamsLiveAPI: registering client roles returned a status of " res)
  else
    response <- readJson res ;;
    access "userRoles" response.

Definition verifyClientRoles (clientId : string) (roles : list string)
    : Async Api JsValue :=
  tokenPayload <- getTokenPayload ;;
  context <- getContext ;;
  res <- post "livesync/v1/clientRoles/verify"
           (contextMembers "MeetingId" tokenPayload context
            ++ [ ("clientId", JString clientId);
                 ("userRoles", JArray (map JString roles)) ]) ;;
  if 400 <=? status res then
    reject (statusError "TeamsLiveAPI: verifying client roles returned a status of " res)
  else
    response <- readJson res ;;
    access "rolesAccepted" response.

Definition getClientRoles (clientId : string) : Async Api JsValue :=
  tokenPayload <- getTokenPayload ;;
  context <- getContext ;;
  res <- post "livesync/v1/clientRoles/get"
           (contextMembers "MeetingId" tokenPayload context
            ++ [("clientId", JString clientId)]) ;;
  if status res =? 404 then resolve None
  else if 400 <=? status res then
    reject (statusError "TeamsLiveAPI: verifying client roles returned a status of " res)
  else
    response <- readJson res ;;
    if truthyValue (optionalMember "userRoles" (Some response)) then
      resolve (optionalMember "userRoles" (Some response))
    else resolve None.

(** *** Any use of the client *)

Inductive Call : Type :=
| GetFluidToken (containerId : option string)
| GetFluidTenantInfo
| GetFluidContainerId
| SetFluidContainerId (containerId : string)
| GetNtpTime
| RegisterClientId (clientId : string)
| VerifyClientRoles (clientId : string) (roles : list string)
| GetClientRoles (clientId : string).

(** One call, its result seen as a JavaScript value. *)
Definition perform (c : Call) : Async Api JsValue :=
  match c with
  | GetFluidToken containerId => getFluidToken containerId
  | GetFluidTenantInfo => getFluidTenantInfo
  | GetFluidContainerId => getFluidContainerId
  | SetFluidContainerId containerId =>
      accepted <- setFluidContainerId containerId ;; resolve (Some (JBool accepted))
  | GetNtpTime => getNtpTime
  | RegisterClientId clientId => registerClientId clientId
  | VerifyClientRoles clientId roles => verifyClientRoles clientId roles
  | GetClientRoles clientId => getClientRoles clientId
  end.

(** A sequence of calls, one after the other, whatever each returns. *)
Definition performAll (calls : list Call) (a : Api) : Api :=
  fold_left (fun a c => (perform c a).2) calls a.
End Methods.

(** The events of a log by kind. *)
Definition authAnswers (h : list Event) : list (Reply string) :=
  omap (fun ev => match ev with AskedAuthToken reply => Some reply | _ => None end) h.

Definition contextAnswers (h : list Event) : list Context :=
  omap (fun ev => match ev with AskedContext c => Some c | _ => None end) h.

Definition requests (h : list Event) : list Request :=
  omap (fun ev => match ev with Fetched request _ => Some request | _ => None end) h.

(** An auth answer that the client keeps: a non-empty token. *)
Definition usable (reply : Reply string) : bool :=
  match reply with
  | Returned (String _ _) => true
  | _ => false
  end.

Fixpoint lookupHeader (name : string) (hs : list (string * string)) : option string :=
  match hs with
  | [] => None
  | (key, value) :: rest =>
      if String.eqb key name then Some value else lookupHeader name rest
  end.

(** The [Authorization] header of a request, if it has one. *)
Definition bearer (request : Request) : option string :=
  lookupHeader "Authorization" (headers request).

(** A relation between the state before and after holds for a method. *)
Definition Preserved {A} (R : Api -> Api -> Prop) (m : Async Api A) : Prop :=
  forall a, R a (m a).2.

(** What is true of a client however it has been used: its host ends with
    a slash, every request went to a path under that host, the context was
    asked for once if it is held and never otherwise, one usable auth answer
    was received if a token is held and none otherwise, and in testing mode
    no auth token was ever asked for and no request bore one. *)
Definition WellFormed (a : Api) : Prop :=
  endsWithSlash (_apiHost a) = true
  /\ Forall (fun r => exists path, url r = _apiHost a +:+ path) (requests (log a))
  /\ length (contextAnswers (log a)) = (if _context a is Some _ then 1 else 0)%nat
  /\ length (List.filter usable (authAnswers (log a)))
     = (if nonEmpty (_authToken a) then 1 else 0)%nat
  /\ (_isTesting a = true ->
      authAnswers (log a) = []
      /\ Forall (fun r => bearer r = None) (requests (log a))).

Definition KeepsWellFormed (a a' : Api) : Prop :=
  WellFormed a -> WellFormed a'.

(** With a usable token held, a method keeps it, asks for no other, and
    sends its requests with it. *)
Definition KeepsToken (a a' : Api) : Prop :=
  nonEmpty (_authToken a) = true ->
  _authToken a' = _authToken a
  /\ _isTesting a' = _isTesting a
  /\ exists made,
       log a' = log a ++ made
       /\ authAnswers made = []
       /\ (_isTesting a = false ->
           Forall (fun r => bearer r
                            = Some ("Bearer " +:+ default EmptyString (_authToken a)))
                  (requests made)).

(** An SDK that refuses every request for an auth token. *)
Definition refusesTokens (platform : Platform) : Prop :=
  forall h, exists error, sdk_getAuthToken platform h = Failed error.

(** A client outside testing mode that holds neither a usable token nor a
    token payload. *)
Definition SignedOut (a : Api) : Prop :=
  _isTesting a = false /\ nonEmpty (_authToken a) = false /\ _tokenPayload a = None.

(** A client outside testing mode whose token is [token], with no payload
    read from it. *)
Definition HoldsUnread (token : string) (a : Api) : Prop :=
  _isTesting a = false /\ _authToken a = Some token /\ nonEmpty (Some token) = true
  /\ _tokenPayload a = None.

(** A method sends at most [n] requests. *)
Definition Sends {A} (n : nat) (m : Async Api A) : Prop :=
  forall a, exists made,
    log (m a).2 = log a ++ made /\ (length (requests made) <= n)%nat.

(** A method never changes the host or the mode of the client. *)
Definition SameSetup (a a' : Api) : Prop :=
  _apiHost a' = _apiHost a /\ _isTesting a' = _isTesting a.

(** The answer to the last thing the client did, when that was a request. *)
Definition lastResponse (a : Api) : option Response :=
  match last (log a) with
  | Some (Fetched _ (Returned res)) => Some res
  | _ => None
  end.

End LiveAPI.

(** A platform whose SDK hands out the token ["tok"] and the meeting ["m1"],
    and whose network answers [status] with [body]. *)
Definition simplePlatform (status : Z) (body : LiveAPI.Json) : LiveAPI.Platform :=
  LiveAPI.mkPlatform
    (fun _ => Returned "tok")
    (fun _ => LiveAPI.mkContext (Some "m1"))
    (fun _ _ => Returned (LiveAPI.mkHttp status (Returned body)))
    (fun _ => Returned (LiveAPI.mkPayload "user" "https://app.example" "tenant"))
    (fun v => match v with Some (LiveAPI.JString "Added") => true | _ => false end).

(** A platform whose SDK refuses to give a token. *)
Definition signedOutPlatform : LiveAPI.Platform :=
  LiveAPI.mkPlatform
    (fun _ => Failed "not signed in")
    (fun _ => LiveAPI.mkContext (Some "m1"))
    (fun _ _ => Returned (LiveAPI.mkHttp 200 (Returned LiveAPI.JNull)))
    (fun _ => Failed "unused")
    (fun _ => false).

(** A platform whose SDK hands out a token that [parseJwt] cannot read. *)
Definition garbledPlatform : LiveAPI.Platform :=
  LiveAPI.mkPlatform
    (fun _ => Returned "tok")
    (fun _ => LiveAPI.mkContext (Some "m1"))
    (fun _ _ => Returned (LiveAPI.mkHttp 200 (Returned LiveAPI.JNull)))
    (fun _ => Failed "SyntaxError: Unexpected token")
    (fun _ => false).

(** A client that has obtained its token by asking for the time. *)
Definition signedInClient : LiveAPI.Api :=
  (LiveAPI.perform (simplePlatform 200 LiveAPI.JNull) LiveAPI.GetNtpTime
     (LiveAPI.new None None)).2.
(** * Properties *)

(** ** The poller *)

Section PollerFacts.
Context {St T : Type}.
Variable wait : Z -> St -> St.
Variable operation : Async St T.
Variable isAcceptable : T -> bool.
Variable onTimeout : unit -> Error.

Lemma attempts_app (l1 l2 : list (PollEvent T)) :
  attempts (l1 ++ l2) = attempts l1 ++ attempts l2.
Proof. unfold attempts. apply omap_app. Qed.

Lemma waits_app (l1 l2 : list (PollEvent T)) :
  waits (l1 ++ l2) = waits l1 ++ waits l2.
Proof. unfold waits. apply omap_app. Qed.

Lemma pollLog_attempts (rejected : list T) :
  forall (delays : list Z) (last : Outcome T),
    length delays = length rejected ->
    attempts (pollLog rejected delays last) = map Fulfilled rejected ++ [last].
Proof.
  induction rejected as [|r rejected IH]; intros [|d delays] last Hlen;
    simpl in *; try discriminate; [reflexivity|].
  f_equal. apply IH. lia.
Qed.

Lemma pollLog_waits (rejected : list T) :
  forall (delays : list Z) (last : Outcome T),
    length delays = length rejected ->
    waits (pollLog rejected delays last) = delays.
Proof.
  induction rejected as [|r rejected IH]; intros [|d delays] last Hlen;
    simpl in *; try discriminate; [reflexivity|].
  f_equal. apply IH. lia.
Qed.

(** The shape of every run: some results are turned down, each followed by
    the next delay of the schedule, and a last attempt decides the end. *)
Lemma observedPoll_run (schedule : list Z) :
  forall s log ended s' log',
    observedPoll wait operation isAcceptable onTimeout schedule (s, log)
      = (ended, (s', log')) ->
    exists rejected last,
      log' = log ++ pollLog rejected (take (length rejected) schedule) last
      /\ (length rejected <= length schedule)%nat
      /\ Forall (fun r => isAcceptable r = false) rejected
      /\ pollEnded isAcceptable onTimeout schedule rejected last ended.
Proof.
  induction schedule as [|delay rest IH]; intros s log ended s' log' Hrun;
    unfold observedPoll in Hrun; simpl in Hrun;
    unfold await, observedOperation in Hrun; simpl in Hrun;
    destruct (operation s) as [[r|e|] s1] eqn:Hop; simpl in Hrun.
  - destruct (isAcceptable r) eqn:Hacc; inversion Hrun; subst;
      exists [], (Fulfilled r); simpl; rewrite Hacc; auto.
  - inversion Hrun; subst. exists [], (Rejected e); simpl; auto.
  - inversion Hrun; subst. exists [], Unsettled; simpl; auto.
  - destruct (isAcceptable r) eqn:Hacc.
    + inversion Hrun; subst. exists [], (Fulfilled r); simpl.
      rewrite Hacc. repeat split; auto; lia.
    + apply IH in Hrun as (rejected & last & Hlog & Hlen & Hall & Hend).
      exists (r :: rejected), last. simpl. repeat split.
      * rewrite Hlog. simpl. rewrite <- !app_assoc. reflexivity.
      * lia.
      * constructor; assumption.
      * unfold pollEnded in *. destruct last as [r'| |]; auto.
        destruct (isAcceptable r'); auto.
        destruct Hend as [Hn ->]. split; [simpl; lia | reflexivity].
  - inversion Hrun; subst. exists [], (Rejected e); simpl.
    repeat split; auto; lia.
  - inversion Hrun; subst. exists [], Unsettled; simpl.
    repeat split; auto; lia.
Qed.
End PollerFacts.

Section PollerClaims.
Context {St T : Type}.
Variable wait : Z -> St -> St.
Variable operation : Async St T.
Variable isAcceptable : T -> bool.
Variable onTimeout : unit -> Error.

Lemma lookup_fulfilled_last (rejected : list T) (last : Outcome T) n o :
  (map Fulfilled rejected ++ [last]) !! n = Some o ->
  (n < length rejected)%nat /\ (exists r, o = Fulfilled r /\ r ∈ rejected)
  \/ n = length rejected /\ o = last.
Proof.
  intros Hn. destruct (decide (n < length rejected)%nat) as [Hlt|Hge].
  - left. split; [assumption|].
    rewrite lookup_app_l in Hn by (rewrite length_map; assumption).
    rewrite list_lookup_fmap in Hn.
    destruct (rejected !! n) as [r|] eqn:Hr; simpl in Hn; [|discriminate].
    inversion Hn; subst. exists r. split; [reflexivity|].
    eapply list_elem_of_lookup_2; eassumption.
  - right. rewrite lookup_app_r in Hn by (rewrite length_map; lia).
    rewrite length_map in Hn.
    destruct (n - length rejected)%nat as [|k] eqn:Hk; simpl in Hn.
    + inversion Hn; subst. split; [lia | reflexivity].
    + discriminate.
Qed.

Lemma pollLog_wait_follows_rejection (rejected : list T) :
  forall (delays : list Z) (last : Outcome T) i d,
    pollLog rejected delays last !! i = Some (Waited d) ->
    exists j r, i = S j
      /\ pollLog rejected delays last !! j = Some (Attempted (Fulfilled r))
      /\ r ∈ rejected.
Proof.
  induction rejected as [|r rejected IH]; intros delays last i d Hi.
  - simpl in Hi. destruct i as [|i]; simpl in Hi; [discriminate|].
    destruct i; discriminate.
  - destruct delays as [|d0 delays]; simpl in Hi.
    + destruct i as [|i]; simpl in Hi; [discriminate|]. destruct i; discriminate.
    + destruct i as [|[|i]]; simpl in Hi.
      * discriminate.
      * exists 0%nat, r. repeat split. left.
      * apply IH in Hi as (j & r' & -> & Hj & Hin).
        exists (S (S j)), r'. repeat split; [exact Hj|].
        right. exact Hin.
Qed.

(** C5. Whatever the operation does, a run makes at most
    [length schedule + 1] attempts. When every attempt yields a result the
    predicate turns down, the run waits exactly the entries of the
    schedule, in order, makes [length schedule + 1] attempts and fails with
    the error of [onTimeout ()]. When attempt number [n + 1] yields a
    result the predicate accepts, the run returns that result, it is the
    last attempt, and exactly the first [n] entries of the schedule were
    waited. *)
Theorem pollUntil_attempts_and_waits (schedule : list Z) (s s' : St)
    (ended : Outcome T) (log : list (PollEvent T)) :
  observedPoll wait operation isAcceptable onTimeout schedule (s, [])
    = (ended, (s', log)) ->
  (length (attempts log) <= length schedule + 1)%nat
  /\ (Forall (turnedDown isAcceptable) (attempts log) ->
      ended = Rejected (onTimeout tt)
      /\ waits log = schedule
      /\ length (attempts log) = (length schedule + 1)%nat)
  /\ (forall n r,
        attempts log !! n = Some (Fulfilled r) -> isAcceptable r = true ->
        ended = Fulfilled r
        /\ length (attempts log) = S n
        /\ waits log = take n schedule
        /\ length (waits log) = n).
Proof.
  intros Hrun.
  apply observedPoll_run in Hrun as (rejected & last & Hlog & Hlen & Hall & Hend).
  simpl in Hlog. subst log.
  assert (Htake : length (take (length rejected) schedule) = length rejected)
    by (rewrite length_take; lia).
  rewrite pollLog_attempts, pollLog_waits by exact Htake.
  rewrite length_app, length_map. simpl.
  split; [lia|]. split.
  - intros Hdown. apply Forall_app in Hdown as [_ Hlast].
    apply Forall_inv in Hlast.
    destruct last as [r| |]; unfold turnedDown in Hlast; try contradiction.
    unfold pollEnded in Hend. rewrite Hlast in Hend.
    destruct Hend as [Hn ->]. rewrite Hn, firstn_all. repeat split; lia.
  - intros n r Hn Hacc.
    apply lookup_fulfilled_last in Hn as [[_ (r' & Heq & Hin)]|[-> Hlast]].
    + inversion Heq; subst r'.
      rewrite Forall_forall in Hall. apply Hall in Hin. congruence.
    + subst last. unfold pollEnded in Hend. rewrite Hacc in Hend.
      repeat split; [exact Hend | lia | exact Htake].
Qed.

(** C8. When an invocation of the operation itself fails, the run ends
    with that very failure: the failed attempt is the last one, and the
    only waits are the ones that preceded it, so the failure consumes no
    schedule entry. Every wait of a run directly follows an attempt whose
    result the predicate turned down. *)
Theorem pollUntil_operation_failure (schedule : list Z) (s s' : St)
    (ended : Outcome T) (log : list (PollEvent T)) :
  observedPoll wait operation isAcceptable onTimeout schedule (s, [])
    = (ended, (s', log)) ->
  (forall n e,
      attempts log !! n = Some (Rejected e) ->
      ended = Rejected e
      /\ length (attempts log) = S n
      /\ waits log = take n schedule
      /\ length (waits log) = n
      /\ last log = Some (Attempted (Rejected e)))
  /\ (forall i d,
        log !! i = Some (Waited d) ->
        exists j r, i = S j
          /\ log !! j = Some (Attempted (Fulfilled r))
          /\ isAcceptable r = false).
Proof.
  intros Hrun.
  apply observedPoll_run in Hrun as (rejected & last & Hlog & Hlen & Hall & Hend).
  simpl in Hlog. subst log.
  assert (Htake : length (take (length rejected) schedule) = length rejected)
    by (rewrite length_take; lia).
  split.
  - rewrite pollLog_attempts, pollLog_waits by exact Htake.
    rewrite length_app, length_map. simpl.
    intros n e Hn.
    apply lookup_fulfilled_last in Hn as [[_ (r' & Heq & _)]|[-> Hlast]];
      [discriminate|].
    subst last. simpl in Hend. subst ended.
    repeat split; [lia | exact Htake |].
    clear. generalize (take (length rejected) schedule) as delays.
    induction rejected as [|r rejected IH]; intros [|d delays]; simpl; auto.
    specialize (IH delays).
    destruct (pollLog rejected delays (Rejected e)) eqn:Hp; [|exact IH].
    destruct rejected, delays; discriminate.
  - intros i d Hi.
    apply pollLog_wait_follows_rejection in Hi as (j & r & -> & Hj & Hin).
    exists j, r. repeat split; [exact Hj|].
    rewrite Forall_forall in Hall. apply Hall. exact Hin.
Qed.
End PollerClaims.

(** Schedule [100; 200]: a predicate that never accepts fails with the
    timeout after both waits and three attempts; a predicate that accepts
    the third result returns it after both waits. *)
Lemma pollUntil_attempts_and_waits_witness :
  (let run := observedPoll noWait countingOperation (fun _ => false)
                pollTimedOut [100; 200] (0%nat, []) in
   run.1 = Rejected (Timeout "timed out")
   /\ waits run.2.2 = [100; 200]
   /\ length (attempts run.2.2) = 3%nat)
  /\ (let run := observedPoll noWait countingOperation (fun r => (2 <=? r)%nat)
                   pollTimedOut [100; 200] (0%nat, []) in
      run.1 = Fulfilled 2%nat
      /\ length (attempts run.2.2) = 3%nat
      /\ waits run.2.2 = [100; 200]
      /\ length (waits run.2.2) = 2%nat).
Proof.
  split.
  - destruct (pollUntil_attempts_and_waits noWait countingOperation
                (fun _ => false) pollTimedOut [100; 200] 0%nat _ _ _ eq_refl)
      as (_ & Hnever & _).
    apply Hnever. vm_compute. repeat constructor.
  - destruct (pollUntil_attempts_and_waits noWait countingOperation
                (fun r => (2 <=? r)%nat) pollTimedOut [100; 200] 0%nat _ _ _ eq_refl)
      as (_ & _ & Hthird).
    apply (Hthird 2%nat 2%nat); reflexivity.
Defined.

(** Schedule [100; 200; 400] and an operation that fails on its third
    invocation: the run ends with that failure after two waits, and the
    third schedule entry is never consumed. *)
Lemma pollUntil_operation_failure_witness :
  let run := observedPoll noWait failingThird (fun _ => false)
               pollTimedOut [100; 200; 400] (0%nat, []) in
  run.1 = Rejected (UpstreamFailure "503")
  /\ length (attempts run.2.2) = 3%nat
  /\ waits run.2.2 = [100; 200]
  /\ length (waits run.2.2) = 2%nat
  /\ last run.2.2 = Some (Attempted (Rejected (UpstreamFailure "503"))).
Proof.
  destruct (pollUntil_operation_failure noWait failingThird (fun _ => false)
              pollTimedOut [100; 200; 400] 0%nat _ _ _ eq_refl) as (Hfail & _).
  apply (Hfail 2%nat (UpstreamFailure "503")). reflexivity.
Defined.

(** ** The single-flight cache *)

Section CacheFacts.
Context {T : Type}.
Implicit Types (c : RequestCache T) (steps : list (CacheStep T)).

Lemma arrive_other now key key' caller c :
  key' <> key ->
  entries (arrive now key' caller c).2 !! key = entries c !! key.
Proof.
  intros Hne. unfold arrive.
  destruct (entries c !! key') as [[ws|v expiresAt]|]; simpl.
  - by rewrite lookup_insert_ne.
  - destruct (now <? expiresAt); simpl; [done|].
    by rewrite lookup_insert_ne, lookup_delete_ne.
  - by rewrite lookup_insert_ne.
Qed.

Lemma complete_other now key key' ended c :
  key' <> key ->
  entries (complete now key' ended c).2 !! key = entries c !! key.
Proof.
  intros Hne. unfold complete.
  destruct ended as [v|e|]; [| |done];
    destruct (entries c !! key') as [[ws|v' expiresAt]|]; simpl; try done.
  - by rewrite lookup_insert_ne.
  - by rewrite lookup_delete_ne.
Qed.

Lemma arrive_miss now key caller c :
  cacheMiss now key c ->
  (arrive now key caller c).1 = Started
  /\ entries (arrive now key caller c).2 !! key = Some (Pending [caller]).
Proof.
  unfold cacheMiss, arrive.
  destruct (entries c !! key) as [[ws|v expiresAt]|]; simpl; intros Hmiss.
  - contradiction.
  - assert (Hexp : (now <? expiresAt) = false) by lia. rewrite Hexp. simpl.
    by rewrite lookup_insert_eq.
  - by rewrite lookup_insert_eq.
Qed.

Lemma arrive_pending now key caller c waiters :
  entries c !! key = Some (Pending waiters) ->
  (arrive now key caller c).1 = Attached
  /\ entries (arrive now key caller c).2 !! key
     = Some (Pending (waiters ++ [caller])).
Proof.
  intros Hp. unfold arrive. rewrite Hp. simpl. by rewrite lookup_insert_eq.
Qed.

Lemma runCache_app steps1 steps2 c :
  runCache (steps1 ++ steps2) c
  = ((runCache steps1 c).1 ++ (runCache steps2 (runCache steps1 c).2).1,
     (runCache steps2 (runCache steps1 c).2).2).
Proof.
  revert c. induction steps1 as [|[now key caller|now key ended] steps1 IH];
    intros c; simpl.
  - by destruct (runCache steps2 c).
  - destruct (arrive now key caller c) as [met c1]. rewrite IH.
    by destruct (runCache steps1 c1) as [obs c2].
  - destruct (complete now key ended c) as [ds c1]. rewrite IH.
    destruct (runCache steps1 c1) as [obs c2]. simpl. by rewrite app_assoc.
Qed.

Lemma producerStarts_app key (obs1 obs2 : list (Observation T)) :
  producerStarts key (obs1 ++ obs2)
  = (producerStarts key obs1 + producerStarts key obs2)%nat.
Proof. unfold producerStarts. by rewrite omap_app, length_app. Qed.

Lemma deliveries_app key (obs1 obs2 : list (Observation T)) :
  deliveries key (obs1 ++ obs2) = deliveries key obs1 ++ deliveries key obs2.
Proof. unfold deliveries. apply omap_app. Qed.

Lemma deliveries_delivered key key' (ds : list (Caller * Outcome T)) :
  deliveries key (map (fun d => Delivered key' d.1 d.2) ds)
  = if decide (key' = key) then ds else [].
Proof.
  unfold deliveries. destruct (decide (key' = key)) as [Heq|Hne].
  - induction ds as [|[w o] ds IH]; simpl; [done|].
    rewrite decide_True by done. f_equal. exact IH.
  - induction ds as [|[w o] ds IH]; simpl; [done|].
    by rewrite decide_False.
Qed.

Lemma producerStarts_delivered key key' (ds : list (Caller * Outcome T)) :
  producerStarts key (map (fun d => Delivered key' d.1 d.2) ds) = 0%nat.
Proof. unfold producerStarts. by induction ds. Qed.

(** While a resolution of [key] is in flight and does not end, callers of
    [key] only queue up behind it: no producer is started for [key] and
    nothing is delivered. *)
Lemma in_flight_callers_attach key steps :
  forall c waiters,
    entries c !! key = Some (Pending waiters) ->
    Forall (fun st => ~ settlesKey key st) steps ->
    producerStarts key (runCache steps c).1 = 0%nat
    /\ deliveries key (runCache steps c).1 = []
    /\ entries (runCache steps c).2 !! key
       = Some (Pending (waiters ++ callersOf key steps)).
Proof.
  induction steps as [|[now key' caller|now key' ended] steps IH];
    intros c waiters Hp Hno; simpl.
  - by rewrite app_nil_r.
  - apply Forall_cons in Hno as [_ Hno].
    destruct (arrive now key' caller c) as [met c1] eqn:Ha.
    destruct (decide (key' = key)) as [->|Hne].
    + destruct (arrive_pending now key caller c waiters Hp) as [Hmet Hc1].
      rewrite Ha in Hmet, Hc1. simpl in Hmet, Hc1. subst met.
      destruct (IH c1 _ Hc1 Hno) as (Hs & Hd & He).
      destruct (runCache steps c1) as [obs c2]. simpl in *.
      unfold producerStarts, deliveries in *. simpl.
      rewrite He, <- app_assoc. done.
    + pose proof (arrive_other now key key' caller c Hne) as Hc1.
      rewrite Ha in Hc1. simpl in Hc1. rewrite Hp in Hc1.
      destruct (IH c1 _ Hc1 Hno) as (Hs & Hd & He).
      destruct (runCache steps c1) as [obs c2]. simpl in *.
      unfold producerStarts, deliveries in *. simpl.
      destruct met; simpl; try done. by destruct (decide (key' = key)).
  - apply Forall_cons in Hno as [Hk Hno]. simpl in Hk.
    destruct (complete now key' ended c) as [ds c1] eqn:Hc.
    pose proof (complete_other now key key' ended c Hk) as Hc1.
    rewrite Hc in Hc1. simpl in Hc1. rewrite Hp in Hc1.
    destruct (IH c1 _ Hc1 Hno) as (Hs & Hd & He).
    destruct (runCache steps c1) as [obs c2]. simpl in *.
    rewrite producerStarts_app, deliveries_app, producerStarts_delivered,
      deliveries_delivered, Hs, Hd, He.
    by destruct (decide (key' = key)).
Qed.
End CacheFacts.

(** A first caller that misses starts the producer; whoever comes while it
    runs queues up behind it. *)
Lemma miss_then_in_flight {T} (c : RequestCache T) (key : string) (t0 : Z)
    (first : Caller) (rest : list (CacheStep T)) :
  cacheMiss t0 key c ->
  Forall (fun st => ~ settlesKey key st) rest ->
  let run := runCache (Resolve t0 key first :: rest) c in
  producerStarts key run.1 = 1%nat
  /\ deliveries key run.1 = []
  /\ entries run.2 !! key = Some (Pending (first :: callersOf key rest)).
Proof.
  intros Hmiss Hno. simpl.
  destruct (arrive_miss t0 key first c Hmiss) as [Hmet Hc1].
  destruct (arrive t0 key first c) as [met c1]. simpl in Hmet, Hc1. subst met.
  destruct (in_flight_callers_attach key rest c1 [first] Hc1 Hno) as (Hs & Hd & He).
  destruct (runCache rest c1) as [obs c2]. cbn [fst snd app] in *.
  change (Arrived key first Started :: obs)
    with ([Arrived key first Started] ++ obs).
  rewrite producerStarts_app, deliveries_app, Hs, Hd.
  unfold producerStarts. simpl. by rewrite decide_True.
Qed.

Lemma deliveries_to_waiters {T} (key : string) (ended : Outcome T)
    (waiters : list Caller) :
  deliveries key (map (fun d => Delivered key d.1 d.2)
                    (map (fun w => (w, ended)) waiters))
  = map (fun w => (w, ended)) waiters.
Proof. rewrite deliveries_delivered. by rewrite decide_True. Qed.

(** C4. Take any key and any callers of it that arrive, at whatever times
    and interleaved with any activity on other keys, after a first caller
    met no live value and before the producer ends: the producer of the key
    is started exactly once, and when it ends, with a value or with a
    failure, every one of these callers is handed that same outcome. *)
Theorem concurrent_callers_share_one_resolution {T} (c : RequestCache T)
    (key : string) (t0 : Z) (first : Caller) (rest : list (CacheStep T))
    (now : Z) (ended : Outcome T) :
  cacheMiss t0 key c ->
  Forall (fun st => ~ settlesKey key st) rest ->
  ended <> Unsettled ->
  let obs := (runCache (Resolve t0 key first :: rest ++ [Settle now key ended]) c).1 in
  producerStarts key obs = 1%nat
  /\ deliveries key obs = map (fun w => (w, ended)) (first :: callersOf key rest).
Proof.
  intros Hmiss Hno Hended obs. subst obs.
  destruct (miss_then_in_flight c key t0 first rest Hmiss Hno) as (Hs & Hd & He).
  change (Resolve t0 key first :: rest ++ [Settle now key ended])
    with ((Resolve t0 key first :: rest) ++ [Settle now key ended]).
  rewrite runCache_app.
  destruct (runCache (Resolve t0 key first :: rest) c) as [obs c1].
  simpl in Hs, Hd, He. cbn [fst snd runCache].
  assert (Hout : (complete now key ended c1).1
                 = map (fun w => (w, ended)) (first :: callersOf key rest)).
  { unfold complete. rewrite He. by destruct ended. }
  destruct (complete now key ended c1) as [ds c2]. cbn [fst] in Hout. subst ds.
  cbn [fst]. rewrite app_nil_r, producerStarts_app, deliveries_app, Hs, Hd.
  rewrite producerStarts_delivered, deliveries_to_waiters. done.
Qed.

(** Callers 1, 2 and 3 ask for ["a"] before its producer fails: one start,
    and the three of them receive the same failure. *)
Lemma concurrent_callers_share_one_resolution_witness :
  let obs := (runCache (Resolve 2000 "a" 1%nat :: crowd
                        ++ [Settle 2050 "a" (Rejected (UpstreamFailure "503"))])
                staleCache).1 in
  producerStarts "a" obs = 1%nat
  /\ deliveries "a" obs
     = [ (1%nat, Rejected (UpstreamFailure "503"));
         (2%nat, Rejected (UpstreamFailure "503"));
         (3%nat, Rejected (UpstreamFailure "503")) ].
Proof.
  apply (concurrent_callers_share_one_resolution staleCache "a" 2000 1%nat crowd
           2050 (Rejected (UpstreamFailure "503"))).
  - vm_compute. exact I.
  - unfold crowd. repeat constructor; simpl; try tauto; discriminate.
  - discriminate.
Defined.

(** A failure that ends a pending resolution removes the entry, and the
    next caller of the key starts the producer. *)
Lemma failure_clears_entry {T} (c : RequestCache T) (key : string)
    (waiters : list Caller) (now : Z) (e : Error) :
  entries c !! key = Some (Pending waiters) ->
  let c' := (complete now key (Rejected e) c).2 in
  entries c' !! key = None
  /\ (forall later caller,
        (arrive later key caller c').1 = Started
        /\ entries (arrive later key caller c').2 !! key = Some (Pending [caller])).
Proof.
  intros Hp c'. subst c'. unfold complete. rewrite Hp. simpl.
  assert (Hgone : entries (mkCache (lifetime c) (delete key (entries c))) !! key = None)
    by (simpl; apply lookup_delete_eq).
  split; [exact Hgone|].
  intros later caller. apply arrive_miss. unfold cacheMiss. by rewrite Hgone.
Qed.

(** C7. When the producer of a key fails, whatever callers had gathered
    behind it, nothing is stored for the key and the in-flight marker is
    gone; the next caller of the key, at any later time, meets no entry and
    starts the producer again, which makes two starts in all. *)
Theorem failed_producer_is_not_memoized {T} (c : RequestCache T) (key : string)
    (t0 : Z) (first : Caller) (rest : list (CacheStep T)) (now : Z) (e : Error)
    (later : Z) (next : Caller) :
  cacheMiss t0 key c ->
  Forall (fun st => ~ settlesKey key st) rest ->
  let failed := Resolve t0 key first :: rest ++ [Settle now key (Rejected e)] in
  let c' := (runCache failed c).2 in
  entries c' !! key = None
  /\ (arrive later key next c').1 = Started
  /\ entries (arrive later key next c').2 !! key = Some (Pending [next])
  /\ producerStarts key (runCache (failed ++ [Resolve later key next]) c).1 = 2%nat.
Proof.
  intros Hmiss Hno failed c'.
  assert (Hone : producerStarts key (runCache failed c).1 = 1%nat).
  { destruct (miss_then_in_flight c key t0 first rest Hmiss Hno) as (Hs & _ & He).
    subst failed.
    change (Resolve t0 key first :: rest ++ [Settle now key (Rejected e)])
      with ((Resolve t0 key first :: rest) ++ [Settle now key (Rejected e)]).
    rewrite runCache_app. cbn [fst]. rewrite producerStarts_app, Hs.
    cbn [runCache].
    destruct (complete now key (Rejected e) _) as [ds c2]. cbn [fst].
    by rewrite app_nil_r, producerStarts_delivered. }
  assert (Hpending : exists waiters c0,
             entries c0 !! key = Some (Pending waiters)
             /\ c' = (complete now key (Rejected e) c0).2).
  { destruct (miss_then_in_flight c key t0 first rest Hmiss Hno) as (_ & _ & He).
    exists (first :: callersOf key rest), (runCache (Resolve t0 key first :: rest) c).2.
    split; [exact He|]. subst c' failed.
    change (Resolve t0 key first :: rest ++ [Settle now key (Rejected e)])
      with ((Resolve t0 key first :: rest) ++ [Settle now key (Rejected e)]).
    rewrite runCache_app. cbn [runCache snd].
    by destruct (complete now key (Rejected e) _). }
  destruct Hpending as (waiters & c0 & Hp & Hc').
  destruct (failure_clears_entry c0 key waiters now e Hp) as [Hgone Hnext].
  rewrite <- Hc' in Hgone, Hnext.
  destruct (Hnext later next) as [Hstart Hentry].
  repeat split; try assumption.
  rewrite runCache_app. cbn [fst]. rewrite producerStarts_app, Hone.
  fold c'. cbn [runCache].
  destruct (arrive later key next c') as [met c2]. simpl in Hstart. subst met.
  unfold producerStarts. simpl. by rewrite decide_True.
Qed.

(** Callers 1, 2 and 3 gather behind a producer of ["a"] that fails; caller
    4 comes later and starts it again. *)
Lemma failed_producer_is_not_memoized_witness :
  let failed := Resolve 2000 "a" 1%nat :: crowd
                ++ [Settle 2050 "a" (Rejected (UpstreamFailure "503"))] in
  let c' := (runCache failed staleCache).2 in
  entries c' !! "a" = None
  /\ (arrive 2060 "a" 4%nat c').1 = Started
  /\ entries (arrive 2060 "a" 4%nat c').2 !! "a" = Some (Pending [4%nat])
  /\ producerStarts "a" (runCache (failed ++ [Resolve 2060 "a" 4%nat]) staleCache).1
     = 2%nat.
Proof.
  apply (failed_producer_is_not_memoized staleCache "a" 2000 1%nat crowd 2050
           (UpstreamFailure "503") 2060 4%nat).
  - vm_compute. exact I.
  - unfold crowd. repeat constructor; simpl; try tauto; discriminate.
Defined.

(** ** The role verifier *)

Section PollerFrame.
Context {St T : Type}.
Variable wait : Z -> St -> St.
Variable operation : Async St T.
Variable isAcceptable : T -> bool.
Variable onTimeout : unit -> Error.

(** A value returned by the poller passed the predicate. *)
Lemma pollUntil_accepted (schedule : list Z) :
  forall s v s',
    pollUntil wait operation isAcceptable onTimeout schedule s = (Fulfilled v, s') ->
    isAcceptable v = true.
Proof.
  induction schedule as [|d rest IH]; intros s v s' Hrun; simpl in Hrun;
    unfold await in Hrun; destruct (operation s) as [[r|e|] s1];
    try discriminate; destruct (isAcceptable r) eqn:Hacc;
    try (inversion Hrun; subst; assumption); try discriminate.
  simpl in Hrun. eapply IH. exact Hrun.
Qed.

(** A failure of the poller is its timeout or a failure of the operation. *)
Lemma pollUntil_rejected (bad : Error -> Prop) (schedule : list Z) :
  (forall s e, (operation s).1 = Rejected e -> ~ bad e) ->
  ~ bad (onTimeout tt) ->
  forall s e s',
    pollUntil wait operation isAcceptable onTimeout schedule s = (Rejected e, s') ->
    ~ bad e.
Proof.
  intros Hop Htime.
  induction schedule as [|d rest IH]; intros s e s' Hrun; simpl in Hrun;
    unfold await in Hrun; pose proof (Hop s) as Hs;
    destruct (operation s) as [[r|e0|] s1]; try discriminate;
    try (inversion Hrun; subst; apply Hs; reflexivity);
    destruct (isAcceptable r); try discriminate.
  - inversion Hrun; subst. exact Htime.
  - simpl in Hrun. eapply IH. exact Hrun.
Qed.

(** Whatever relates a state to the ones the operation and the wait lead
    to, relates the start of a poll to its end. *)
Lemma pollUntil_preserves (R : St -> St -> Prop) (schedule : list Z) :
  (forall s, R s s) ->
  (forall s1 s2 s3, R s1 s2 -> R s2 s3 -> R s1 s3) ->
  (forall s, R s (operation s).2) ->
  (forall d s, R s (wait d s)) ->
  forall s, R s (pollUntil wait operation isAcceptable onTimeout schedule s).2.
Proof.
  intros Hrefl Htrans Hop Hwait.
  induction schedule as [|d rest IH]; intros s; simpl; unfold await;
    pose proof (Hop s) as Hs; destruct (operation s) as [[r|e|] s1];
    simpl in *; try exact Hs; destruct (isAcceptable r); simpl; try exact Hs.
  eapply Htrans; [exact Hs|]. eapply Htrans; [apply Hwait|]. apply IH.
Qed.

(** A poll begins by invoking the operation. *)
Lemma pollUntil_begins (R : St -> St -> Prop) (schedule : list Z) :
  (forall s, R s s) ->
  (forall s1 s2 s3, R s1 s2 -> R s2 s3 -> R s1 s3) ->
  (forall s, R s (operation s).2) ->
  (forall d s, R s (wait d s)) ->
  forall s,
    R (operation s).2
      (pollUntil wait operation isAcceptable onTimeout schedule s).2.
Proof.
  intros Hrefl Htrans Hop Hwait s.
  destruct schedule as [|d rest]; simpl; unfold await;
    destruct (operation s) as [[r|e|] s1]; simpl; try apply Hrefl;
    destruct (isAcceptable r); simpl; try apply Hrefl.
  eapply Htrans; [apply Hwait|]. by apply pollUntil_preserves.
Qed.
End PollerFrame.

Section RoleVerifierFacts.
Import RoleVerifier.
Variable api : TeamsLiveAPI.

Lemma onlyCalls_refl s : onlyCalls s s.
Proof. repeat split. exists []. by rewrite app_nil_r. Qed.

Lemma onlyCalls_trans s1 s2 s3 :
  onlyCalls s1 s2 -> onlyCalls s2 s3 -> onlyCalls s1 s3.
Proof.
  intros (Hr1 & Hg1 & made1 & Hh1) (Hr2 & Hg2 & made2 & Hh2).
  repeat split; [congruence | congruence |].
  exists (made1 ++ made2). rewrite Hh2, Hh1. by rewrite app_assoc.
Qed.

Lemma onlyCalls_wait d s : onlyCalls s (wait d s).
Proof. repeat split. by exists [Slept d]. Qed.

Lemma onlyCalls_register clientId s :
  onlyCalls s (callRegisterClientId api clientId s).2.
Proof. repeat split. by exists [RegisterCalled clientId]. Qed.

Lemma onlyCalls_getRoles clientId s :
  onlyCalls s (callGetClientRoles api clientId s).2.
Proof. repeat split. by exists [GetRolesCalled clientId]. Qed.

Lemma settle_not_invalid {A} (reply : Reply A) e :
  settle reply = Rejected e -> ~ invalidArgument e.
Proof.
  destruct reply; simpl; intros Heq [m Hm]; congruence.
Qed.

Lemma arrive_lifetime {T} now key caller (c : RequestCache T) :
  lifetime (arrive now key caller c).2 = lifetime c.
Proof.
  unfold arrive. destruct (entries c !! key) as [[ws|v expiresAt]|];
    simpl; try done. by destruct (now <? expiresAt).
Qed.

Lemma arrive_served {T} now key caller (c : RequestCache T) v :
  (arrive now key caller c).1 = Served v ->
  exists expiresAt, entries c !! key = Some (Ready v expiresAt).
Proof.
  unfold arrive. destruct (entries c !! key) as [[ws|v' expiresAt]|];
    simpl; try discriminate.
  destruct (now <? expiresAt); simpl; [|discriminate].
  intros Heq. inversion Heq; subst. by exists expiresAt.
Qed.

Lemma arrive_started {T} now key caller (c : RequestCache T) :
  (arrive now key caller c).1 = Started ->
  entries (arrive now key caller c).2 !! key = Some (Pending [caller]).
Proof.
  unfold arrive. destruct (entries c !! key) as [[ws|v' expiresAt]|];
    simpl; try discriminate.
  - destruct (now <? expiresAt); simpl; [discriminate|].
    intros _. by rewrite lookup_insert_eq.
  - intros _. by rewrite lookup_insert_eq.
Qed.

(** [indexOf] finds exactly the members. *)
Lemma indexOf_bounds roles role : -1 <= indexOf roles role.
Proof.
  induction roles as [|r rest IH]; simpl; [lia|].
  destruct (String.eqb r role); [lia|].
  destruct (indexOf rest role <? 0) eqn:Hi; lia.
Qed.

Lemma indexOf_member roles role : 0 <= indexOf roles role <-> role ∈ roles.
Proof.
  induction roles as [|r rest IH]; simpl.
  - split; [lia | intros Hin; inversion Hin].
  - destruct (String.eqb r role) eqn:Heq.
    + apply String.eqb_eq in Heq. subst. split; [intros _; left | lia].
    + apply String.eqb_neq in Heq.
      destruct (indexOf rest role <? 0) eqn:Hi.
      * split; [lia|]. intros Hin. apply elem_of_cons in Hin as [->|Hin];
          [congruence|]. apply IH in Hin. lia.
      * split; [|lia]. intros _. right. apply IH. lia.
Qed.

Lemma anyRoleAllowed_intersects held allowed :
  anyRoleAllowed held allowed = true
  <-> exists role, role ∈ held /\ role ∈ allowed.
Proof.
  induction allowed as [|role rest IH]; simpl.
  - split; [discriminate | intros (role & _ & Hin); inversion Hin].
  - destruct (0 <=? indexOf held role) eqn:Hi.
    + split; [|done]. intros _. exists role. split; [|left].
      apply indexOf_member. lia.
    + rewrite IH. split.
      * intros (r & Hh & Hr). exists r. split; [done | by right].
      * intros (r & Hh & Hr). apply elem_of_cons in Hr as [->|Hr].
        -- apply indexOf_member in Hh. lia.
        -- by exists r.
Qed.
End RoleVerifierFacts.

Section RoleVerifierClaims.
Import RoleVerifier.
Variable api : TeamsLiveAPI.

Lemma getClientRoles_array clientId s roles s' :
  holdsArrays (getRequestCache s) ->
  getClientRoles api clientId s = (Fulfilled roles, s') ->
  isArray roles = true.
Proof.
  intros Hinv. unfold getClientRoles.
  destruct (missing clientId); [discriminate|].
  unfold cacheRequest.
  destruct (arrive (clock s) clientId verifier (getRequestCache s))
    as [met c] eqn:Harrive.
  destruct met as [v| |].
  - intros Heq. inversion Heq; subst.
    destruct (arrive_served (clock s) clientId verifier (getRequestCache s) roles)
      as [expiresAt Hready]; [by rewrite Harrive|].
    eapply Hinv. exact Hready.
  - discriminate.
  - destruct (pollUntil wait (callGetClientRoles api clientId) isArray _ _ _)
      as [ended s1] eqn:Hpoll.
    intros Heq. inversion Heq; subst.
    eapply pollUntil_accepted. exact Hpoll.
Qed.

(** The cache of role lookups only ever holds arrays. *)
Lemma getClientRoles_keeps_arrays clientId s :
  holdsArrays (getRequestCache s) ->
  holdsArrays (getRequestCache (getClientRoles api clientId s).2).
Proof.
  intros Hinv. unfold getClientRoles.
  destruct (missing clientId); [exact Hinv|].
  unfold cacheRequest.
  destruct (arrive (clock s) clientId verifier (getRequestCache s))
    as [met c] eqn:Harrive.
  assert (Hc : holdsArrays c).
  { assert (c = (arrive (clock s) clientId verifier (getRequestCache s)).2)
      as -> by (by rewrite Harrive).
    unfold arrive. intros key value expiresAt.
    destruct (entries (getRequestCache s) !! clientId) as [[ws|v e]|] eqn:He;
      simpl.
    - destruct (decide (clientId = key)) as [->|Hne].
      + rewrite lookup_insert_eq. discriminate.
      + rewrite lookup_insert_ne by done. apply Hinv.
    - destruct (clock s <? e); simpl; [apply Hinv|].
      destruct (decide (clientId = key)) as [->|Hne].
      + rewrite lookup_insert_eq. discriminate.
      + rewrite lookup_insert_ne, lookup_delete_ne by done. apply Hinv.
    - destruct (decide (clientId = key)) as [->|Hne].
      + rewrite lookup_insert_eq. discriminate.
      + rewrite lookup_insert_ne by done. apply Hinv. }
  destruct met as [v| |]; [exact Hc | exact Hc |].
  destruct (pollUntil wait (callGetClientRoles api clientId) isArray _ _ _)
    as [ended s1] eqn:Hpoll.
  cbn [snd getRequestCache setGetRequestCache].
  pose proof (pollUntil_preserves wait (callGetClientRoles api clientId) isArray
                (fun _ => Timeout "RoleVerifier: timed out getting roles for a remote client ID")
                onlyCalls EXPONENTIAL_BACKOFF_SCHEDULE
                onlyCalls_refl onlyCalls_trans
                (onlyCalls_getRoles api clientId) onlyCalls_wait
                (setGetRequestCache c s)) as (_ & Hget & _).
  rewrite Hpoll in Hget. simpl in Hget. rewrite Hget.
  unfold complete. intros key value expiresAt.
  destruct ended as [v|e|]; [| |apply Hc];
    destruct (entries c !! clientId) as [[ws|v' e']|]; simpl; try apply Hc.
  - destruct (decide (clientId = key)) as [->|Hne].
    + rewrite lookup_insert_eq. intros Heq. inversion Heq; subst.
      eapply pollUntil_accepted. exact Hpoll.
    + rewrite lookup_insert_ne by done. apply Hc.
  - destruct (decide (clientId = key)) as [->|Hne].
    + rewrite lookup_delete_eq. discriminate.
    + rewrite lookup_delete_ne by done. apply Hc.
Qed.

Lemma create_holds_arrays now : holdsArrays (getRequestCache (create now)).
Proof. intros key value expiresAt. simpl. by rewrite lookup_empty. Qed.

(** C6. An empty [clientId] is refused with an invalid-argument error.
    For a non-empty one: with [allowedRoles] absent or empty the answer is
    [true] and nothing at all is done (no lookup, the state is the same);
    otherwise the client's roles are fetched through [getClientRoles] and
    the answer is [true] exactly when one of them is among
    [allowedRoles], a failed fetch being passed on as it is. *)
Theorem verifyRolesAllowed_decides_by_membership (clientId : string)
    (allowedRoles : option (list UserMeetingRole)) (s : State) :
  (clientId = EmptyString ->
   verifyRolesAllowed api clientId allowedRoles s
   = (Rejected (InvalidArgument
        "RoleVerifier: called verifyRolesAllowed() without a clientId"), s))
  /\ (clientId <> EmptyString ->
      allowedRoles = None \/ allowedRoles = Some [] ->
      verifyRolesAllowed api clientId allowedRoles s = (Fulfilled true, s))
  /\ (clientId <> EmptyString ->
      forall allowed,
        allowedRoles = Some allowed -> allowed <> [] ->
        holdsArrays (getRequestCache s) ->
        match getClientRoles api clientId s with
        | (Fulfilled roles, s') =>
            exists held answer,
              roles = RoleArray held
              /\ verifyRolesAllowed api clientId allowedRoles s
                 = (Fulfilled answer, s')
              /\ (answer = true <-> exists role, role ∈ held /\ role ∈ allowed)
        | (Rejected e, s') =>
            verifyRolesAllowed api clientId allowedRoles s = (Rejected e, s')
        | (Unsettled, s') =>
            verifyRolesAllowed api clientId allowedRoles s = (Unsettled, s')
        end).
Proof.
  split; [|split].
  - intros ->. reflexivity.
  - intros Hid Hopen. unfold verifyRolesAllowed.
    destruct clientId; [done|]. simpl. by destruct Hopen as [->| ->].
  - intros Hid allowed -> Hne Hinv. unfold verifyRolesAllowed.
    destruct clientId as [|a rest]; [done|].
    change (missing (String a rest)) with false. cbv iota.
    destruct allowed as [|role more]; [done|].
    unfold await.
    destruct (getClientRoles api (String a rest) s) as [[roles|e|] s'] eqn:Hget;
      try reflexivity.
    pose proof (getClientRoles_array _ _ _ _ Hinv Hget) as Harr.
    destruct roles as [|held]; [discriminate|].
    exists held, (anyRoleAllowed held (role :: more)).
    split; [reflexivity|]. split; [reflexivity|].
    apply anyRoleAllowed_intersects.
Qed.
End RoleVerifierClaims.

Lemma verifyRolesAllowed_decides_by_membership_witness :
  let s := RoleVerifier.create 0 in
  RoleVerifier.verifyRolesAllowed slowRoleService "" (Some ["Presenter"]) s
  = (Rejected (InvalidArgument
       "RoleVerifier: called verifyRolesAllowed() without a clientId"), s)
  /\ RoleVerifier.verifyRolesAllowed slowRoleService "client-1" (Some []) s
     = (Fulfilled true, s)
  /\ match RoleVerifier.getClientRoles slowRoleService "client-1" s with
     | (Fulfilled roles, s') =>
         exists held answer,
           roles = RoleVerifier.RoleArray held
           /\ RoleVerifier.verifyRolesAllowed slowRoleService "client-1"
                (Some ["Organizer"; "Presenter"]) s
              = (Fulfilled answer, s')
           /\ (answer = true
               <-> exists role, role ∈ held /\ role ∈ ["Organizer"; "Presenter"])
     | (Rejected e, s') =>
         RoleVerifier.verifyRolesAllowed slowRoleService "client-1"
           (Some ["Organizer"; "Presenter"]) s = (Rejected e, s')
     | (Unsettled, s') =>
         RoleVerifier.verifyRolesAllowed slowRoleService "client-1"
           (Some ["Organizer"; "Presenter"]) s = (Unsettled, s')
     end.
Proof.
  intros s. split; [|split].
  - apply (verifyRolesAllowed_decides_by_membership slowRoleService ""
             (Some ["Presenter"]) s). reflexivity.
  - apply (verifyRolesAllowed_decides_by_membership slowRoleService "client-1"
             (Some []) s); [discriminate | by right].
  - apply (verifyRolesAllowed_decides_by_membership slowRoleService "client-1"
             (Some ["Organizer"; "Presenter"]) s);
      [discriminate | reflexivity | discriminate |].
    apply create_holds_arrays.
Defined.

(** The presenter is let in for [["Organizer"; "Presenter"]], after one
    turned-down lookup and one wait of 100 ms. *)
Example presenter_is_allowed :
  let run := RoleVerifier.verifyRolesAllowed slowRoleService "client-1"
               (Some ["Organizer"; "Presenter"]) (RoleVerifier.create 0) in
  run.1 = Fulfilled true
  /\ RoleVerifier.history run.2
     = [ RoleVerifier.GetRolesCalled "client-1"; RoleVerifier.Slept 100;
         RoleVerifier.GetRolesCalled "client-1" ].
Proof. vm_compute. split; reflexivity. Qed.

Example organizer_only_is_refused :
  (RoleVerifier.verifyRolesAllowed slowRoleService "client-1"
     (Some ["Organizer"]) (RoleVerifier.create 0)).1 = Fulfilled false.
Proof. vm_compute. reflexivity. Qed.

Section RegistrationClaims.
Import RoleVerifier.
Variable api : TeamsLiveAPI.

Abbreviation registerPoll clientId :=
  (pollUntil wait (callRegisterClientId api clientId) isArray
     (fun _ => Timeout "RoleVerifier: timed out registering local client ID")
     EXPONENTIAL_BACKOFF_SCHEDULE).

Lemma registerPoll_only_calls clientId s :
  onlyCalls s (registerPoll clientId s).2
  /\ exists made,
       history (registerPoll clientId s).2
       = history s ++ RegisterCalled clientId :: made.
Proof.
  split.
  - apply pollUntil_preserves;
      [ apply onlyCalls_refl | apply onlyCalls_trans
      | apply onlyCalls_register | apply onlyCalls_wait ].
  - pose proof (pollUntil_begins wait (callRegisterClientId api clientId) isArray
                  (fun _ => Timeout "RoleVerifier: timed out registering local client ID")
                  onlyCalls EXPONENTIAL_BACKOFF_SCHEDULE
                  onlyCalls_refl onlyCalls_trans
                  (onlyCalls_register api clientId) onlyCalls_wait s)
      as (_ & _ & made & Hmade).
    exists made. rewrite Hmade. simpl.
    by rewrite <- app_assoc.
Qed.

Lemma registerPoll_never_invalid clientId s e s' :
  registerPoll clientId s = (Rejected e, s') -> ~ invalidArgument e.
Proof.
  apply pollUntil_rejected.
  - intros s0 e0. simpl. apply settle_not_invalid.
  - intros [m Hm]. discriminate.
Qed.

(** One poll of the registration endpoint, answer by answer. *)
Lemma registerPoll_follows clientId (onTimeout : unit -> Error)
    (schedule : list Z) :
  forall (n : nat) (s : State),
    (n <= length schedule)%nat ->
    (forall i, (i < n)%nat ->
       api_registerClientId api
         (history s ++ Registration.rounds clientId (take i schedule)) clientId
       = Returned Undefined) ->
    let run := pollUntil wait (callRegisterClientId api clientId) isArray
                 onTimeout schedule s in
    let ended :=
      history run.2
      = history s ++ Registration.rounds clientId (take n schedule)
        ++ [RegisterCalled clientId]
      /\ clock run.2 = clock s + foldr Z.add 0 (take n schedule)
      /\ registerRequestCache run.2 = registerRequestCache s
      /\ getRequestCache run.2 = getRequestCache s in
    match api_registerClientId api
            (history s ++ Registration.rounds clientId (take n schedule)) clientId
    with
    | Returned (RoleArray roles) => run.1 = Fulfilled (RoleArray roles) /\ ended
    | Failed message => run.1 = Rejected (UpstreamFailure message) /\ ended
    | Returned Undefined =>
        n = length schedule -> run.1 = Rejected (onTimeout tt) /\ ended
    end.
Proof.
  induction schedule as [|d rest IH]; intros n s Hn Hdown.
  - assert (n = 0%nat) as -> by (simpl in Hn; lia).
    simpl. rewrite app_nil_r. unfold await, callRegisterClientId.
    destruct (api_registerClientId api (history s) clientId) as [[|roles]|m];
      simpl; try intros _.
    all: repeat split; simpl; lia.
  - destruct n as [|n].
    + simpl. rewrite app_nil_r. unfold await, callRegisterClientId.
      destruct (api_registerClientId api (history s) clientId) as [[|roles]|m];
        simpl; [intros Hlen; discriminate Hlen | |]; repeat split; simpl; lia.
    + pose proof (Hdown 0%nat ltac:(lia)) as Hfirst.
      simpl in Hfirst. rewrite app_nil_r in Hfirst.
      set (s2 := wait d (callRegisterClientId api clientId s).2).
      assert (Hstep :
                pollUntil wait (callRegisterClientId api clientId) isArray
                  onTimeout (d :: rest) s
                = pollUntil wait (callRegisterClientId api clientId) isArray
                    onTimeout rest s2).
      { subst s2. simpl. unfold await, callRegisterClientId, sleep.
        by rewrite Hfirst. }
      rewrite Hstep. clear Hstep. cbv zeta.
      assert (Hhist : history s2
                      = history s ++ [RegisterCalled clientId; Slept d]).
      { subst s2. simpl. by rewrite <- app_assoc. }
      specialize (IH n s2 ltac:(simpl in Hn; lia)).
      assert (Hshift : forall i,
                 history s2 ++ Registration.rounds clientId (take i rest)
                 = history s
                   ++ Registration.rounds clientId (take (S i) (d :: rest))).
      { intros i. rewrite Hhist. simpl. by rewrite <- app_assoc. }
      rewrite <- Hshift.
      assert (Hdown' : forall i, (i < n)%nat ->
                 api_registerClientId api
                   (history s2 ++ Registration.rounds clientId (take i rest))
                   clientId = Returned Undefined).
      { intros i Hi. rewrite Hshift. apply Hdown. lia. }
      specialize (IH Hdown'). cbv zeta in IH.
      assert (Hends :
                forall run : Outcome RolesValue * State,
                  history run.2
                  = history s2 ++ Registration.rounds clientId (take n rest)
                    ++ [RegisterCalled clientId]
                  /\ clock run.2 = clock s2 + foldr Z.add 0 (take n rest)
                  /\ registerRequestCache run.2 = registerRequestCache s2
                  /\ getRequestCache run.2 = getRequestCache s2 ->
                  history run.2
                  = history s
                    ++ Registration.rounds clientId (take (S n) (d :: rest))
                    ++ [RegisterCalled clientId]
                  /\ clock run.2
                     = clock s + foldr Z.add 0 (take (S n) (d :: rest))
                  /\ registerRequestCache run.2 = registerRequestCache s
                  /\ getRequestCache run.2 = getRequestCache s).
      { intros run (H1 & H2 & H3 & H4). rewrite H1, H2, H3, H4, Hhist.
        subst s2. simpl. repeat split; [by rewrite <- app_assoc | lia]. }
      destruct (api_registerClientId api
                  (history s2 ++ Registration.rounds clientId (take n rest))
                  clientId) as [[|roles]|m].
      * intros Hlen. destruct IH as [Hrun Hstate]; [simpl in Hlen; lia|].
        split; [exact Hrun | by apply Hends].
      * destruct IH as [Hrun Hstate]. split; [exact Hrun | by apply Hends].
      * destruct IH as [Hrun Hstate]. split; [exact Hrun | by apply Hends].
Qed.

(** C10. [registerClientId] never refuses its argument: whatever the
    [clientId], the empty string included, it does not fail with an
    invalid-argument error in any state. With nothing live or in flight for
    the client it polls the registration collaborator under that very
    [clientId], and what it returns and caches is decided by the answers of
    the collaborator: after [n <= 5] answers of [undefined], each followed
    by the next wait of the schedule, an array in answer is returned and
    cached under [clientId] for the lifetime of the cache, a failure in
    answer is passed on and nothing is cached, and a sixth [undefined] is
    the timeout. A registration that returned is answered from the cache
    the next time, without a call. [getClientRoles], in contrast, refuses
    the empty string before doing anything. *)
Theorem registerClientId_does_not_validate (clientId : string) (s : State) :
  ~ invalidArgument_outcome (registerClientId api clientId s).1
  /\ (cacheMiss (clock s) clientId (registerRequestCache s) ->
      forall n, (n <= length EXPONENTIAL_BACKOFF_SCHEDULE)%nat ->
        Registration.turnedDownUntil api clientId s n ->
        Registration.followsAnswers api clientId s n
          (registerClientId api clientId s))
  /\ (forall roles s',
        registerClientId api clientId s = (Fulfilled roles, s') ->
        0 < lifetime (registerRequestCache s) ->
        registerClientId api clientId s' = (Fulfilled roles, s'))
  /\ getClientRoles api EmptyString s
     = (Rejected (InvalidArgument
          "RoleVerifier: called getCLientRoles() without a clientId"), s).
Proof.
  split; [|split; [|split; [|reflexivity]]].
  - unfold registerClientId, cacheRequest.
    destruct (arrive (clock s) clientId verifier (registerRequestCache s))
      as [met c].
    destruct met as [v| |]; [intros H; exact H | intros H; exact H |].
    destruct (registerPoll clientId (setRegisterRequestCache c s))
      as [ended s1] eqn:Hpoll. simpl.
    destruct ended as [v|e|]; simpl; try tauto.
    eapply registerPoll_never_invalid. exact Hpoll.
  - intros Hmiss n Hn Hdown.
    destruct (arrive_miss (clock s) clientId verifier _ Hmiss) as [Hmet Hc].
    pose proof (arrive_lifetime (clock s) clientId verifier
                  (registerRequestCache s)) as Hlife.
    pose proof (registerPoll_follows clientId
                  (fun _ => Timeout "RoleVerifier: timed out registering local client ID")
                  EXPONENTIAL_BACKOFF_SCHEDULE n) as Hpoll.
    unfold Registration.followsAnswers, Registration.endsAfter,
      Registration.answer, registerClientId, cacheRequest.
    destruct (arrive (clock s) clientId verifier (registerRequestCache s))
      as [met c].
    simpl in Hmet, Hc, Hlife. subst met.
    specialize (Hpoll (setRegisterRequestCache c s) Hn Hdown).
    cbv zeta in Hpoll.
    change (history (setRegisterRequestCache c s)) with (history s) in Hpoll.
    change (clock (setRegisterRequestCache c s)) with (clock s) in Hpoll.
    change (getRequestCache (setRegisterRequestCache c s))
      with (getRequestCache s) in Hpoll.
    change (registerRequestCache (setRegisterRequestCache c s)) with c in Hpoll.
    destruct (registerPoll clientId (setRegisterRequestCache c s))
      as [ended s1].
    destruct (api_registerClientId api _ clientId) as [[|roles]|m].
    + intros Hlen. destruct (Hpoll Hlen) as (Hrun & Hh & Hclock & Hreg & Hget).
      simpl in Hrun, Hh, Hclock, Hreg, Hget. subst ended. simpl.
      repeat split; try assumption.
      unfold complete. rewrite Hreg, Hc. simpl. apply lookup_delete_eq.
    + destruct Hpoll as (Hrun & Hh & Hclock & Hreg & Hget).
      simpl in Hrun, Hh, Hclock, Hreg, Hget. subst ended. simpl.
      repeat split; try assumption.
      unfold complete. rewrite Hreg, Hc. simpl.
      by rewrite lookup_insert_eq, Hlife.
    + destruct Hpoll as (Hrun & Hh & Hclock & Hreg & Hget).
      simpl in Hrun, Hh, Hclock, Hreg, Hget. subst ended. simpl.
      repeat split; try assumption.
      unfold complete. rewrite Hreg, Hc. simpl. apply lookup_delete_eq.
  - intros roles s' Hrun Hlife.
    unfold registerClientId, cacheRequest in Hrun.
    pose proof (arrive_lifetime (clock s) clientId verifier
                  (registerRequestCache s)) as Hsame.
    destruct (arrive (clock s) clientId verifier (registerRequestCache s))
      as [met c] eqn:Harrive.
    simpl in Hsame.
    assert (Hheld : exists expiresAt,
               entries (registerRequestCache s') !! clientId
               = Some (Ready roles expiresAt) /\ clock s' < expiresAt).
    { destruct met as [v| |].
      - inversion Hrun; subst. simpl.
        unfold arrive in Harrive.
        destruct (entries (registerRequestCache s) !! clientId)
          as [[ws|v' expiresAt]|] eqn:Hentry; try discriminate Harrive.
        destruct (clock s <? expiresAt) eqn:Hlive; [|discriminate Harrive].
        inversion Harrive; subst. exists expiresAt. split; [exact Hentry | lia].
      - discriminate Hrun.
      - pose proof (arrive_started (clock s) clientId verifier
                      (registerRequestCache s)) as Hc.
        rewrite Harrive in Hc. simpl in Hc. specialize (Hc eq_refl).
        destruct (registerPoll_only_calls clientId (setRegisterRequestCache c s))
          as ((Hreg & _ & _) & _).
        destruct (registerPoll clientId (setRegisterRequestCache c s))
          as [ended s1].
        simpl in Hreg. inversion Hrun as [[Hended Hs']]. simpl.
        unfold complete. rewrite Hreg, Hc. simpl.
        exists (clock s1 + lifetime c). rewrite lookup_insert_eq.
        split; [reflexivity | lia]. }
    destruct Hheld as (expiresAt & Hentry & Hlive).
    unfold registerClientId, cacheRequest, arrive. rewrite Hentry.
    assert (Hnow : (clock s' <? expiresAt) = true) by lia. rewrite Hnow.
    by destruct s'.
Qed.
End RegistrationClaims.

Lemma registerClientId_does_not_validate_witness :
  let s := RoleVerifier.create 0 in
  let run := RoleVerifier.registerClientId slowRoleService "" s in
  run.1 = Fulfilled (RoleVerifier.RoleArray ["Presenter"; "Attendee"])
  /\ Registration.endsAfter "" 1 s run.2
       (Some (Ready (RoleVerifier.RoleArray ["Presenter"; "Attendee"])
                (100 + RoleVerifier.CACHE_LIFETIME))).
Proof.
  intros s run.
  destruct (registerClientId_does_not_validate slowRoleService "" s)
    as (_ & Hfollows & _).
  apply (Hfollows I 1%nat).
  - simpl. lia.
  - intros i Hi. destruct i as [|i]; [reflexivity | lia].
Defined.

(** Registering the empty client ID goes to the collaborator twice. *)
Example registering_the_empty_id :
  let run := RoleVerifier.registerClientId slowRoleService "" (RoleVerifier.create 0) in
  run.1 = Fulfilled (RoleVerifier.RoleArray ["Presenter"; "Attendee"])
  /\ RoleVerifier.history run.2
     = [ RoleVerifier.RegisterCalled ""; RoleVerifier.Slept 100;
         RoleVerifier.RegisterCalled "" ].
Proof. vm_compute. split; reflexivity. Qed.

Section RoleCacheFailure.
Import RoleVerifier.
Variable api : TeamsLiveAPI.

(** A failed role lookup leaves no entry behind for the client. *)
Lemma getClientRoles_failure_not_cached clientId s e s' :
  clientId <> EmptyString ->
  getClientRoles api clientId s = (Rejected e, s') ->
  entries (getRequestCache s') !! clientId = None.
Proof.
  intros Hid. unfold getClientRoles.
  destruct clientId as [|a rest]; [done|].
  change (missing (String a rest)) with false. cbv iota.
  unfold cacheRequest.
  pose proof (arrive_started (clock s) (String a rest) verifier (getRequestCache s))
    as Hstarted.
  destruct (arrive (clock s) (String a rest) verifier (getRequestCache s))
    as [met c].
  destruct met as [v| |]; [discriminate | discriminate |].
  specialize (Hstarted eq_refl). simpl in Hstarted.
  pose proof (pollUntil_preserves wait (callGetClientRoles api (String a rest)) isArray
                (fun _ => Timeout "RoleVerifier: timed out getting roles for a remote client ID")
                onlyCalls EXPONENTIAL_BACKOFF_SCHEDULE
                onlyCalls_refl onlyCalls_trans
                (onlyCalls_getRoles api (String a rest)) onlyCalls_wait
                (setGetRequestCache c s)) as (_ & Hget & _).
  destruct (pollUntil wait (callGetClientRoles api (String a rest)) isArray _ _ _)
    as [ended s1].
  simpl in Hget. intros Heq. inversion Heq as [[Hended Hs']].
  simpl. unfold complete. rewrite Hget, Hstarted. simpl.
  apply lookup_delete_eq.
Qed.
End RoleCacheFailure.

(** After a failed lookup the next one goes to the collaborator again. *)
Example failed_lookup_is_retried :
  let first := RoleVerifier.getClientRoles brokenRoleService "client-1"
                 (RoleVerifier.create 0) in
  let second := RoleVerifier.getClientRoles slowRoleService "client-1" first.2 in
  first.1 = Rejected (UpstreamFailure "500")
  /\ second.1 = Fulfilled (RoleVerifier.RoleArray ["Presenter"; "Attendee"])
  /\ RoleVerifier.history second.2
     = [ RoleVerifier.GetRolesCalled "client-1";
         RoleVerifier.GetRolesCalled "client-1"; RoleVerifier.Slept 100;
         RoleVerifier.GetRolesCalled "client-1" ].
Proof. vm_compute. repeat split; reflexivity. Qed.

(** ** The coordinator *)

Section CoordinatorFacts.
Import TeamsFluidClient.
Variable this : Client.

Lemma getOrCreateContainer_step fuel tries hook :
  getOrCreateContainer this (S fuel) tries hook
  = (containerInfo <- getFluidContainerId this ;;
     if shouldCreate containerInfo then
       createNewContainer this fuel tries hook
     else if present (containerId containerInfo) then
       opened <- getContainer this (default EmptyString (containerId containerInfo)) ;;
       resolve {| created := false;
                  container := handle_container opened;
                  services := handle_services opened |}
     else if (tries <? maxContainerLookupTries this)
             && (0 <? retryAfter containerInfo) then
       wait (retryAfter containerInfo) ;;;
       getOrCreateContainer this fuel (tries + 1) hook
     else
       reject timedOut).
Proof. reflexivity. Qed.

Lemma createNewContainer_step fuel tries hook :
  createNewContainer this (S fuel) tries hook
  = (fresh <- createContainer this ;;
     initialize hook (handle_container fresh) ;;;
     newContainerId <- attach this (handle_container fresh) ;;
     accepted <- setFluidContainerId this newContainerId ;;
     if negb accepted then
       dispose (handle_container fresh) ;;;
       getOrCreateContainer this fuel (tries + 1) hook
     else
       resolve {| container := handle_container fresh;
                  services := handle_services fresh;
                  created := true |}).
Proof. reflexivity. Qed.

Lemma lookups_app h1 h2 : lookups (h1 ++ h2) = (lookups h1 + lookups h2)%nat.
Proof. unfold lookups. by rewrite omap_app, length_app. Qed.

(** Against such a service the coordinator looks up once per allowed try
    and once more, then gives up with the timeout error. *)
Lemma retries_then_times_out delay hook (remaining : nat) :
  alwaysRetry this delay -> 0 < delay ->
  forall tries fuel h,
    maxContainerLookupTries this - tries = Z.of_nat remaining ->
    (remaining < fuel)%nat ->
    exists h',
      getOrCreateContainer this fuel tries hook h = (Rejected timedOut, h')
      /\ lookups h' = (lookups h + remaining + 1)%nat.
Proof.
  intros [Hlive Hretry] Hdelay.
  induction remaining as [|remaining IH]; intros tries fuel h Hleft Hfuel;
    (destruct fuel as [|fuel]; [lia|]);
    rewrite getOrCreateContainer_step; unfold await, getFluidContainerId;
    rewrite Hlive; simpl;
    destruct (Hretry h) as (info & -> & Hcreate & Hid & Hafter); simpl;
    rewrite Hcreate, Hid; simpl; rewrite Hafter.
  - assert (Hlt : (tries <? maxContainerLookupTries this) = false) by lia.
    rewrite Hlt. simpl. eexists. split; [reflexivity|].
    rewrite lookups_app.
    change (lookups [LookedUp (Returned info)]) with 1%nat. lia.
  - assert (Hlt : (tries <? maxContainerLookupTries this) = true) by lia.
    assert (Hpos : (0 <? delay) = true) by lia.
    rewrite Hlt, Hpos. simpl.
    destruct (IH (tries + 1) fuel ((h ++ [LookedUp (Returned info)]) ++ [Waited delay]))
      as (h' & Hrun & Hcount); [lia | lia |].
    exists h'. split; [exact Hrun|].
    rewrite Hcount, !lookups_app.
    change (lookups [LookedUp (Returned info)]) with 1%nat.
    change (lookups [Waited delay]) with 0%nat. lia.
Qed.
End CoordinatorFacts.

(** With a lookup service that always answers "retry later", a join makes
    [maxContainerLookupTries + 1] lookups before it times out: the guard
    [tries < maxContainerLookupTries] is evaluated after the lookup, and
    [tries] starts at 0. *)
Lemma join_lookups_when_always_retrying (this : TeamsFluidClient.Client)
    (delay : Z) (hook : option TeamsFluidClient.Hook) (fuel : nat) :
  TeamsFluidClient.alwaysRetry this delay -> 0 < delay ->
  0 <= TeamsFluidClient.maxContainerLookupTries this ->
  (Z.to_nat (TeamsFluidClient.maxContainerLookupTries this) < fuel)%nat ->
  exists h',
    TeamsFluidClient.join this fuel hook [] = (Rejected TeamsFluidClient.timedOut, h')
    /\ TeamsFluidClient.lookups h'
       = (Z.to_nat (TeamsFluidClient.maxContainerLookupTries this) + 1)%nat.
Proof.
  intros Hretry Hdelay Hmax Hfuel. unfold TeamsFluidClient.join.
  destruct (retries_then_times_out this delay hook
              (Z.to_nat (TeamsFluidClient.maxContainerLookupTries this))
              Hretry Hdelay 0 fuel []) as (h' & Hrun & Hcount); [lia | lia |].
  exists h'. split; [exact Hrun|]. rewrite Hcount. reflexivity.
Qed.

(** C1. With the default [maxContainerLookupTries = 3] and a lookup service
    that on every invocation reports [shouldCreate = false], no
    [containerId] and [retryAfter = 50], the join fails with the timeout
    error, but only after the lookup service was invoked four times, with
    three waits of 50 ms in between. *)
Theorem default_tries_make_four_lookups :
  let this := stubbornClient 3 in
  let run := TeamsFluidClient.join this 10 None [] in
  TeamsFluidClient.maxContainerLookupTries this = 3
  /\ run.1 = Rejected TeamsFluidClient.timedOut
  /\ run.2 = [ TeamsFluidClient.LookedUp (Returned retryLater);
               TeamsFluidClient.Waited 50;
               TeamsFluidClient.LookedUp (Returned retryLater);
               TeamsFluidClient.Waited 50;
               TeamsFluidClient.LookedUp (Returned retryLater);
               TeamsFluidClient.Waited 50;
               TeamsFluidClient.LookedUp (Returned retryLater) ]
  /\ TeamsFluidClient.lookups run.2 = 4%nat.
Proof. vm_compute. repeat split; reflexivity. Qed.

Lemma stubbornClient_always_retries (maxTries : Z) :
  TeamsFluidClient.alwaysRetry (stubbornClient maxTries) 50.
Proof.
  split; [reflexivity|]. intros h. exists retryLater. repeat split; reflexivity.
Qed.

(** Whatever the configured number of tries, one more lookup is made. *)
Example stubborn_join_lookups (maxTries : Z) (fuel : nat) :
  0 <= maxTries -> (Z.to_nat maxTries < fuel)%nat ->
  exists h',
    TeamsFluidClient.join (stubbornClient maxTries) fuel None []
    = (Rejected TeamsFluidClient.timedOut, h')
    /\ TeamsFluidClient.lookups h' = (Z.to_nat maxTries + 1)%nat.
Proof.
  intros Hmax Hfuel.
  apply (join_lookups_when_always_retrying (stubbornClient maxTries) 50 None fuel);
    [apply stubbornClient_always_retries | lia | exact Hmax | exact Hfuel].
Qed.

Section CoordinatorShape.
Import TeamsFluidClient.
Variable this : Client.

(** Each call of the coordinator appends to the history. *)
Lemma getFluidContainerId_appends h o h' :
  getFluidContainerId this h = (o, h') ->
  exists ev, h' = h ++ [ev] /\ forall rest, untilLookup (ev :: rest) = [].
Proof.
  unfold getFluidContainerId. destruct (isTesting this); simpl;
    intros Heq; inversion Heq; eexists; split; reflexivity.
Qed.

Lemma setFluidContainerId_appends newId h o h' :
  setFluidContainerId this newId h = (o, h') ->
  exists ev, h' = h ++ [ev]
    /\ hookRuns [ev] = []
    /\ (forall rest, untilLookup (ev :: rest) = ev :: untilLookup rest)
    /\ (o = Fulfilled true -> publishAccepted newId ev).
Proof.
  unfold setFluidContainerId, publishAccepted. destruct (isTesting this); simpl;
    intros Heq; inversion Heq; eexists; repeat split; try reflexivity; auto.
  destruct (api_setFluidContainerId this h newId) as [[|]|]; simpl;
    intros Hok; inversion Hok. by left.
Qed.

Lemma initialize_appends hook c h o h' :
  initialize hook c h = (o, h') ->
  match hook with
  | Some run => h' = h ++ [Initialized c (run h c)] /\ o = settle (run h c)
  | None => h' = h /\ o = Fulfilled tt
  end.
Proof.
  destruct hook as [run|]; simpl; intros Heq; inversion Heq; by split.
Qed.

(** Both methods only add to the history, and [getOrCreateContainer]
    begins with a lookup when it does anything. *)
Lemma coordinator_extends (fuel : nat) :
  (forall tries hook h, exists made,
      (getOrCreateContainer this fuel tries hook h).2 = h ++ made
      /\ untilLookup made = [])
  /\ (forall tries hook h, exists made,
        (createNewContainer this fuel tries hook h).2 = h ++ made).
Proof.
  induction fuel as [|fuel [IHget IHnew]].
  - split; intros tries hook h; exists []; simpl; by rewrite app_nil_r.
  - split; intros tries hook h.
    + rewrite getOrCreateContainer_step. unfold await.
      destruct (getFluidContainerId this h) as [[info|e|] h1] eqn:Hlook;
        apply getFluidContainerId_appends in Hlook as (ev & -> & Hev);
        try (exists [ev]; split; [reflexivity | apply Hev]).
      destruct (shouldCreate info).
      { destruct (IHnew tries hook (h ++ [ev])) as (made & ->).
        exists (ev :: made). rewrite <- app_assoc. split; [reflexivity | apply Hev]. }
      destruct (present (containerId info)).
      { unfold getContainer.
        destruct (client_getContainer this (h ++ [ev]) _); simpl;
          eexists (ev :: _); rewrite <- app_assoc; (split; [reflexivity | apply Hev]). }
      destruct ((tries <? maxContainerLookupTries this) && (0 <? retryAfter info)).
      { simpl.
        destruct (IHget (tries + 1) hook ((h ++ [ev]) ++ [Waited (retryAfter info)]))
          as (made & -> & _).
        eexists (ev :: _). rewrite <- !app_assoc. split; [reflexivity | apply Hev]. }
      simpl. exists [ev]. split; [reflexivity | apply Hev].
    + rewrite createNewContainer_step. unfold await, createContainer.
      destruct (client_createContainer this h) as [fresh|m]; simpl;
        [|by eexists].
      destruct (initialize hook (handle_container fresh) (h ++ [Created (Returned fresh)]))
        as [o h2] eqn:Hinit.
      assert (Hh2 : exists made2, h2 = h ++ made2).
      { apply initialize_appends in Hinit. destruct hook as [run|];
          destruct Hinit as [-> _]; eexists; [by rewrite <- app_assoc | done]. }
      destruct Hh2 as (made2 & ->).
      destruct o as [[]|e|]; [| by eexists | by eexists].
      unfold attach.
      destruct (container_attach this (h ++ made2) (handle_container fresh))
        as [newId|m]; simpl; [| eexists; by rewrite <- app_assoc].
      destruct (setFluidContainerId this newId _) as [o h4] eqn:Hset.
      apply setFluidContainerId_appends in Hset as (ev & -> & _).
      destruct o as [[|]|e|]; simpl; try (eexists; by rewrite <- !app_assoc).
      destruct (IHget (tries + 1) hook
                  ((((h ++ made2) ++ [AttachedToService (handle_container fresh) (Returned newId)])
                    ++ [ev]) ++ [Disposed (handle_container fresh)]))
        as (made & -> & _).
      eexists. by rewrite <- !app_assoc.
Qed.
End CoordinatorShape.

Section CoordinatorClaims.
Import TeamsFluidClient.
Variable this : Client.






(** C3. When the conditional publish of a creation attempt answers
    [false], the coordinator disposes the container it created and goes on
    as a fresh lookup round with one more try used: what the creation
    branch returns is what that round returns, so the lost race itself
    never reaches the caller. *)
Theorem lost_race_returns_to_lookup (fuel : nat) (tries : Z)
    (hook : option Hook) (h h2 h4 : list Event)
    (fresh : ContainerAndServices) (newId : string) :
  client_createContainer this h = Returned fresh ->
  initialize hook (handle_container fresh) (h ++ [Created (Returned fresh)])
    = (Fulfilled tt, h2) ->
  container_attach this h2 (handle_container fresh) = Returned newId ->
  setFluidContainerId this newId
    (h2 ++ [AttachedToService (handle_container fresh) (Returned newId)])
    = (Fulfilled false, h4) ->
  createNewContainer this (S fuel) tries hook h
  = getOrCreateContainer this fuel (tries + 1) hook
      (h4 ++ [Disposed (handle_container fresh)]).
Proof.
  intros Hcreate Hinit Hattach Hset.
  rewrite createNewContainer_step. unfold await, createContainer.
  rewrite Hcreate. simpl. rewrite Hinit. unfold attach. rewrite Hattach. simpl.
  rewrite Hset. reflexivity.
Qed.
End CoordinatorClaims.

Section HookClaim.
Import TeamsFluidClient.
Variable this : Client.

Lemma hookRuns_cons ev h : hookRuns (ev :: h) = hookRuns [ev] ++ hookRuns h.
Proof. unfold hookRuns. by destruct ev. Qed.

(** What follows the attach in one execution of the creation branch never
    runs the hook. *)
Lemma after_attach_no_hook fuel tries hook c r newId h :
  exists made,
    ((accepted <- setFluidContainerId this newId ;;
      if negb accepted then
        dispose c ;;; getOrCreateContainer this fuel (tries + 1) hook
      else
        resolve r) h).2 = h ++ made
    /\ hookRuns (untilLookup made) = [].
Proof.
  unfold await.
  destruct (setFluidContainerId this newId h) as [o h4] eqn:Hset.
  apply setFluidContainerId_appends in Hset as (ev & -> & Hruns & Huntil & _).
  destruct o as [[|]|e|]; simpl;
    try (exists [ev]; split; [reflexivity|];
         rewrite Huntil, hookRuns_cons, Hruns; reflexivity).
  destruct (proj1 (coordinator_extends this fuel) (tries + 1) hook
              ((h ++ [ev]) ++ [Disposed c])) as (made & -> & Hmade).
  exists (ev :: Disposed c :: made). rewrite <- !app_assoc. split; [reflexivity|].
  rewrite Huntil, hookRuns_cons, Hruns. simpl. rewrite Hmade. reflexivity.
Qed.

(** C9. In an execution of the creation branch that created a container,
    a hook that was given is run on that container right after the
    creation, it is run exactly once in that execution, and the container
    is attached to the service only after the hook returned (not at all
    when the hook failed). Without a hook nothing is run. *)
Theorem hook_runs_once_before_attach (fuel : nat) (tries : Z)
    (hook : option Hook) (h : list Event) (fresh : ContainerAndServices) :
  client_createContainer this h = Returned fresh ->
  exists made,
    (createNewContainer this (S fuel) tries hook h).2 = h ++ made
    /\ match hook with
       | Some run =>
           let reply := run (h ++ [Created (Returned fresh)]) (handle_container fresh) in
           exists tail,
             made = Created (Returned fresh)
                    :: Initialized (handle_container fresh) reply :: tail
             /\ hookRuns (untilLookup made) = [handle_container fresh]
             /\ (reply = Returned tt ->
                 exists attached tail',
                   tail = AttachedToService (handle_container fresh) attached :: tail')
             /\ (reply <> Returned tt -> tail = [])
       | None => hookRuns (untilLookup made) = []
       end.
Proof.
  intros Hcreate.
  rewrite createNewContainer_step. unfold await at 1. unfold createContainer.
  rewrite Hcreate. simpl. unfold await at 1.
  destruct hook as [run|]; simpl.
  - destruct (run (h ++ [Created (Returned fresh)]) (handle_container fresh))
      as [[]|m] eqn:Hrun; simpl.
    + unfold await at 1. unfold attach.
      set (h2 := (h ++ [Created (Returned fresh)]) ++ _).
      destruct (container_attach this h2 (handle_container fresh))
        as [newId|m] eqn:Hattach; simpl.
      * destruct (after_attach_no_hook fuel tries (Some run)
                    (handle_container fresh)
                    {| container := handle_container fresh;
                       services := handle_services fresh;
                       created := true |} newId
                    (h2 ++ [AttachedToService (handle_container fresh) (Returned newId)]))
          as (made & Hmade & Hnone).
        exists (Created (Returned fresh)
                :: Initialized (handle_container fresh) (Returned tt)
                :: AttachedToService (handle_container fresh) (Returned newId)
                :: made).
        split.
        { etransitivity; [exact Hmade|].
          subst h2. rewrite <- !app_assoc. reflexivity. }
        eexists. split; [reflexivity|]. split; [|split].
        -- simpl. unfold hookRuns in *. simpl. by rewrite Hnone.
        -- intros _. by eexists _, _.
        -- intros Hne. by destruct Hne.
      * eexists. subst h2. rewrite <- !app_assoc. split; [reflexivity|].
        eexists. split; [reflexivity|]. split; [reflexivity|]. split.
        -- intros _. by eexists _, _.
        -- intros Hne. by destruct Hne.
    + eexists. rewrite <- !app_assoc. split; [reflexivity|].
      eexists. split; [reflexivity|]. split; [reflexivity|]. split.
      * intros Heq. discriminate.
      * reflexivity.
  - unfold await at 1. unfold attach.
    set (h2 := h ++ [Created (Returned fresh)]).
    destruct (container_attach this h2 (handle_container fresh))
      as [newId|m] eqn:Hattach; simpl.
    + destruct (after_attach_no_hook fuel tries None
                  (handle_container fresh)
                  {| container := handle_container fresh;
                     services := handle_services fresh;
                     created := true |} newId
                  (h2 ++ [AttachedToService (handle_container fresh) (Returned newId)]))
        as (made & Hmade & Hnone).
      exists (Created (Returned fresh)
              :: AttachedToService (handle_container fresh) (Returned newId)
              :: made).
      split.
      { etransitivity; [exact Hmade|].
        subst h2. rewrite <- !app_assoc. reflexivity. }
      simpl. exact Hnone.
    + eexists. subst h2. rewrite <- !app_assoc. split; reflexivity.
Qed.
End HookClaim.

(** The loser of a race: it creates and initializes container 1, attaches
    it, is turned down, disposes it, looks up again and opens the winner's
    container. *)
Example loser_attaches_to_the_winner :
  TeamsFluidClient.join (racingClient false) 5 (Some quietHook) []
  = (Fulfilled (TeamsFluidClient.mkJoin 2%nat 20%nat false),
     [ TeamsFluidClient.LookedUp
         (Returned (TeamsFluidClient.mkInfo TeamsFluidClient.notFound None true 0));
       TeamsFluidClient.Created (Returned (TeamsFluidClient.mkHandles 1%nat 10%nat));
       TeamsFluidClient.Initialized 1%nat (Returned tt);
       TeamsFluidClient.AttachedToService 1%nat (Returned "mine");
       TeamsFluidClient.Published "mine" (Returned false);
       TeamsFluidClient.Disposed 1%nat;
       TeamsFluidClient.LookedUp
         (Returned (TeamsFluidClient.mkInfo TeamsFluidClient.alreadyExists
                      (Some "winner") false 0));
       TeamsFluidClient.Opened "winner" (Returned (TeamsFluidClient.mkHandles 2%nat 20%nat)) ]).
Proof. vm_compute. reflexivity. Qed.

Example winner_keeps_its_container :
  (TeamsFluidClient.join (racingClient true) 5 (Some quietHook) []).1
  = Fulfilled (TeamsFluidClient.mkJoin 1%nat 10%nat true).
Proof. vm_compute. reflexivity. Qed.


Lemma lost_race_returns_to_lookup_witness :
  TeamsFluidClient.createNewContainer (racingClient false) 4 0 (Some quietHook)
    [TeamsFluidClient.LookedUp
       (Returned (TeamsFluidClient.mkInfo TeamsFluidClient.notFound None true 0))]
  = TeamsFluidClient.getOrCreateContainer (racingClient false) 3 (0 + 1) (Some quietHook)
      ([ TeamsFluidClient.LookedUp
           (Returned (TeamsFluidClient.mkInfo TeamsFluidClient.notFound None true 0));
         TeamsFluidClient.Created (Returned (TeamsFluidClient.mkHandles 1%nat 10%nat));
         TeamsFluidClient.Initialized 1%nat (Returned tt);
         TeamsFluidClient.AttachedToService 1%nat (Returned "mine");
         TeamsFluidClient.Published "mine" (Returned false) ]
       ++ [TeamsFluidClient.Disposed 1%nat]).
Proof.
  apply (lost_race_returns_to_lookup (racingClient false) 3 0 (Some quietHook)
           [ TeamsFluidClient.LookedUp
               (Returned (TeamsFluidClient.mkInfo TeamsFluidClient.notFound None true 0)) ]
           [ TeamsFluidClient.LookedUp
               (Returned (TeamsFluidClient.mkInfo TeamsFluidClient.notFound None true 0));
             TeamsFluidClient.Created (Returned (TeamsFluidClient.mkHandles 1%nat 10%nat));
             TeamsFluidClient.Initialized 1%nat (Returned tt) ]
           [ TeamsFluidClient.LookedUp
               (Returned (TeamsFluidClient.mkInfo TeamsFluidClient.notFound None true 0));
             TeamsFluidClient.Created (Returned (TeamsFluidClient.mkHandles 1%nat 10%nat));
             TeamsFluidClient.Initialized 1%nat (Returned tt);
             TeamsFluidClient.AttachedToService 1%nat (Returned "mine");
             TeamsFluidClient.Published "mine" (Returned false) ]
           (TeamsFluidClient.mkHandles 1%nat 10%nat) "mine"); reflexivity.
Defined.

Lemma hook_runs_once_before_attach_witness :
  let h := [TeamsFluidClient.LookedUp
              (Returned (TeamsFluidClient.mkInfo TeamsFluidClient.notFound None true 0))] in
  exists made,
    (TeamsFluidClient.createNewContainer (racingClient false) 4 0 (Some quietHook) h).2
    = h ++ made
    /\ exists tail,
         made = TeamsFluidClient.Created (Returned (TeamsFluidClient.mkHandles 1%nat 10%nat))
                :: TeamsFluidClient.Initialized 1%nat (Returned tt) :: tail
         /\ TeamsFluidClient.hookRuns (TeamsFluidClient.untilLookup made) = [1%nat]
         /\ (Returned tt = Returned tt ->
             exists attached tail',
               tail = TeamsFluidClient.AttachedToService 1%nat attached :: tail')
         /\ (Returned tt <> Returned tt -> tail = []).
Proof.
  intros h.
  apply (hook_runs_once_before_attach (racingClient false) 3 0 (Some quietHook) h
           (TeamsFluidClient.mkHandles 1%nat 10%nat)).
  reflexivity.
Defined.

(** ** The invariant behind the role check

    [verifyRolesAllowed_decides_by_membership] asks that the cache of role
    lookups holds arrays only. This holds for a new verifier and is kept by
    every method. *)
Section ReachableStates.
Import RoleVerifier.
Variable api : TeamsLiveAPI.

Lemma verifyRolesAllowed_keeps_arrays clientId allowedRoles s :
  holdsArrays (getRequestCache s) ->
  holdsArrays (getRequestCache (verifyRolesAllowed api clientId allowedRoles s).2).
Proof.
  intros Hinv. unfold verifyRolesAllowed.
  destruct (missing clientId); [exact Hinv|].
  destruct allowedRoles as [[|role more]|]; try exact Hinv.
  unfold await.
  pose proof (getClientRoles_keeps_arrays api clientId s Hinv) as Hkept.
  destruct (getClientRoles api clientId s) as [[[|held]|e|] s']; exact Hkept.
Qed.

Lemma registerClientId_leaves_role_cache clientId s :
  getRequestCache (registerClientId api clientId s).2 = getRequestCache s.
Proof.
  unfold registerClientId, cacheRequest.
  destruct (arrive (clock s) clientId verifier (registerRequestCache s)) as [met c].
  destruct met as [v| |]; try reflexivity.
  destruct (registerPoll_only_calls api clientId (setRegisterRequestCache c s))
    as ((_ & Hget & _) & _).
  destruct (pollUntil wait (callRegisterClientId api clientId) isArray _ _ _)
    as [ended s1].
  exact Hget.
Qed.
End ReachableStates.

(** * Further properties *)

(** ** The coordinator: waits, disposals, termination *)

Section JoinTraceFacts.
Import TeamsFluidClient JoinTrace.
Variable this : Client.

Lemma count_app p h1 h2 : count p (h1 ++ h2) = (count p h1 + count p h2)%nat.
Proof. unfold count. by rewrite List.filter_app, length_app. Qed.

(** From [tries] on, at most [maxContainerLookupTries - tries] waits are
    made, in either method. *)
Lemma waits_bounded_from (fuel : nat) :
  (forall tries hook h,
      (count isWait (getOrCreateContainer this fuel tries hook h).2
       <= count isWait h + Z.to_nat (maxContainerLookupTries this - tries))%nat)
  /\ (forall tries hook h,
        (count isWait (createNewContainer this fuel tries hook h).2
         <= count isWait h + Z.to_nat (maxContainerLookupTries this - tries))%nat).
Proof.
  induction fuel as [|fuel [IHget IHnew]].
  - split; intros tries hook h; simpl; lia.
  - split; intros tries hook h.
    + rewrite getOrCreateContainer_step. unfold await.
      destruct (getFluidContainerId this h) as [o h1] eqn:Hlook.
      assert (Hh1 : count isWait h1 = count isWait h).
      { unfold getFluidContainerId in Hlook.
        destruct (isTesting this); simpl in Hlook; inversion Hlook;
          rewrite count_app; simpl; lia. }
      destruct o as [info|e|]; simpl; try lia.
      destruct (shouldCreate info); [specialize (IHnew tries hook h1); lia|].
      destruct (present (containerId info)).
      { unfold getContainer.
        destruct (client_getContainer this h1 _); simpl;
          rewrite count_app; simpl; lia. }
      destruct (tries <? maxContainerLookupTries this) eqn:Hlt; simpl; [|lia].
      destruct (0 <? retryAfter info); simpl; [|lia].
      specialize (IHget (tries + 1) hook (h1 ++ [Waited (retryAfter info)])).
      rewrite count_app in IHget. simpl in IHget. lia.
    + rewrite createNewContainer_step. unfold await, createContainer.
      destruct (client_createContainer this h) as [fresh|m]; simpl;
        [|rewrite count_app; simpl; lia].
      destruct (initialize hook (handle_container fresh) (h ++ [Created (Returned fresh)]))
        as [o h2] eqn:Hinit.
      assert (Hh2 : count isWait h2 = count isWait h).
      { apply initialize_appends in Hinit. destruct hook as [run|];
          destruct Hinit as [-> _]; rewrite ?count_app; simpl; lia. }
      destruct o as [[]|e|]; simpl; try lia.
      unfold attach.
      destruct (container_attach this h2 (handle_container fresh)) as [newId|m];
        simpl; [|rewrite count_app; simpl; lia].
      destruct (setFluidContainerId this newId _) as [o h4] eqn:Hset.
      assert (Hh4 : count isWait h4 = count isWait h).
      { unfold setFluidContainerId in Hset.
        destruct (isTesting this); simpl in Hset; inversion Hset;
          rewrite !count_app; simpl; lia. }
      destruct o as [[|]|e|]; simpl; try lia.
      specialize (IHget (tries + 1) hook (h4 ++ [Disposed (handle_container fresh)])).
      rewrite count_app in IHget. simpl in IHget. lia.
Qed.

(** X1. However the collaborators answer and however many races are lost,
    a join waits at most [maxContainerLookupTries] times. *)
Theorem join_waits_at_most_max_tries (fuel : nat) (hook : option Hook) :
  (count isWait (join this fuel hook []).2
   <= Z.to_nat (maxContainerLookupTries this))%nat.
Proof.
  unfold join.
  pose proof (proj1 (waits_bounded_from fuel) 0 hook []) as Hbound.
  change (count isWait []) with 0%nat in Hbound.
  replace (maxContainerLookupTries this - 0) with (maxContainerLookupTries this)
    in Hbound by lia.
  lia.
Qed.

Lemma disposals_match_refusals_from (fuel : nat) :
  (forall tries hook h,
      let h' := (getOrCreateContainer this fuel tries hook h).2 in
      (count isDisposal h' + count isRefusal h
       = count isRefusal h' + count isDisposal h)%nat)
  /\ (forall tries hook h,
        let h' := (createNewContainer this fuel tries hook h).2 in
        (count isDisposal h' + count isRefusal h
         = count isRefusal h' + count isDisposal h)%nat).
Proof.
  induction fuel as [|fuel [IHget IHnew]].
  - split; intros tries hook h; simpl; lia.
  - split; intros tries hook h; cbv zeta.
    + rewrite getOrCreateContainer_step. unfold await.
      destruct (getFluidContainerId this h) as [o h1] eqn:Hlook.
      assert (Hh1 : count isDisposal h1 = count isDisposal h
                    /\ count isRefusal h1 = count isRefusal h).
      { unfold getFluidContainerId in Hlook.
        destruct (isTesting this); simpl in Hlook; inversion Hlook;
          rewrite !count_app; simpl; lia. }
      destruct o as [info|e|]; simpl; try lia.
      destruct (shouldCreate info); [specialize (IHnew tries hook h1); simpl in IHnew; lia|].
      destruct (present (containerId info)).
      { unfold getContainer.
        destruct (client_getContainer this h1 _); simpl;
          rewrite !count_app; simpl; lia. }
      destruct ((tries <? maxContainerLookupTries this) && (0 <? retryAfter info));
        simpl; [|lia].
      specialize (IHget (tries + 1) hook (h1 ++ [Waited (retryAfter info)])).
      simpl in IHget. rewrite !count_app in IHget. simpl in IHget. lia.
    + rewrite createNewContainer_step. unfold await, createContainer.
      destruct (client_createContainer this h) as [fresh|m]; simpl;
        [|rewrite !count_app; simpl; lia].
      destruct (initialize hook (handle_container fresh) (h ++ [Created (Returned fresh)]))
        as [o h2] eqn:Hinit.
      assert (Hh2 : count isDisposal h2 = count isDisposal h
                    /\ count isRefusal h2 = count isRefusal h).
      { apply initialize_appends in Hinit. destruct hook as [run|];
          destruct Hinit as [-> _]; rewrite ?count_app; simpl; lia. }
      destruct o as [[]|e|]; simpl; try lia.
      unfold attach.
      destruct (container_attach this h2 (handle_container fresh)) as [newId|m];
        simpl; [|rewrite !count_app; simpl; lia].
      unfold setFluidContainerId.
      destruct (isTesting this); simpl.
      * rewrite !count_app; simpl; lia.
      * set (h3 := h2 ++ [AttachedToService (handle_container fresh) (Returned newId)]).
        assert (Hh3 : count isDisposal h3 = count isDisposal h
                      /\ count isRefusal h3 = count isRefusal h)
          by (subst h3; rewrite !count_app; simpl; lia).
        destruct (api_setFluidContainerId this h3 newId) as [[|]|m]; simpl;
          rewrite ?count_app; simpl; try lia.
        specialize (IHget (tries + 1) hook
                      ((h3 ++ [Published newId (Returned false)])
                       ++ [Disposed (handle_container fresh)])).
        simpl in IHget. rewrite !count_app in IHget. simpl in IHget.
        rewrite ?count_app in IHget. simpl in IHget. lia.
Qed.

(** X2. In every join, whatever its outcome, a container is disposed
    exactly as often as a publish was turned down: each lost race disposes
    one container, and nothing else is ever disposed (in particular not
    when the publish call itself fails). *)
Theorem disposals_match_refusals (fuel : nat) (hook : option Hook) :
  count isDisposal (join this fuel hook []).2
  = count isRefusal (join this fuel hook []).2.
Proof.
  unfold join.
  pose proof (proj1 (disposals_match_refusals_from fuel) 0 hook []) as Hrun.
  simpl in Hrun. lia.
Qed.

Lemma getOrCreateContainer_lookup_failed fuel tries hook h m :
  isTesting this = false ->
  api_getFluidContainerId this h = Failed m ->
  getOrCreateContainer this (S fuel) tries hook h
  = (Rejected (UpstreamFailure m), h ++ [LookedUp (Failed m)]).
Proof.
  intros Hlive Hreply. rewrite getOrCreateContainer_step.
  unfold await, getFluidContainerId. rewrite Hlive. simpl. by rewrite Hreply.
Qed.

(** When no lookup ever says "create", a lookup round either ends the join
    or uses up a try. *)
Lemma round_without_creation fuel tries hook h :
  neverAsksToCreate this ->
  (exists o reply tail,
      getOrCreateContainer this (S fuel) tries hook h
      = (o, (h ++ [LookedUp reply]) ++ tail)
      /\ o <> Unsettled /\ lookups tail = 0%nat /\ count isCreation tail = 0%nat)
  \/ (tries < maxContainerLookupTries this
      /\ exists info,
           getOrCreateContainer this (S fuel) tries hook h
           = getOrCreateContainer this fuel (tries + 1) hook
               ((h ++ [LookedUp (Returned info)]) ++ [Waited (retryAfter info)])).
Proof.
  intros [Hlive Hnever].
  rewrite getOrCreateContainer_step. unfold await, getFluidContainerId.
  rewrite Hlive. simpl. pose proof (Hnever h) as Hno.
  destruct (api_getFluidContainerId this h) as [info|m]; simpl.
  2:{ left. exists (Rejected (UpstreamFailure m)), (Failed m), [].
      rewrite app_nil_r. repeat split. discriminate. }
  rewrite (Hno info eq_refl).
  destruct (present (containerId info)).
  { left. unfold getContainer.
    destruct (client_getContainer this _ _) as [opened|m]; simpl;
      eexists _, (Returned info), [Opened _ _];
      (split; [reflexivity|]); repeat split; discriminate. }
  destruct (tries <? maxContainerLookupTries this) eqn:Hlt; simpl.
  - destruct (0 <? retryAfter info); simpl.
    + right. split; [lia|]. by exists info.
    + left. exists (Rejected timedOut), (Returned info), [].
      rewrite app_nil_r. repeat split. discriminate.
  - left. exists (Rejected timedOut), (Returned info), [].
    rewrite app_nil_r. repeat split. discriminate.
Qed.

Lemma no_creation_settles hook (remaining : nat) :
  neverAsksToCreate this ->
  forall tries fuel h,
    maxContainerLookupTries this - tries <= Z.of_nat remaining ->
    (remaining < fuel)%nat ->
    let run := getOrCreateContainer this fuel tries hook h in
    run.1 <> Unsettled
    /\ (lookups run.2 <= lookups h + remaining + 1)%nat
    /\ count isCreation run.2 = count isCreation h.
Proof.
  intros Hnever.
  induction remaining as [|remaining IH]; intros tries fuel h Hleft Hfuel;
    (destruct fuel as [|fuel]; [lia|]); cbv zeta;
    destruct (round_without_creation fuel tries hook h Hnever)
      as [(o & reply & tail & -> & Ho & Hl & Hc)|(Hlt & info & ->)];
    try lia;
    try (cbn [fst snd]; rewrite !lookups_app, !count_app, Hl, Hc;
         change (lookups [LookedUp reply]) with 1%nat; simpl;
         repeat split; [exact Ho | lia | lia]).
  destruct (IH (tries + 1) fuel
              ((h ++ [LookedUp (Returned info)]) ++ [Waited (retryAfter info)]))
    as (Hset & Hlook & Hcre); [lia | lia |].
  rewrite !lookups_app, !count_app in *. simpl in *.
  change (lookups [LookedUp (Returned info)]) with 1%nat in *.
  change (lookups [Waited (retryAfter info)]) with 0%nat in *.
  repeat split; [exact Hset | lia | lia].
Qed.

(** X5. Against a mapping service that never says "create", a join always
    comes to an end: it makes at most [maxContainerLookupTries + 1] lookups,
    creates no container, and is settled (opened, timed out, or failed with
    the failure of a collaborator). *)
Theorem join_without_creation_settles (fuel : nat) (hook : option Hook) :
  neverAsksToCreate this ->
  (Z.to_nat (maxContainerLookupTries this) < fuel)%nat ->
  let run := join this fuel hook [] in
  run.1 <> Unsettled
  /\ (lookups run.2 <= Z.to_nat (maxContainerLookupTries this) + 1)%nat
  /\ count isCreation run.2 = 0%nat.
Proof.
  intros Hnever Hfuel.
  apply (no_creation_settles hook (Z.to_nat (maxContainerLookupTries this))
           Hnever 0 fuel []); lia.
Qed.

(** X4. The try limit does not reach the creation branch. Against a mapping
    service that tells the client to create and then turns every publish
    down, the join is still unsettled after any number of method calls, and
    by then it has created, attached and disposed a container for every
    second call, far beyond [maxContainerLookupTries]. *)
Theorem lost_races_are_not_bounded (hook : option Hook) (fuel : nat) :
  alwaysLoses this -> quiet hook ->
  (join this fuel hook []).1 = Unsettled
  /\ count isDisposal (join this fuel hook []).2 = Nat.div2 fuel
  /\ lookups (join this fuel hook []).2 = Nat.div2 (S fuel).
Proof.
  intros (Hlive & Hlook & Hcreate & Hattach & Hset) Hquiet. unfold join.
  generalize 0 as tries.
  assert (Hboth :
      (forall tries h,
          (getOrCreateContainer this fuel tries hook h).1 = Unsettled
          /\ count isDisposal (getOrCreateContainer this fuel tries hook h).2
             = (count isDisposal h + Nat.div2 fuel)%nat
          /\ lookups (getOrCreateContainer this fuel tries hook h).2
             = (lookups h + Nat.div2 (S fuel))%nat)
      /\ (forall tries h,
            (createNewContainer this fuel tries hook h).1 = Unsettled
            /\ count isDisposal (createNewContainer this fuel tries hook h).2
               = (count isDisposal h + Nat.div2 (S fuel))%nat
            /\ lookups (createNewContainer this fuel tries hook h).2
               = (lookups h + Nat.div2 fuel)%nat)).
  { induction fuel as [|fuel [IHget IHnew]].
    - split; intros tries h; simpl; repeat split; lia.
    - split; intros tries h.
      + rewrite getOrCreateContainer_step. unfold await, getFluidContainerId.
        rewrite Hlive. simpl.
        destruct (Hlook h) as (info & -> & Hcre). simpl. rewrite Hcre.
        destruct (IHnew tries (h ++ [LookedUp (Returned info)])) as (Ho & Hd & Hl).
        rewrite Ho, Hd, Hl, count_app, lookups_app. simpl.
        change (lookups [LookedUp (Returned info)]) with 1%nat.
        repeat split; try lia; destruct fuel; simpl; lia.
      + rewrite createNewContainer_step. unfold await, createContainer.
        destruct (Hcreate h) as (fresh & ->). simpl.
        set (h1 := h ++ [Created (Returned fresh)]).
        assert (Hinit : exists h2,
                   initialize hook (handle_container fresh) h1 = (Fulfilled tt, h2)
                   /\ count isDisposal h2 = count isDisposal h
                   /\ lookups h2 = lookups h).
        { subst h1. destruct hook as [run|]; simpl.
          - rewrite (Hquiet _ _). simpl. eexists. split; [reflexivity|].
            rewrite !count_app, !lookups_app. simpl. split; [lia|].
            change (lookups [Created (Returned fresh)]) with 0%nat.
            match goal with
            | |- context [lookups [Initialized ?c ?r]] =>
                change (lookups [Initialized c r]) with 0%nat
            end. lia.
          - eexists. split; [reflexivity|].
            rewrite !count_app, !lookups_app. simpl. split; [lia|].
            change (lookups [Created (Returned fresh)]) with 0%nat. lia. }
        destruct Hinit as (h2 & -> & Hd2 & Hl2).
        unfold attach.
        destruct (Hattach h2 (handle_container fresh)) as (newId & ->). simpl.
        unfold setFluidContainerId. rewrite Hlive. simpl. rewrite Hset. simpl.
        match goal with
        | |- context [getOrCreateContainer this fuel ?t hook ?hh] =>
            destruct (IHget t hh) as (Ho & Hd & Hl)
        end.
        rewrite Ho, Hd, Hl, !count_app, !lookups_app. simpl.
        match goal with
        | |- context [lookups [AttachedToService ?c ?r]] =>
            change (lookups [AttachedToService c r]) with 0%nat
        end.
        change (lookups [Published newId (Returned false)]) with 0%nat.
        change (lookups [Disposed (handle_container fresh)]) with 0%nat.
        repeat split; try lia; destruct fuel; simpl; lia. }
  intros tries. destruct (proj1 Hboth tries []) as (Ho & Hd & Hl).
  rewrite Ho, Hd, Hl. repeat split; reflexivity.
Qed.

Lemma getFluidContainerId_local h :
  isTesting this = true ->
  getFluidContainerId this h
  = (Fulfilled
       {| containerState :=
            if present (getLocalTestContainerId this h) then alreadyExists else notFound;
          shouldCreate := negb (present (getLocalTestContainerId this h));
          containerId := getLocalTestContainerId this h;
          retryAfter := 0 |},
     h ++ [ReadLocalTestContainerId (getLocalTestContainerId this h)]).
Proof. intros Htest. unfold getFluidContainerId. by rewrite Htest. Qed.

Lemma setFluidContainerId_local newId h :
  isTesting this = true ->
  setFluidContainerId this newId h
  = (Fulfilled true, h ++ [WroteLocalTestContainerId newId]).
Proof. intros Htest. unfold setFluidContainerId. by rewrite Htest. Qed.

(** X3. In local test mode a join never retries: it reads the local
    mapping once, makes no call to the remote mapping, never waits and
    never times out, and two method calls are enough for it to end. When it
    succeeds, it has created the container exactly when the local mapping
    named none (absent or empty). *)
Theorem local_test_join_is_one_round (fuel : nat) (hook : option Hook) :
  isTesting this = true ->
  let localId := getLocalTestContainerId this [] in
  let run := join this (S (S fuel)) hook [] in
  run.1 <> Unsettled
  /\ run.1 <> Rejected timedOut
  /\ count isLocalRead run.2 = 1%nat
  /\ count isWait run.2 = 0%nat
  /\ count isRemoteMapping run.2 = 0%nat
  /\ (forall r, run.1 = Fulfilled r -> created r = negb (present localId)).
Proof.
  intros Htest localId run. subst run.
  destruct (join this (S (S fuel)) hook []) as [o h'] eqn:Hrun. cbn [fst snd].
  unfold join in Hrun. rewrite getOrCreateContainer_step in Hrun.
  unfold await at 1 in Hrun.
  rewrite (getFluidContainerId_local [] Htest) in Hrun.
  cbv beta iota in Hrun. cbn [shouldCreate containerId app] in Hrun.
  fold localId in Hrun.
  destruct (present localId) eqn:Hpresent; cbn [negb] in *.
  - unfold await, getContainer in Hrun.
    destruct (client_getContainer this _ _) as [opened|m]; simpl in Hrun;
      inversion Hrun; subst; simpl; repeat split; try discriminate.
    intros r Heq. by inversion Heq.
  - rewrite createNewContainer_step in Hrun. unfold await at 1 in Hrun.
    unfold createContainer in Hrun.
    destruct (client_createContainer this _) as [fresh|m];
      [|simpl in Hrun; inversion Hrun; subst; simpl; repeat split; discriminate].
    cbn [settle] in Hrun. unfold await at 1 in Hrun.
    destruct (initialize hook (handle_container fresh) _) as [o2 h2] eqn:Hinit.
    apply initialize_appends in Hinit.
    assert (Hh2 : count isLocalRead h2 = 1%nat /\ count isWait h2 = 0%nat
                  /\ count isRemoteMapping h2 = 0%nat
                  /\ o2 <> Unsettled /\ o2 <> Rejected timedOut).
    { destruct hook as [run|]; destruct Hinit as [-> ->]; simpl;
        repeat split; try discriminate;
        destruct (run _ _); discriminate. }
    destruct Hh2 as (Hr & Hw & Hm & Hne1 & Hne2).
    destruct o2 as [[]|e|];
      [| inversion Hrun; subst; repeat split; try done; try exact Hne2
       | exfalso; by apply Hne1].
    2:{ intros Heq. apply Hne2. by inversion Heq. }
    unfold await at 1 in Hrun. unfold attach in Hrun.
    destruct (container_attach this h2 (handle_container fresh)) as [newId|m];
      cbn [settle] in Hrun.
    + unfold await in Hrun. rewrite (setFluidContainerId_local _ _ Htest) in Hrun.
      cbn [negb] in Hrun. inversion Hrun; subst.
      rewrite !count_app, Hr, Hw, Hm. simpl.
      repeat split; try discriminate.
      intros r Heq. by inversion Heq.
    + inversion Hrun; subst. rewrite !count_app, Hr, Hw, Hm. simpl.
      repeat split; discriminate.
Qed.

(** A join that ends by opening a container opens the one the lookup just
    before it reported. *)
Lemma opened_after_lookup (fuel : nat) :
  (forall tries hook h r h',
      getOrCreateContainer this fuel tries hook h = (Fulfilled r, h') ->
      created r = false ->
      exists before ev existingId opened,
        h' = before ++ [ev; Opened existingId (Returned opened)]
        /\ reportedId ev = Some existingId
        /\ existingId <> EmptyString
        /\ container r = handle_container opened
        /\ services r = handle_services opened)
  /\ (forall tries hook h r h',
        createNewContainer this fuel tries hook h = (Fulfilled r, h') ->
        created r = false ->
        exists before ev existingId opened,
          h' = before ++ [ev; Opened existingId (Returned opened)]
          /\ reportedId ev = Some existingId
          /\ existingId <> EmptyString
          /\ container r = handle_container opened
          /\ services r = handle_services opened).
Proof.
  induction fuel as [|fuel [IHget IHnew]].
  - split; intros tries hook h r h' Hrun; discriminate.
  - split; intros tries hook h r h'.
    + rewrite getOrCreateContainer_step. unfold await.
      destruct (getFluidContainerId this h) as [[info|e|] h1] eqn:Hlook;
        try discriminate.
      destruct (shouldCreate info) eqn:Hcreate; [apply IHnew|].
      destruct (present (containerId info)) eqn:Hpresent.
      { unfold getContainer.
        destruct (client_getContainer this h1 _) as [opened|m]; simpl;
          [|discriminate].
        intros Heq _. inversion Heq; subst. clear Heq.
        destruct (containerId info) as [[|a rest]|] eqn:Hid; try discriminate.
        assert (Hev : exists ev, h1 = h ++ [ev] /\ reportedId ev = Some (String a rest)).
        { unfold getFluidContainerId in Hlook.
          destruct (isTesting this); simpl in Hlook.
          - inversion Hlook; subst. simpl in Hid. eexists. split; [reflexivity|].
            exact Hid.
          - destruct (api_getFluidContainerId this h) as [info'|m] eqn:Hreply;
              simpl in Hlook; inversion Hlook; subst.
            eexists. split; [reflexivity|]. exact Hid. }
        destruct Hev as (ev & -> & Hev).
        exists h, ev, (String a rest), opened. simpl.
        rewrite <- app_assoc. repeat split; auto. }
      destruct ((tries <? maxContainerLookupTries this) && (0 <? retryAfter info));
        [|discriminate].
      simpl. apply IHget.
    + rewrite createNewContainer_step. unfold await, createContainer.
      destruct (client_createContainer this h) as [fresh|m]; simpl;
        [|discriminate].
      destruct (initialize hook (handle_container fresh) _) as [[[]|e|] h2];
        try discriminate.
      unfold attach.
      destruct (container_attach this h2 (handle_container fresh)) as [newId|m];
        simpl; [|discriminate].
      destruct (setFluidContainerId this newId _) as [[[|]|e|] h4];
        simpl; try discriminate; [|apply IHget].
      intros Heq Hc. inversion Heq; subst. discriminate.
Qed.

(** X6. A join that reports [created = false] has opened exactly the
    container ID that the lookup immediately before reported (remote or
    local), a non-empty one, and returns the handles that call gave. *)
Theorem attached_container_is_the_one_looked_up (fuel : nat) (hook : option Hook)
    (r : JoinResult) (h' : list Event) :
  join this fuel hook [] = (Fulfilled r, h') ->
  created r = false ->
  exists before ev existingId opened,
    h' = before ++ [ev; Opened existingId (Returned opened)]
    /\ reportedId ev = Some existingId
    /\ existingId <> EmptyString
    /\ container r = handle_container opened
    /\ services r = handle_services opened.
Proof. unfold join. apply (proj1 (opened_after_lookup fuel)). Qed.
End JoinTraceFacts.

Lemma local_test_join_is_one_round_witness :
  let this := localClient None in
  let run := TeamsFluidClient.join this 2 (Some quietHook) [] in
  run.1 <> Unsettled
  /\ run.1 <> Rejected TeamsFluidClient.timedOut
  /\ JoinTrace.count JoinTrace.isLocalRead run.2 = 1%nat
  /\ JoinTrace.count JoinTrace.isWait run.2 = 0%nat
  /\ JoinTrace.count JoinTrace.isRemoteMapping run.2 = 0%nat
  /\ (forall r, run.1 = Fulfilled r ->
        TeamsFluidClient.created r
        = negb (TeamsFluidClient.present
                  (TeamsFluidClient.getLocalTestContainerId this []))).
Proof.
  apply (local_test_join_is_one_round (localClient None) 0 (Some quietHook)).
  reflexivity.
Defined.

(** A local test client with a stored ID opens it; one without creates. *)
Example local_test_join_runs :
  TeamsFluidClient.join (localClient (Some "abc")) 2 None []
  = (Fulfilled (TeamsFluidClient.mkJoin 2%nat 20%nat false),
     [ TeamsFluidClient.ReadLocalTestContainerId (Some "abc");
       TeamsFluidClient.Opened "abc" (Returned (TeamsFluidClient.mkHandles 2%nat 20%nat)) ])
  /\ TeamsFluidClient.join (localClient (Some "")) 2 None []
     = (Fulfilled (TeamsFluidClient.mkJoin 1%nat 10%nat true),
        [ TeamsFluidClient.ReadLocalTestContainerId (Some "");
          TeamsFluidClient.Created (Returned (TeamsFluidClient.mkHandles 1%nat 10%nat));
          TeamsFluidClient.AttachedToService 1%nat (Returned "mine");
          TeamsFluidClient.WroteLocalTestContainerId "mine" ]).
Proof. split; vm_compute; reflexivity. Qed.

Lemma unluckyClient_always_loses : JoinTrace.alwaysLoses unluckyClient.
Proof.
  repeat split; intros; try (eexists; split); try eexists; reflexivity.
Qed.

Lemma lost_races_are_not_bounded_witness :
  (TeamsFluidClient.join unluckyClient 9 (Some quietHook) []).1 = Unsettled
  /\ JoinTrace.count JoinTrace.isDisposal
       (TeamsFluidClient.join unluckyClient 9 (Some quietHook) []).2 = 4%nat
  /\ TeamsFluidClient.lookups
       (TeamsFluidClient.join unluckyClient 9 (Some quietHook) []).2 = 5%nat.
Proof.
  apply (lost_races_are_not_bounded unluckyClient (Some quietHook) 9).
  - repeat split; intros; try (eexists; split); try eexists; reflexivity.
  - intros h c. reflexivity.
Defined.

Lemma join_without_creation_settles_witness :
  let run := TeamsFluidClient.join lateClient 5 None [] in
  run.1 <> Unsettled
  /\ (TeamsFluidClient.lookups run.2 <= 3 + 1)%nat
  /\ JoinTrace.count JoinTrace.isCreation run.2 = 0%nat.
Proof.
  apply (join_without_creation_settles lateClient 5 None).
  - split; [reflexivity|]. intros h info. simpl.
    destruct (length h <? 2)%nat; intros Heq; inversion Heq; reflexivity.
  - vm_compute. lia.
Defined.

(** The late client waits once and opens the shared container on its
    second lookup. *)
Example late_join_run :
  let run := TeamsFluidClient.join lateClient 5 None [] in
  run.1 = Fulfilled (TeamsFluidClient.mkJoin 2%nat 20%nat false)
  /\ TeamsFluidClient.lookups run.2 = 2%nat
  /\ JoinTrace.count JoinTrace.isWait run.2 = 1%nat.
Proof. vm_compute. repeat split; reflexivity. Qed.

Lemma attached_container_is_the_one_looked_up_witness :
  exists before ev existingId opened,
    [ TeamsFluidClient.LookedUp
        (Returned (TeamsFluidClient.mkInfo TeamsFluidClient.notFound None true 0));
      TeamsFluidClient.Created (Returned (TeamsFluidClient.mkHandles 1%nat 10%nat));
      TeamsFluidClient.Initialized 1%nat (Returned tt);
      TeamsFluidClient.AttachedToService 1%nat (Returned "mine");
      TeamsFluidClient.Published "mine" (Returned false);
      TeamsFluidClient.Disposed 1%nat;
      TeamsFluidClient.LookedUp
        (Returned (TeamsFluidClient.mkInfo TeamsFluidClient.alreadyExists
                     (Some "winner") false 0));
      TeamsFluidClient.Opened "winner" (Returned (TeamsFluidClient.mkHandles 2%nat 20%nat)) ]
    = before ++ [ev; TeamsFluidClient.Opened existingId (Returned opened)]
    /\ JoinTrace.reportedId ev = Some existingId
    /\ existingId <> EmptyString
    /\ TeamsFluidClient.container (TeamsFluidClient.mkJoin 2%nat 20%nat false)
       = TeamsFluidClient.handle_container opened
    /\ TeamsFluidClient.services (TeamsFluidClient.mkJoin 2%nat 20%nat false)
       = TeamsFluidClient.handle_services opened.
Proof.
  apply (attached_container_is_the_one_looked_up (racingClient false) 5
           (Some quietHook)); reflexivity.
Defined.

(** ** The role verifier: its two caches, its polling, the handler *)

Section RoleVerifierMore.
Import RoleVerifier Connected.
Variable api : TeamsLiveAPI.

Abbreviation rolesPoll clientId :=
  (pollUntil wait (callGetClientRoles api clientId) isArray
     (fun _ => Timeout "RoleVerifier: timed out getting roles for a remote client ID")
     EXPONENTIAL_BACKOFF_SCHEDULE).

Abbreviation registrationPoll clientId :=
  (pollUntil wait (callRegisterClientId api clientId) isArray
     (fun _ => Timeout "RoleVerifier: timed out registering local client ID")
     EXPONENTIAL_BACKOFF_SCHEDULE).

(** What a poll of either endpoint leaves behind: the endpoint is called
    once more than the poll slept, the sleeps are the first delays of the
    schedule, and the clock moved by their sum. *)
Lemma poll_history (operation : Async State RolesValue) (call : Event)
    (onTimeout : unit -> Error) (schedule : list Z) :
  (forall s, history (operation s).2 = history s ++ [call]
             /\ clock (operation s).2 = clock s) ->
  forall s, exists n,
    (n <= length schedule)%nat
    /\ history (pollUntil wait operation isArray onTimeout schedule s).2
       = history s ++ pollCalls call (take n schedule)
    /\ clock (pollUntil wait operation isArray onTimeout schedule s).2
       = clock s + foldr Z.add 0 (take n schedule).
Proof.
  intros Hop.
  assert (Hstop : forall s s1 : State,
             history s1 = history s ++ [call] -> clock s1 = clock s ->
             forall sched : list Z, exists n,
               (n <= length sched)%nat
               /\ history s1 = history s ++ pollCalls call (take n sched)
               /\ clock s1 = clock s + foldr Z.add 0 (take n sched)).
  { intros s s1 Hh Hc sched. exists 0%nat. rewrite take_0. simpl.
    repeat split; [lia | exact Hh | lia]. }
  induction schedule as [|d rest IH]; intros s; simpl; unfold await;
    destruct (Hop s) as [Hh Hc]; destruct (operation s) as [[r|e|] s1];
    simpl in Hh, Hc;
    try exact (Hstop s s1 Hh Hc []); try exact (Hstop s s1 Hh Hc (d :: rest)).
  - destruct (isArray r); exact (Hstop s s1 Hh Hc []).
  - destruct (isArray r); [exact (Hstop s s1 Hh Hc (d :: rest))|].
    simpl. destruct (IH (wait d s1)) as (n & Hn & Hhist & Hclock).
    exists (S n). simpl. rewrite Hhist, Hclock. simpl. rewrite Hh, Hc.
    repeat split; [lia | | lia].
    unfold pollCalls. simpl. by rewrite <- !app_assoc.
Qed.

Lemma take_schedule_sum (n : nat) :
  0 <= foldr Z.add 0 (take n EXPONENTIAL_BACKOFF_SCHEDULE) <= 1500.
Proof. do 6 (destruct n as [|n]; [simpl; lia|]). simpl. lia. Qed.

Lemma pollCalls_count call (delays : list Z) :
  isCall call = true ->
  length (List.filter isCall (pollCalls call delays)) = S (length delays).
Proof.
  intros Hcall. unfold pollCalls. simpl. rewrite Hcall. simpl. f_equal.
  induction delays as [|d delays IH]; simpl; [done|]. rewrite Hcall. simpl.
  by rewrite IH.
Qed.

(** X7. One call of [getClientRoles] asks the role endpoint at most six
    times, for the same client ID, sleeps in between for the first delays of
    100, 200, 200, 400, 600 ms, at most 1500 ms in all, and does nothing
    else to the outside. *)
Theorem getClientRoles_polls_at_most_six_times (clientId : string) (s : State) :
  let s' := (getClientRoles api clientId s).2 in
  exists made,
    history s' = history s ++ made
    /\ (length (List.filter isCall made) <= 6)%nat
    /\ Forall (fun ev => ev = GetRolesCalled clientId \/ exists d, ev = Slept d) made
    /\ clock s <= clock s' <= clock s + 1500.
Proof.
  cbv zeta. unfold getClientRoles.
  destruct (missing clientId).
  { exists []. simpl. rewrite app_nil_r. repeat split; try lia. constructor. }
  unfold cacheRequest.
  destruct (arrive (clock s) clientId verifier (getRequestCache s)) as [met c].
  destruct met as [v| |];
    try (exists []; simpl; rewrite app_nil_r; repeat split; try lia; constructor).
  destruct (poll_history (callGetClientRoles api clientId) (GetRolesCalled clientId)
              (fun _ => Timeout "RoleVerifier: timed out getting roles for a remote client ID")
              EXPONENTIAL_BACKOFF_SCHEDULE
              (fun s0 => conj eq_refl eq_refl) (setGetRequestCache c s))
    as (n & Hn & Hhist & Hclock).
  destruct (rolesPoll clientId (setGetRequestCache c s)) as [ended s1].
  simpl in Hhist, Hclock. cbn [snd history clock setGetRequestCache].
  exists (pollCalls (GetRolesCalled clientId) (take n EXPONENTIAL_BACKOFF_SCHEDULE)).
  pose proof (take_schedule_sum n) as Hsum.
  repeat split; try lia; [exact Hhist | |].
  - rewrite pollCalls_count by reflexivity. rewrite length_take.
    change (length EXPONENTIAL_BACKOFF_SCHEDULE) with 5%nat. lia.
  - unfold pollCalls. constructor; [by left|].
    clear. induction (take n EXPONENTIAL_BACKOFF_SCHEDULE) as [|d l IHl]; simpl;
      [constructor|].
    constructor; [right; by exists d|]. constructor; [by left | exact IHl].
Qed.

Lemma rolesPoll_only_calls clientId s :
  onlyCalls s (rolesPoll clientId s).2.
Proof.
  apply pollUntil_preserves;
    [ apply onlyCalls_refl | apply onlyCalls_trans
    | apply onlyCalls_getRoles | apply onlyCalls_wait ].
Qed.

Lemma getClientRoles_leaves_registrations clientId s :
  registerRequestCache (getClientRoles api clientId s).2 = registerRequestCache s.
Proof.
  unfold getClientRoles. destruct (missing clientId); [reflexivity|].
  unfold cacheRequest.
  destruct (arrive (clock s) clientId verifier (getRequestCache s)) as [met c].
  destruct met as [v| |]; try reflexivity.
  destruct (rolesPoll_only_calls clientId (setGetRequestCache c s)) as (Hreg & _ & _).
  destruct (rolesPoll clientId (setGetRequestCache c s)) as [ended s1].
  exact Hreg.
Qed.

(** X8. The verifier keeps registrations and role lookups in two separate
    caches: [registerClientId] never touches what [getClientRoles] has
    cached and the other way round. So a registration, whatever it
    returned, does not spare the role lookup: with nothing live or in flight
    for the client in the role cache, [getClientRoles] goes to the role
    endpoint. *)
Theorem registration_does_not_feed_role_lookups (clientId : string) (s : State) :
  getRequestCache (registerClientId api clientId s).2 = getRequestCache s
  /\ registerRequestCache (getClientRoles api clientId s).2 = registerRequestCache s
  /\ (clientId <> EmptyString ->
      let s1 := (registerClientId api clientId s).2 in
      cacheMiss (clock s1) clientId (getRequestCache s) ->
      exists made,
        history (getClientRoles api clientId s1).2
        = history s1 ++ GetRolesCalled clientId :: made).
Proof.
  split; [apply registerClientId_leaves_role_cache|].
  split; [apply getClientRoles_leaves_registrations|].
  intros Hid s1 Hmiss.
  rewrite <- (registerClientId_leaves_role_cache api clientId s) in Hmiss.
  fold s1 in Hmiss.
  unfold getClientRoles. destruct clientId as [|a rest]; [done|].
  change (missing (String a rest)) with false. cbv iota. unfold cacheRequest.
  destruct (arrive_miss (clock s1) (String a rest) verifier _ Hmiss) as [Hmet _].
  destruct (arrive (clock s1) (String a rest) verifier (getRequestCache s1))
    as [met c]. simpl in Hmet. subst met.
  destruct (poll_history (callGetClientRoles api (String a rest))
              (GetRolesCalled (String a rest))
              (fun _ => Timeout "RoleVerifier: timed out getting roles for a remote client ID")
              EXPONENTIAL_BACKOFF_SCHEDULE
              (fun s0 => conj eq_refl eq_refl) (setGetRequestCache c s1))
    as (n & _ & Hhist & _).
  destruct (rolesPoll (String a rest) (setGetRequestCache c s1)) as [ended s2].
  simpl in Hhist. cbn [snd history setGetRequestCache].
  eexists. exact Hhist.
Qed.

Lemma registerEach_app (before after : list string) (s : State) :
  registerEach api (before ++ after) s
  = (registerEach api before ;;; registerEach api after) s.
Proof.
  revert s. induction before as [|clientId before IH]; intros s; simpl.
  - reflexivity.
  - unfold await. destruct (registerClientId api clientId s) as [[v|e|] s1];
      try reflexivity.
    rewrite IH. reflexivity.
Qed.

(** X9. The [connected] handler registers the connections in their order
    and gives up at the first registration that fails: the handler ends with
    that failure, in the state that registration left, and the connections
    after it are not registered. Without a role verifier, or without
    connections, the handler does nothing. *)
Theorem connected_handler_stops_at_first_failure
    (before after : list string) (clientId : string) (s s1 s2 : State) (e : Error) :
  registerEach api before s = (Fulfilled tt, s1) ->
  registerClientId api clientId s1 = (Rejected e, s2) ->
  onConnected (Some api) (Some (before ++ clientId :: after)) s = (Rejected e, s2)
  /\ onConnected None (Some (before ++ clientId :: after)) s = (Fulfilled tt, s)
  /\ onConnected (Some api) None s = (Fulfilled tt, s).
Proof.
  intros Hbefore Hfail. repeat split. simpl.
  rewrite registerEach_app. unfold await at 1. rewrite Hbefore.
  simpl. unfold await. by rewrite Hfail.
Qed.
End RoleVerifierMore.

Lemma registration_does_not_feed_role_lookups_witness :
  let s1 := (RoleVerifier.registerClientId slowRoleService "client-1"
               (RoleVerifier.create 0)).2 in
  exists made,
    RoleVerifier.history
      (RoleVerifier.getClientRoles slowRoleService "client-1" s1).2
    = RoleVerifier.history s1 ++ RoleVerifier.GetRolesCalled "client-1" :: made.
Proof.
  apply (registration_does_not_feed_role_lookups slowRoleService "client-1"
           (RoleVerifier.create 0)).
  - discriminate.
  - vm_compute. exact I.
Defined.

Lemma connected_handler_stops_at_first_failure_witness :
  let s := RoleVerifier.create 0 in
  let s1 := (Connected.registerEach pickyRegistration ["a"] s).2 in
  let s2 := (RoleVerifier.registerClientId pickyRegistration "b" s1).2 in
  Connected.onConnected (Some pickyRegistration) (Some (["a"] ++ "b" :: ["c"])) s
  = (Rejected (UpstreamFailure "403"), s2)
  /\ Connected.onConnected None (Some (["a"] ++ "b" :: ["c"])) s = (Fulfilled tt, s)
  /\ Connected.onConnected (Some pickyRegistration) None s = (Fulfilled tt, s).
Proof.
  intros s s1 s2.
  apply (connected_handler_stops_at_first_failure pickyRegistration ["a"] ["c"] "b"
           s s1 s2 (UpstreamFailure "403")); vm_compute; reflexivity.
Defined.

(** Connection ["c"] is never registered when ["b"] fails before it. *)
Example third_connection_is_skipped :
  RoleVerifier.history
    (Connected.onConnected (Some pickyRegistration) (Some ["a"; "b"; "c"])
       (RoleVerifier.create 0)).2
  = [RoleVerifier.RegisterCalled "a"; RoleVerifier.RegisterCalled "b"].
Proof. vm_compute. reflexivity. Qed.

(** ** The token provider *)

Section TokenProviderFacts.
Import TeamsFluidTokenProvider.
Context {Api : Type}.
Variable getFluidToken : option string -> Async Api string.

Lemma differs_false (a b : option string) : differs a b = false <-> a = b.
Proof.
  unfold differs. rewrite negb_false_iff. apply bool_decide_eq_true.
Qed.

(** The guard of [fetchFluidToken] is off exactly when the provider holds a
    token for the tenant and the document and no refresh is asked. *)
Lemma guard_off tenantId documentId refresh f :
  negb (truthy (frsToken f)) || refresh
    || differs (_tenantId f) (Some tenantId)
    || differs (_documentId f) documentId = false
  <-> holdsFor tenantId documentId f /\ refresh = false.
Proof.
  unfold holdsFor. rewrite !orb_false_iff, !differs_false, negb_false_iff.
  tauto.
Qed.

Lemma remember_held tenantId documentId f :
  _tenantId f = Some tenantId -> _documentId f = documentId ->
  remember tenantId documentId f = f.
Proof.
  intros Ht Hd. unfold remember. destruct f as [tok doc ten]. simpl in *.
  subst. by destruct (truthy documentId).
Qed.

(** The two ways a fetch succeeds. *)
Lemma fetch_succeeded tenantId documentId refresh f f' (api api' : Api) response :
  fetchFluidToken getFluidToken tenantId documentId refresh (f, api)
    = (Fulfilled response, (f', api')) ->
  jwt response = frsToken f'
  /\ _tenantId f' = Some tenantId
  /\ _documentId f' = (if truthy documentId then documentId else _documentId f)
  /\ (fromCache response = false
      /\ ~ (holdsFor tenantId documentId f /\ refresh = false)
      /\ (exists token,
            getFluidToken documentId api = (Fulfilled token, api')
            /\ jwt response = Some token)
      \/ fromCache response = true
         /\ holdsFor tenantId documentId f /\ refresh = false
         /\ api' = api /\ f' = f).
Proof.
  unfold fetchFluidToken.
  destruct (negb (truthy (frsToken f)) || refresh
            || differs (_tenantId f) (Some tenantId)
            || differs (_documentId f) documentId) eqn:Hguard.
  - destruct (getFluidToken documentId api) as [[token|e|] api1] eqn:Hcall;
      try discriminate.
    intros Heq. inversion Heq; subst. clear Heq.
    split; [reflexivity|]. split; [reflexivity|]. split; [reflexivity|].
    left. split; [reflexivity|]. split.
    + intros Hheld. apply guard_off in Hheld. congruence.
    + by exists token.
  - intros Heq. inversion Heq; subst. clear Heq. apply guard_off in Hguard.
    split; [reflexivity|]. split; [reflexivity|]. split; [reflexivity|].
    right. destruct Hguard as [Hheld Hrefresh].
    split; [reflexivity|]. split; [exact Hheld|]. split; [exact Hrefresh|].
    split; [reflexivity|].
    destruct Hheld as (_ & Hten & Hd). by apply remember_held.
Qed.

(** X10. A response says [fromCache = true] exactly when the provider held
    a non-empty token for this very tenant and document and no refresh was
    asked; in that case the token service is not called and the held token
    is returned. Otherwise the token service is called and the response
    carries the token it just returned. Either way the response carries the
    token the provider holds afterwards. *)
Theorem fromCache_exactly_when_held (tenantId : string)
    (documentId : option string) (refresh : bool) (f f' : Fields) (api api' : Api)
    (response : ITokenResponse) :
  fetchFluidToken getFluidToken tenantId documentId refresh (f, api)
    = (Fulfilled response, (f', api')) ->
  (fromCache response = true <-> holdsFor tenantId documentId f /\ refresh = false)
  /\ (fromCache response = true -> api' = api /\ jwt response = frsToken f)
  /\ (fromCache response = false ->
      exists token,
        getFluidToken documentId api = (Fulfilled token, api')
        /\ jwt response = Some token)
  /\ jwt response = frsToken f'
  /\ _tenantId f' = Some tenantId.
Proof.
  intros Hrun.
  destruct (fetch_succeeded _ _ _ _ _ _ _ _ Hrun)
    as (Hjwt & Hten & _ & [(Hc & Hnot & Hcall)|(Hc & Hheld & Hr & Hapi & Hf)]).
  - rewrite Hc. repeat split; try discriminate; try assumption.
    + intros [Hh Hre]. exfalso. apply Hnot. by split.
    + intros _. exact Hcall.
  - rewrite Hc. subst f'. repeat split; try discriminate; try assumption;
      try apply Hheld.
Qed.

(** X11. The orderer and the storage token share one cache: after any
    successful fetch that returned a non-empty token, a fetch of either kind
    for the same tenant and document without refresh is answered from the
    cache with the same token and without calling the token service,
    provided the document ID is non-empty or is the one the provider already
    had. *)
Theorem repeated_fetch_is_served_from_cache (tenantId : string)
    (documentId : option string) (refresh : bool) (f f' : Fields) (api api' : Api)
    (response : ITokenResponse) :
  fetchOrdererToken getFluidToken tenantId documentId refresh (f, api)
    = (Fulfilled response, (f', api')) ->
  truthy (jwt response) = true ->
  truthy documentId = true \/ _documentId f = documentId ->
  forall later : Api,
    fetchStorageToken getFluidToken tenantId documentId false (f', later)
    = (Fulfilled (mkResponse (jwt response) true), (f', later))
    /\ fetchOrdererToken getFluidToken tenantId documentId false (f', later)
       = (Fulfilled (mkResponse (jwt response) true), (f', later)).
Proof.
  unfold fetchOrdererToken, fetchStorageToken, await.
  destruct (fetchFluidToken getFluidToken tenantId documentId refresh (f, api))
    as [[res|e|] [f1 api1]] eqn:Hfirst; try discriminate.
  intros Heq Htoken Hdoc later. inversion Heq; subst. clear Heq.
  destruct (fetch_succeeded _ _ _ _ _ _ _ _ Hfirst) as (Hjwt & Hten & Hd & _).
  assert (Hheld : holdsFor tenantId documentId f').
  { repeat split; [by rewrite <- Hjwt | exact Hten |].
    rewrite Hd. destruct (truthy documentId); [reflexivity|]. by destruct Hdoc. }
  assert (Hsecond :
            fetchFluidToken getFluidToken tenantId documentId false (f', later)
            = (Fulfilled (mkResponse (jwt response) true), (f', later))).
  { unfold fetchFluidToken.
    replace (negb (truthy (frsToken f')) || false
             || differs (_tenantId f') (Some tenantId)
             || differs (_documentId f') documentId) with false
      by (symmetry; apply guard_off; by split).
    destruct Hheld as (_ & Hten' & Hd').
    rewrite (remember_held tenantId documentId f' Hten' Hd'). by rewrite Hjwt. }
  rewrite Hsecond. by split.
Qed.

(** X12. A call without a usable document ID (absent or empty) that does
    not match the document the provider remembers is never answered from
    the cache, and it leaves the remembered document as it was: the token
    service is called, and it will be called again on every such call. *)
Theorem unmatched_empty_document_is_never_cached (tenantId : string)
    (documentId : option string) (refresh : bool) (f : Fields) (api : Api) :
  truthy documentId = false ->
  _documentId f <> documentId ->
  let run := fetchFluidToken getFluidToken tenantId documentId refresh (f, api) in
  run.2.2 = (getFluidToken documentId api).2
  /\ _documentId run.2.1 = _documentId f
  /\ _documentId run.2.1 <> documentId
  /\ (forall response, run.1 = Fulfilled response -> fromCache response = false).
Proof.
  intros Hfalsy Hne. cbv zeta. unfold fetchFluidToken.
  assert (Hd : differs (_documentId f) documentId = true).
  { unfold differs. apply negb_true_iff, bool_decide_eq_false. exact Hne. }
  rewrite Hd, orb_true_r.
  destruct (getFluidToken documentId api) as [[token|e|] api1]; simpl;
    rewrite ?Hfalsy; repeat split; try done.
  intros response Heq. by inversion Heq.
Qed.

(** X13. A failed call changes nothing the provider holds. In particular a
    refresh that fails keeps the old token usable: the next call for the
    same tenant and document without refresh returns it from the cache. *)
Theorem failed_fetch_keeps_the_held_token (tenantId : string)
    (documentId : option string) (refresh : bool) (f f' : Fields) (api api' : Api)
    (e : Error) :
  fetchFluidToken getFluidToken tenantId documentId refresh (f, api)
    = (Rejected e, (f', api')) ->
  f' = f
  /\ (holdsFor tenantId documentId f ->
      forall later : Api,
        fetchFluidToken getFluidToken tenantId documentId false (f', later)
        = (Fulfilled (mkResponse (frsToken f) true), (f, later))).
Proof.
  unfold fetchFluidToken at 1.
  destruct (negb (truthy (frsToken f)) || refresh
            || differs (_tenantId f) (Some tenantId)
            || differs (_documentId f) documentId); [|discriminate].
  destruct (getFluidToken documentId api) as [[token|e0|] api1]; try discriminate.
  intros Heq. inversion Heq as [[He Hf Ha]]. subst f'. split; [reflexivity|].
  intros Hheld later. unfold fetchFluidToken.
  replace (negb (truthy (frsToken f)) || false
           || differs (_tenantId f) (Some tenantId)
           || differs (_documentId f) documentId) with false
    by (symmetry; apply guard_off; by split).
  destruct Hheld as (_ & Hten & Hd).
  by rewrite (remember_held tenantId documentId f Hten Hd).
Qed.
End TokenProviderFacts.

Lemma fromCache_exactly_when_held_witness :
  let f := TeamsFluidTokenProvider.create in
  let f' := TeamsFluidTokenProvider.mkFields (Some "t1") (Some "D") (Some "T") in
  let response := TeamsFluidTokenProvider.mkResponse (Some "t1") false in
  (TeamsFluidTokenProvider.fromCache response = true
   <-> TeamsFluidTokenProvider.holdsFor "T" (Some "D") f /\ false = false)
  /\ (TeamsFluidTokenProvider.fromCache response = true ->
      1%nat = 0%nat
      /\ TeamsFluidTokenProvider.jwt response = TeamsFluidTokenProvider.frsToken f)
  /\ (TeamsFluidTokenProvider.fromCache response = false ->
      exists token,
        countingTokens (Some "D") 0%nat = (Fulfilled token, 1%nat)
        /\ TeamsFluidTokenProvider.jwt response = Some token)
  /\ TeamsFluidTokenProvider.jwt response = TeamsFluidTokenProvider.frsToken f'
  /\ TeamsFluidTokenProvider._tenantId f' = Some "T".
Proof.
  intros f f' response.
  apply (fromCache_exactly_when_held countingTokens "T" (Some "D") false
           f f' 0%nat 1%nat response).
  vm_compute. reflexivity.
Defined.

Lemma repeated_fetch_is_served_from_cache_witness :
  let f' := TeamsFluidTokenProvider.mkFields (Some "t1") (Some "D") (Some "T") in
  TeamsFluidTokenProvider.fetchStorageToken countingTokens "T" (Some "D") false
    (f', 7%nat)
  = (Fulfilled (TeamsFluidTokenProvider.mkResponse (Some "t1") true), (f', 7%nat))
  /\ TeamsFluidTokenProvider.fetchOrdererToken countingTokens "T" (Some "D") false
       (f', 7%nat)
     = (Fulfilled (TeamsFluidTokenProvider.mkResponse (Some "t1") true), (f', 7%nat)).
Proof.
  intros f'.
  apply (repeated_fetch_is_served_from_cache countingTokens "T" (Some "D") true
           TeamsFluidTokenProvider.create f' 0%nat 1%nat
           (TeamsFluidTokenProvider.mkResponse (Some "t1") false)).
  - vm_compute. reflexivity.
  - reflexivity.
  - left. reflexivity.
Defined.

Lemma unmatched_empty_document_is_never_cached_witness :
  let run := TeamsFluidTokenProvider.fetchFluidToken countingTokens "T" None false
               (warmProvider, 1%nat) in
  run.2.2 = (countingTokens None 1%nat).2
  /\ TeamsFluidTokenProvider._documentId run.2.1
     = TeamsFluidTokenProvider._documentId warmProvider
  /\ TeamsFluidTokenProvider._documentId run.2.1 <> None
  /\ (forall response,
        run.1 = Fulfilled response ->
        TeamsFluidTokenProvider.fromCache response = false).
Proof.
  apply (unmatched_empty_document_is_never_cached countingTokens "T" None false
           warmProvider 1%nat).
  - reflexivity.
  - discriminate.
Defined.

(** Once a document is remembered, calls without a document ID go to the
    token service every time. *)
Example calls_without_document_refetch :
  let first := TeamsFluidTokenProvider.fetchFluidToken countingTokens "T" None false
                 (warmProvider, 1%nat) in
  let second := TeamsFluidTokenProvider.fetchFluidToken countingTokens "T" None false
                  first.2 in
  first.1 = Fulfilled (TeamsFluidTokenProvider.mkResponse (Some "t2") false)
  /\ second.1 = Fulfilled (TeamsFluidTokenProvider.mkResponse (Some "t3") false)
  /\ second.2.2 = 3%nat.
Proof. vm_compute. repeat split; reflexivity. Qed.

Lemma failed_fetch_keeps_the_held_token_witness :
  warmProvider = warmProvider
  /\ TeamsFluidTokenProvider.fetchFluidToken tokensDown "T" (Some "D") false
       (warmProvider, 5%nat)
     = (Fulfilled (TeamsFluidTokenProvider.mkResponse
                     (TeamsFluidTokenProvider.frsToken warmProvider) true),
        (warmProvider, 5%nat)).
Proof.
  destruct (failed_fetch_keeps_the_held_token tokensDown "T" (Some "D") true
              warmProvider warmProvider 1%nat 2%nat (UpstreamFailure "503"))
    as [Hsame Hlater].
  - vm_compute. reflexivity.
  - split; [exact Hsame|]. apply Hlater. repeat split.
Defined.

(** ** The HTTP client *)

Section LiveAPIGeneric.
Import LiveAPI.
Variable platform : Platform.
Variable R : Api -> Api -> Prop.
Hypothesis R_refl : forall a, R a a.
Hypothesis R_trans : forall a1 a2 a3, R a1 a2 -> R a2 a3 -> R a1 a3.

Lemma preserved_await {A B} (m : Async Api A) (k : A -> Async Api B) :
  Preserved R m -> (forall x, Preserved R (k x)) -> Preserved R (await m k).
Proof.
  intros Hm Hk a. unfold await. specialize (Hm a).
  destruct (m a) as [[x|e|] a1]; simpl in *; try exact Hm.
  eapply R_trans; [exact Hm | apply Hk].
Qed.

Lemma preserved_pure {A} (m : Async Api A) :
  (forall a, (m a).2 = a) -> Preserved R m.
Proof. intros Hm a. rewrite Hm. apply R_refl. Qed.

Lemma preserved_resolve {A} (x : A) : Preserved R (resolve x).
Proof. by apply preserved_pure. Qed.

Lemma preserved_reject {A} (e : Error) : Preserved R (@reject Api A e).
Proof. by apply preserved_pure. Qed.

Lemma preserved_readJson res : Preserved R (readJson res).
Proof. by apply preserved_pure. Qed.

Lemma preserved_access name value : Preserved R (access name value).
Proof.
  apply preserved_pure. intros a. unfold access. by destruct (member name value).
Qed.

Hypothesis payload_ok : Preserved R (getTokenPayload platform).
Hypothesis context_ok : Preserved R (getContext platform).
Hypothesis fetch_ok :
  forall path method body,
    Preserved R (fun a => fetch platform (_apiHost a +:+ path) method body a).

Ltac tail :=
  repeat first
    [ exact payload_ok
    | exact context_ok
    | apply fetch_ok
    | apply preserved_resolve
    | apply preserved_reject
    | apply preserved_readJson
    | apply preserved_access
    | match goal with
      | |- Preserved R (if ?b then _ else _) => destruct b
      end
    | apply preserved_await
    | intros ? ].

(** Every method is a token payload, a context and one request, followed by
    steps that leave the client as it is. *)
Lemma perform_preserved (c : Call) : Preserved R (perform platform c).
Proof.
  destruct c; unfold perform, getFluidToken, getFluidTenantInfo,
    getFluidContainerId, setFluidContainerId, getNtpTime, registerClientId,
    verifyClientRoles, getClientRoles, post; tail.
Qed.

Lemma performAll_preserved (calls : list Call) :
  forall a, R a (performAll platform calls a).
Proof.
  induction calls as [|c calls IH]; intros a; simpl; [apply R_refl|].
  eapply R_trans; [apply (perform_preserved c) | apply IH].
Qed.
End LiveAPIGeneric.

Section LiveAPIInvariant.
Import LiveAPI.
Variable platform : Platform.

Lemma authAnswers_snoc h ev :
  authAnswers (h ++ [ev])
  = authAnswers h ++ match ev with AskedAuthToken reply => [reply] | _ => [] end.
Proof. unfold authAnswers. rewrite omap_app. by destruct ev. Qed.

Lemma contextAnswers_snoc h ev :
  contextAnswers (h ++ [ev])
  = contextAnswers h ++ match ev with AskedContext c => [c] | _ => [] end.
Proof. unfold contextAnswers. rewrite omap_app. by destruct ev. Qed.

Lemma requests_snoc h ev :
  requests (h ++ [ev])
  = requests h ++ match ev with Fetched request _ => [request] | _ => [] end.
Proof. unfold requests. rewrite omap_app. by destruct ev. Qed.

Lemma requests_app h1 h2 : requests (h1 ++ h2) = requests h1 ++ requests h2.
Proof. unfold requests. apply omap_app. Qed.

Lemma authAnswers_app h1 h2 : authAnswers (h1 ++ h2) = authAnswers h1 ++ authAnswers h2.
Proof. unfold authAnswers. apply omap_app. Qed.

Ltac wf_split :=
  repeat split; simpl in *; intros;
  rewrite ?requests_snoc, ?contextAnswers_snoc, ?authAnswers_snoc; simpl;
  rewrite ?app_nil_r; try assumption; try congruence.

Lemma wellFormed_refl a : KeepsWellFormed a a.
Proof. by intros H. Qed.

Lemma wellFormed_trans a1 a2 a3 :
  KeepsWellFormed a1 a2 -> KeepsWellFormed a2 a3 -> KeepsWellFormed a1 a3.
Proof. unfold KeepsWellFormed. tauto. Qed.

Lemma wellFormed_payload_set p a :
  KeepsWellFormed a (setTokenPayload p a).
Proof. intros H. exact H. Qed.

Lemma wellFormed_getContext : Preserved KeepsWellFormed (getContext platform).
Proof.
  intros a. unfold getContext.
  destruct (_context a) eqn:Hc; [apply wellFormed_refl|].
  intros (Hhost & Hurls & Hctx & Hauth & Htest). rewrite Hc in Hctx.
  wf_split.
  - rewrite length_app, Hctx. reflexivity.
  - by apply Htest.
  - by apply Htest.
Qed.

(** Asking for the auth token, which only a client that is not in testing
    mode does. *)
Lemma wellFormed_getAuthToken a :
  _isTesting a = false -> KeepsWellFormed a (getAuthToken platform a).2.
Proof.
  intros Hlive. unfold getAuthToken.
  destruct (nonEmpty (_authToken a)) eqn:Hheld; [apply wellFormed_refl|].
  intros (Hhost & Hurls & Hctx & Hauth & Htest). rewrite Hheld in Hauth.
  destruct (sdk_getAuthToken platform (log a)) as [result|error] eqn:Hreply;
    wf_split.
  - rewrite List.filter_app, length_app, Hauth. simpl.
    by destruct result.
  - rewrite List.filter_app, length_app, Hauth, Hheld. reflexivity.
Qed.

Lemma wellFormed_getTokenPayload : Preserved KeepsWellFormed (getTokenPayload platform).
Proof.
  intros a. unfold getTokenPayload.
  destruct (_tokenPayload a); simpl; [apply wellFormed_refl|].
  destruct (_isTesting a) eqn:Htest; simpl; [apply wellFormed_payload_set|].
  unfold await. pose proof (wellFormed_getAuthToken a Htest) as Hauth.
  destruct (getAuthToken platform a) as [[token|e|] a1]; simpl in *; try exact Hauth.
  destruct (parseJwt platform token); simpl; [|exact Hauth].
  eapply wellFormed_trans; [exact Hauth | apply wellFormed_payload_set].
Qed.

Lemma getAuthToken_frame a :
  _apiHost (getAuthToken platform a).2 = _apiHost a
  /\ _isTesting (getAuthToken platform a).2 = _isTesting a.
Proof.
  unfold getAuthToken. destruct (nonEmpty (_authToken a)); [done|].
  by destruct (sdk_getAuthToken platform (log a)).
Qed.

Lemma wellFormed_fetch path method body :
  Preserved KeepsWellFormed
    (fun a => fetch platform (_apiHost a +:+ path) method body a).
Proof.
  intros a. unfold fetch, await.
  destruct (_isTesting a) eqn:Htest; simpl.
  - intros (Hhost & Hurls & Hctx & Hauth & Htesting). wf_split.
    + apply Forall_app. split; [exact Hurls|]. constructor; [|constructor].
      by exists path.
    + by apply Htesting.
    + apply Forall_app. split; [by apply Htesting|]. by repeat constructor.
  - pose proof (wellFormed_getAuthToken a Htest) as Hkeeps.
    destruct (getAuthToken_frame a) as [Hsame Hmode].
    destruct (getAuthToken platform a) as [[token|e|] a1]; simpl in *;
      try exact Hkeeps.
    intros Hwf. destruct (Hkeeps Hwf) as (Hhost & Hurls & Hctx & Hauth & Htesting).
    wf_split.
    apply Forall_app. split; [exact Hurls|]. constructor; [|constructor].
    exists path. simpl. by rewrite Hsame.
Qed.

Lemma new_wellFormed host testing : WellFormed (new host testing).
Proof.
  unfold new, WellFormed. simpl. repeat split; try constructor.
  destruct (endsWithSlash (default _ host)) eqn:Hends; [exact Hends|].
  generalize (default "https://dev.teamsgraph.teams.microsoft.net/" host) as s.
  clear. intros s. induction s as [|c s IH]; [reflexivity|].
  destruct s as [|c' s']; [reflexivity|]. exact IH.
Qed.

Lemma sameSetup_all (calls : list Call) (a : Api) :
  SameSetup a (performAll platform calls a).
Proof.
  apply performAll_preserved; unfold Preserved, SameSetup.
  - by intros a0.
  - intros a1 a2 a3 [H1 H2] [H3 H4]. split; congruence.
  - intros a0. unfold getTokenPayload.
    destruct (_tokenPayload a0); [done|].
    destruct (_isTesting a0) eqn:Ht; simpl; [by split|]. unfold await.
    destruct (getAuthToken_frame a0) as [Hh Hm].
    destruct (getAuthToken platform a0) as [[token|e|] a1]; simpl in *;
      try (split; congruence).
    destruct (parseJwt platform token); simpl; split; congruence.
  - intros a0. unfold getContext. by destruct (_context a0).
  - intros path method body a0. unfold fetch, await.
    destruct (_isTesting a0) eqn:Htest; simpl; [by split|].
    destruct (getAuthToken_frame a0) as [Hh Hm].
    destruct (getAuthToken platform a0) as [[token|e|] a1]; simpl in *;
      split; congruence.
Qed.

Lemma wellFormed_all (calls : list Call) (a : Api) :
  WellFormed a -> WellFormed (performAll platform calls a).
Proof.
  apply (performAll_preserved platform KeepsWellFormed).
  - apply wellFormed_refl.
  - apply wellFormed_trans.
  - apply wellFormed_getTokenPayload.
  - apply wellFormed_getContext.
  - apply wellFormed_fetch.
Qed.

(** X14. The host a client was built with is used with exactly one slash
    appended when it does not end with one, it never changes, and every
    request the client ever sends, by any method and in any order (each
    call awaited before the next), goes to a URL that starts with it. *)
Theorem requests_go_under_the_host (host : option string) (testing : option bool)
    (calls : list Call) :
  let given := default "https://dev.teamsgraph.teams.microsoft.net/" host in
  let a := performAll platform calls (new host testing) in
  _apiHost a = (if endsWithSlash given then given else given +:+ "/")
  /\ endsWithSlash (_apiHost a) = true
  /\ Forall (fun r => exists path, url r = _apiHost a +:+ path) (requests (log a)).
Proof.
  intros given a.
  destruct (sameSetup_all calls (new host testing)) as [Hhost _].
  destruct (wellFormed_all calls (new host testing) (new_wellFormed host testing))
    as (Hends & Hurls & _).
  repeat split; [exact Hhost | exact Hends | exact Hurls].
Qed.

Lemma keepsToken_refl a : KeepsToken a a.
Proof.
  intros Hheld. repeat split. exists []. rewrite app_nil_r.
  repeat split. intros _. constructor.
Qed.

Lemma keepsToken_trans a1 a2 a3 :
  KeepsToken a1 a2 -> KeepsToken a2 a3 -> KeepsToken a1 a3.
Proof.
  intros H12 H23 Hheld.
  destruct (H12 Hheld) as (Htok & Hmode & made & Hlog & Hauth & Hbear).
  assert (Hheld2 : nonEmpty (_authToken a2) = true) by (by rewrite Htok).
  destruct (H23 Hheld2) as (Htok' & Hmode' & made' & Hlog' & Hauth' & Hbear').
  split; [congruence|]. split; [congruence|].
  exists (made ++ made'). split; [by rewrite Hlog', Hlog, app_assoc|].
  split; [by rewrite authAnswers_app, Hauth, Hauth'|].
  intros Hlive. rewrite requests_app. apply Forall_app. split; [by apply Hbear|].
  rewrite <- Htok. apply Hbear'. congruence.
Qed.

Lemma getAuthToken_held a :
  nonEmpty (_authToken a) = true ->
  getAuthToken platform a = (Fulfilled (default EmptyString (_authToken a)), a).
Proof. intros Hheld. unfold getAuthToken. by rewrite Hheld. Qed.

Lemma keepsToken_step a a' (made : list Event) :
  _authToken a' = _authToken a -> _isTesting a' = _isTesting a ->
  log a' = log a ++ made -> authAnswers made = [] ->
  (_isTesting a = false ->
   Forall (fun r => bearer r
                    = Some ("Bearer " +:+ default EmptyString (_authToken a)))
          (requests made)) ->
  KeepsToken a a'.
Proof.
  intros Htok Hmode Hlog Hauth Hbear Hheld.
  split; [exact Htok|]. split; [exact Hmode|]. by exists made.
Qed.

Lemma keepsToken_getTokenPayload : Preserved KeepsToken (getTokenPayload platform).
Proof.
  intros a. unfold getTokenPayload.
  destruct (_tokenPayload a); [apply keepsToken_refl|].
  destruct (_isTesting a) eqn:Htest; simpl.
  - apply (keepsToken_step _ _ []); simpl; rewrite ?app_nil_r; try done;
      try (intros _; constructor).
  - intros Hheld. unfold await. rewrite (getAuthToken_held a Hheld).
    destruct (parseJwt platform _); simpl; [|by apply keepsToken_refl].
    split; [reflexivity|]. split; [reflexivity|].
    exists []. rewrite app_nil_r. split; [reflexivity|]. split; [reflexivity|].
    intros _. constructor.
Qed.

Lemma keepsToken_getContext : Preserved KeepsToken (getContext platform).
Proof.
  intros a. unfold getContext.
  destruct (_context a); [apply keepsToken_refl|]. simpl.
  apply (keepsToken_step _ _ [AskedContext (sdk_getContext platform (log a))]);
    simpl; try done; try (intros _; constructor).
Qed.

Lemma keepsToken_fetch path method body :
  Preserved KeepsToken
    (fun a => fetch platform (_apiHost a +:+ path) method body a).
Proof.
  intros a. unfold fetch, await.
  destruct (_isTesting a) eqn:Htest; simpl.
  - eapply (keepsToken_step _ _ [Fetched _ _]); simpl; try done.
    intros Hlive. congruence.
  - intros Hheld. rewrite (getAuthToken_held a Hheld). simpl.
    split; [reflexivity|]. split; [reflexivity|].
    eexists. split; [reflexivity|]. split; [reflexivity|].
    intros _. by repeat constructor.
Qed.

Lemma keepsToken_all (calls : list Call) (a : Api) :
  KeepsToken a (performAll platform calls a).
Proof.
  apply (performAll_preserved platform KeepsToken).
  - apply keepsToken_refl.
  - apply keepsToken_trans.
  - apply keepsToken_getTokenPayload.
  - apply keepsToken_getContext.
  - apply keepsToken_fetch.
Qed.

(** X15. However a client is used, one call after the other, the Teams SDK
    is asked for the context at most once, and at most one of its auth
    answers is a token the client keeps. *)
Theorem sdk_answers_are_kept (host : option string) (testing : option bool)
    (calls : list Call) :
  let a := performAll platform calls (new host testing) in
  (length (contextAnswers (log a)) <= 1)%nat
  /\ (length (List.filter usable (authAnswers (log a))) <= 1)%nat.
Proof.
  intros a.
  destruct (wellFormed_all calls (new host testing) (new_wellFormed host testing))
    as (_ & _ & Hctx & Hauth & _).
  fold a in Hctx, Hauth. rewrite Hctx, Hauth.
  split; [destruct (_context a) | destruct (nonEmpty (_authToken a))]; lia.
Qed.

(** X16. A client that holds a non-empty auth token never asks the Teams
    SDK for a token again, whatever is called afterwards: the token is kept
    as it is, and, outside testing mode, every request sent from then on
    bears exactly that token. The token is never renewed. *)
Theorem auth_token_is_never_renewed (calls : list Call) (a : Api) :
  nonEmpty (_authToken a) = true ->
  let a' := performAll platform calls a in
  _authToken a' = _authToken a
  /\ exists made,
       log a' = log a ++ made
       /\ authAnswers made = []
       /\ (_isTesting a = false ->
           Forall (fun r => bearer r
                            = Some ("Bearer " +:+ default EmptyString (_authToken a)))
                  (requests made)).
Proof.
  intros Hheld a'.
  destruct (keepsToken_all calls a Hheld) as (Htok & _ & made & Hlog & Hauth & Hbear).
  split; [exact Htok|]. by exists made.
Qed.

(** X17. A client in testing mode never asks the Teams SDK for an auth
    token, never holds one, and never sends an [Authorization] header,
    whatever is called. *)
Theorem testing_mode_sends_no_credentials (host : option string)
    (calls : list Call) :
  let a := performAll platform calls (new host (Some true)) in
  authAnswers (log a) = []
  /\ nonEmpty (_authToken a) = false
  /\ Forall (fun r => bearer r = None) (requests (log a)).
Proof.
  intros a.
  destruct (wellFormed_all calls (new host (Some true))
              (new_wellFormed host (Some true))) as (_ & _ & _ & Hkept & Htest).
  destruct (sameSetup_all calls (new host (Some true))) as [_ Hmode].
  fold a in Htest, Hmode, Hkept. destruct (Htest Hmode) as [Hauth Hbear].
  repeat split; [exact Hauth | | exact Hbear].
  rewrite Hauth in Hkept. simpl in Hkept.
  by destruct (nonEmpty (_authToken a)).
Qed.
(** *** A client that cannot get a token *)

Lemma getAuthToken_refused a error :
  nonEmpty (_authToken a) = false ->
  sdk_getAuthToken platform (log a) = Failed error ->
  getAuthToken platform a
  = (Rejected (UpstreamFailure error), logged (AskedAuthToken (Failed error)) a).
Proof. intros Hno Hsdk. unfold getAuthToken. by rewrite Hno, Hsdk. Qed.

Lemma getTokenPayload_refused a error :
  SignedOut a -> sdk_getAuthToken platform (log a) = Failed error ->
  getTokenPayload platform a
  = (Rejected (UpstreamFailure error), logged (AskedAuthToken (Failed error)) a).
Proof.
  intros (Hlive & Hno & Hpay) Hsdk. unfold getTokenPayload, await.
  rewrite Hpay, Hlive. simpl. by rewrite (getAuthToken_refused a error).
Qed.

Lemma fetch_refused url method body a error :
  SignedOut a -> sdk_getAuthToken platform (log a) = Failed error ->
  fetch platform url method body a
  = (Rejected (UpstreamFailure error), logged (AskedAuthToken (Failed error)) a).
Proof.
  intros (Hlive & Hno & Hpay) Hsdk. unfold fetch, await.
  rewrite Hlive. simpl. by rewrite (getAuthToken_refused a error).
Qed.

Lemma perform_refused c a error :
  SignedOut a -> sdk_getAuthToken platform (log a) = Failed error ->
  perform platform c a
  = (Rejected (UpstreamFailure error), logged (AskedAuthToken (Failed error)) a).
Proof.
  intros Hout Hsdk.
  destruct c; unfold perform, getFluidToken, getFluidTenantInfo,
    getFluidContainerId, setFluidContainerId, getNtpTime, registerClientId,
    verifyClientRoles, getClientRoles, post, await;
    rewrite ?(getTokenPayload_refused a error Hout Hsdk),
            ?(fetch_refused _ _ _ a error Hout Hsdk); reflexivity.
Qed.

Lemma performAll_refused (calls : list Call) :
  refusesTokens platform ->
  forall a, SignedOut a ->
    SignedOut (performAll platform calls a)
    /\ requests (log (performAll platform calls a)) = requests (log a)
    /\ length (authAnswers (log (performAll platform calls a)))
       = (length (authAnswers (log a)) + length calls)%nat.
Proof.
  intros Hrefuses. induction calls as [|c calls IH]; intros a Hout; simpl.
  - repeat split; [apply Hout.. | lia].
  - destruct (Hrefuses (log a)) as [error Hsdk].
    rewrite (perform_refused c a error Hout Hsdk). simpl.
    destruct (IH (logged (AskedAuthToken (Failed error)) a)) as (Hout' & Hreq & Hauth).
    { destruct Hout as (Hlive & Hno & Hpay). by repeat split. }
    split; [exact Hout'|]. split.
    + rewrite Hreq. simpl. rewrite requests_snoc. apply app_nil_r.
    + rewrite Hauth. simpl. rewrite authAnswers_snoc, length_app. simpl. lia.
Qed.

(** X18. With a Teams SDK that refuses to give a token, a client outside
    testing mode never sends a request: every call, [getNtpTime] included,
    is rejected with the error of the SDK, and every call asks the SDK
    again, since a refusal is not remembered. *)
Theorem refused_token_blocks_every_call (host : option string)
    (testing : option bool) (calls : list Call) (c : Call) :
  refusesTokens platform -> testing <> Some true ->
  let a := performAll platform calls (new host testing) in
  requests (log a) = []
  /\ length (authAnswers (log a)) = length calls
  /\ exists error,
       sdk_getAuthToken platform (log a) = Failed error
       /\ (perform platform c a).1 = Rejected (UpstreamFailure error).
Proof.
  intros Hrefuses Hlive a.
  assert (Hnew : SignedOut (new host testing)).
  { repeat split. destruct testing as [[|]|]; [by destruct Hlive|done..]. }
  destruct (performAll_refused calls Hrefuses _ Hnew) as (Hout & Hreq & Hauth).
  fold a in Hout, Hreq, Hauth.
  split; [exact Hreq|]. split; [exact Hauth|].
  destruct (Hrefuses (log a)) as [error Hsdk]. exists error.
  split; [exact Hsdk|]. by rewrite (perform_refused c a error Hout Hsdk).
Qed.

(** *** A token that cannot be read *)

Lemma getTokenPayload_unread token error a :
  HoldsUnread token a -> parseJwt platform token = Failed error ->
  getTokenPayload platform a = (Rejected (UpstreamFailure error), a).
Proof.
  intros (Hlive & Htok & Hfull & Hpay) Hparse. unfold getTokenPayload, await.
  rewrite Hpay, Hlive. simpl. rewrite getAuthToken_held by (by rewrite Htok).
  rewrite Htok. simpl. by rewrite Hparse.
Qed.

Lemma perform_unread token error c a :
  HoldsUnread token a -> parseJwt platform token = Failed error ->
  c <> GetNtpTime ->
  perform platform c a = (Rejected (UpstreamFailure error), a).
Proof.
  intros Hheld Hparse Hc.
  destruct c; try (by destruct Hc);
    unfold perform, getFluidToken, getFluidTenantInfo,
      getFluidContainerId, setFluidContainerId, registerClientId,
      verifyClientRoles, getClientRoles, await;
    by rewrite (getTokenPayload_unread token error a Hheld Hparse).
Qed.

Lemma perform_keeps_unread token error c a :
  HoldsUnread token a -> parseJwt platform token = Failed error ->
  HoldsUnread token (perform platform c a).2.
Proof.
  intros Hheld Hparse.
  assert (Hcases : c = GetNtpTime \/ c <> GetNtpTime)
    by (destruct c; (by left) || (by right)).
  destruct Hcases as [->|Hc].
  - destruct Hheld as (Hlive & Htok & Hfull & Hpay).
    unfold perform, getNtpTime, fetch, await. rewrite Hlive. simpl.
    rewrite getAuthToken_held by (by rewrite Htok). simpl.
    destruct (net_fetch platform _ _) as [res|e]; simpl; [|by repeat split].
    destruct (400 <=? status res); [by repeat split|].
    unfold readJson. destruct (json res); by repeat split.
  - by rewrite (perform_unread token error c a Hheld Hparse Hc).
Qed.

Lemma performAll_keeps_unread token error (calls : list Call) :
  parseJwt platform token = Failed error ->
  forall a, HoldsUnread token a -> HoldsUnread token (performAll platform calls a).
Proof.
  intros Hparse. induction calls as [|c calls IH]; intros a Hheld; simpl;
    [exact Hheld|].
  apply IH. by apply (perform_keeps_unread token error).
Qed.

Lemma getAuthToken_granted a token :
  nonEmpty (_authToken a) = false ->
  sdk_getAuthToken platform (log a) = Returned token ->
  getAuthToken platform a
  = (Fulfilled token, setAuthToken token (Returned token) a).
Proof. intros Hno Hsdk. unfold getAuthToken. by rewrite Hno, Hsdk. Qed.

(** The first call of a client that is handed a non-empty token which
    [parseJwt] cannot read. *)
Lemma first_call_unread token error c a :
  SignedOut a -> sdk_getAuthToken platform (log a) = Returned token ->
  nonEmpty (Some token) = true -> parseJwt platform token = Failed error ->
  HoldsUnread token (perform platform c a).2
  /\ authAnswers (log (perform platform c a).2)
     = authAnswers (log a) ++ [Returned token]
  /\ (c <> GetNtpTime ->
      (perform platform c a).1 = Rejected (UpstreamFailure error)).
Proof.
  intros (Hlive & Hno & Hpay) Hsdk Hfull Hparse.
  assert (Hpayload :
            getTokenPayload platform a
            = (Rejected (UpstreamFailure error),
               setAuthToken token (Returned token) a)).
  { unfold getTokenPayload, await. rewrite Hpay, Hlive. simpl.
    rewrite (getAuthToken_granted a token Hno Hsdk). by rewrite Hparse. }
  assert (Hstored : HoldsUnread token (setAuthToken token (Returned token) a))
    by (by repeat split).
  assert (Hasked :
            authAnswers (log (setAuthToken token (Returned token) a))
            = authAnswers (log a) ++ [Returned token])
    by (simpl; by rewrite authAnswers_snoc).
  destruct c;
    try (unfold perform, getFluidToken, getFluidTenantInfo,
           getFluidContainerId, setFluidContainerId, registerClientId,
           verifyClientRoles, getClientRoles, await;
         rewrite Hpayload; by repeat split).
  unfold perform, getNtpTime, fetch, await. rewrite Hlive. simpl.
  rewrite (getAuthToken_granted a token Hno Hsdk). simpl.
  destruct (net_fetch platform _ _) as [res|e]; simpl.
  - destruct (400 <=? status res); [|unfold readJson; destruct (json res)];
      simpl; repeat split; try done;
      rewrite !authAnswers_snoc; simpl; by rewrite app_nil_r.
  - repeat split; try done.
    rewrite !authAnswers_snoc; simpl; by rewrite app_nil_r.
Qed.

(** X19. When the Teams SDK hands a client outside testing mode a
    non-empty token that [parseJwt] rejects, the first call stores the token
    all the same and no payload: from then on the SDK is never asked for
    another token, and every call but [getNtpTime] is rejected with the
    error of [parseJwt], leaving the client as it is and sending nothing.
    (An empty token is not held, so this does not apply to it.) *)
Theorem unreadable_token_is_never_replaced (token error : string)
    (first : Call) (calls : list Call) (a : Api) (c : Call) :
  SignedOut a ->
  sdk_getAuthToken platform (log a) = Returned token ->
  nonEmpty (Some token) = true ->
  parseJwt platform token = Failed error ->
  c <> GetNtpTime ->
  let a1 := (perform platform first a).2 in
  let a' := performAll platform calls a1 in
  (first <> GetNtpTime ->
   (perform platform first a).1 = Rejected (UpstreamFailure error))
  /\ _authToken a1 = Some token
  /\ _tokenPayload a' = None
  /\ _authToken a' = Some token
  /\ authAnswers (log a') = authAnswers (log a) ++ [Returned token]
  /\ perform platform c a' = (Rejected (UpstreamFailure error), a').
Proof.
  intros Hout Hsdk Hfull Hparse Hc a1 a'.
  destruct (first_call_unread token error first a Hout Hsdk Hfull Hparse)
    as (Hheld & Hasked & Hfirst).
  fold a1 in Hheld, Hasked.
  pose proof (performAll_keeps_unread token error calls Hparse a1 Hheld) as Hkept.
  fold a' in Hkept.
  assert (Hnon : nonEmpty (_authToken a1) = true).
  { destruct Hheld as (_ & Htok & Hne & _). by rewrite Htok. }
  destruct (keepsToken_all calls a1 Hnon) as (_ & _ & made & Hlog & Hnone & _).
  fold a' in Hlog.
  split; [exact Hfirst|]. split; [apply Hheld|]. split; [apply Hkept|].
  split; [apply Hkept|]. split.
  - by rewrite Hlog, authAnswers_app, Hnone, app_nil_r.
  - by apply (perform_unread token error).
Qed.

(** *** How a call ends *)

Lemma await_fulfilled {A B} (m : Async Api A) (k : A -> Async Api B) a y a' :
  await m k a = (Fulfilled y, a') ->
  exists x a1, m a = (Fulfilled x, a1) /\ k x a1 = (Fulfilled y, a').
Proof.
  unfold await. destruct (m a) as [[x|e|] a1]; intros H; try discriminate H.
  by exists x, a1.
Qed.

Lemma fetch_fulfilled url method body a res a' :
  fetch platform url method body a = (Fulfilled res, a') ->
  lastResponse a' = Some res.
Proof.
  intros H. unfold fetch in H. apply await_fulfilled in H as (hs & a1 & _ & H).
  destruct (net_fetch platform (log a1) (mkRequest url method hs "cors" body))
    as [r|e] eqn:Hnet; simpl in H; rewrite ?Hnet in H; simpl in H;
    inversion H; subst.
  unfold lastResponse, logged. simpl. rewrite last_snoc. reflexivity.
Qed.

Lemma readJson_fulfilled res a x a1 :
  readJson res a = (Fulfilled x, a1) -> a1 = a.
Proof. unfold readJson. intros H. by inversion H. Qed.

Lemma access_fulfilled name value a x a1 :
  access name value a = (Fulfilled x, a1) -> a1 = a.
Proof.
  unfold access. destruct (member name value); intros H; by inversion H.
Qed.

(** The steps after the request of a method that rejects error statuses. *)
Lemma checked_tail {A} (what : string) (res : Response) (rest : Async Api A)
    a x a' :
  (forall a0 x0 a1, rest a0 = (Fulfilled x0, a1) -> a1 = a0) ->
  (if 400 <=? status res then reject (statusError what res) else rest) a
  = (Fulfilled x, a') ->
  a' = a /\ status res < 400.
Proof.
  intros Hrest H. destruct (400 <=? status res) eqn:Hs; [discriminate H|].
  apply Z.leb_gt in Hs. split; [by eapply Hrest | exact Hs].
Qed.

Ltac unchanged :=
  intros ? ? ? Hrun;
  repeat match type of Hrun with
  | await _ _ _ = _ =>
      let Hstep := fresh "Hstep" in
      apply await_fulfilled in Hrun as (? & ? & Hstep & Hrun);
      first [ apply readJson_fulfilled in Hstep
            | apply access_fulfilled in Hstep ]; subst
  | (if ?b then _ else _) _ = _ => destruct b
  end;
  unfold resolve, reject in Hrun;
  first [ by inversion Hrun | by eapply access_fulfilled ].

(** X20. A call is fulfilled only when the last thing the client did was
    a request that was answered with a status below 400; the one exception
    is [getClientRoles], which a status of 404 fulfils with [undefined]. *)
Theorem error_status_never_fulfils (c : Call) (a a' : Api) (v : JsValue) :
  perform platform c a = (Fulfilled v, a') ->
  exists res,
    lastResponse a' = Some res
    /\ (status res < 400
        \/ (status res = 404 /\ v = None
            /\ exists clientId, c = GetClientRoles clientId)).
Proof.
  intros H.
  destruct c; unfold perform, getFluidToken, getFluidTenantInfo,
    getFluidContainerId, setFluidContainerId, getNtpTime, registerClientId,
    verifyClientRoles, getClientRoles, post in H;
    repeat match type of H with
    | await (getTokenPayload _) _ _ = _ =>
        apply await_fulfilled in H as (? & ? & _ & H)
    | await (getContext _) _ _ = _ =>
        apply await_fulfilled in H as (? & ? & _ & H)
    | await (await _ _) _ _ = _ =>
        apply await_fulfilled in H as (accepted & ? & H & Hlast)
    | await _ _ _ = _ =>
        let Hpost := fresh "Hpost" in
        apply await_fulfilled in H as (res & ? & Hpost & H);
        apply fetch_fulfilled in Hpost; exists res
    end.
  all: try (apply checked_tail in H as [-> Hs]; [by split; [|left] | unchanged]).
  - inversion Hlast; subst.
    apply checked_tail in H as [-> Hs]; [by split; [|left] | unchanged].
  - destruct (status res =? 404) eqn:Hnf.
    + apply Z.eqb_eq in Hnf. inversion H; subst.
      split; [assumption|]. right. repeat split; [exact Hnf|]. by eexists.
    + apply checked_tail in H as [-> Hs]; [by split; [|left] | unchanged].
Qed.

(** *** How much a call sends *)

Lemma sends_await {A B} n k (m : Async Api A) (f : A -> Async Api B) :
  Sends n m -> (forall x, Sends k (f x)) -> Sends (n + k) (await m f).
Proof.
  intros Hm Hf a. unfold await. destruct (Hm a) as (made & Hlog & Hn).
  destruct (m a) as [[x|e|] a1]; simpl in *;
    try (exists made; split; [exact Hlog | lia]).
  destruct (Hf x a1) as (made' & Hlog' & Hk).
  exists (made ++ made'). split; [by rewrite Hlog', Hlog, app_assoc|].
  rewrite requests_app, length_app. lia.
Qed.

Lemma sends_pure {A} (m : Async Api A) :
  (forall a, log (m a).2 = log a) -> Sends 0 m.
Proof. intros Hm a. exists []. rewrite Hm, app_nil_r. by split. Qed.

Lemma sends_getAuthToken : Sends 0 (getAuthToken platform).
Proof.
  intros a. unfold getAuthToken.
  destruct (nonEmpty (_authToken a)); [exists []; by rewrite app_nil_r|].
  destruct (sdk_getAuthToken platform (log a)); by eexists [_].
Qed.

Lemma sends_getTokenPayload : Sends 0 (getTokenPayload platform).
Proof.
  intros a. unfold getTokenPayload.
  destruct (_tokenPayload a); [exists []; by rewrite app_nil_r|].
  destruct (_isTesting a); simpl; [exists []; by rewrite app_nil_r|].
  apply (sends_await 0 0); [apply sends_getAuthToken|].
  intros token. apply sends_pure. intros a1. by destruct (parseJwt platform token).
Qed.

Lemma sends_getContext : Sends 0 (getContext platform).
Proof.
  intros a. unfold getContext.
  destruct (_context a); [exists []; by rewrite app_nil_r|]. by eexists [_].
Qed.

Lemma sends_fetch path method body :
  Sends 1 (fun a => fetch platform (_apiHost a +:+ path) method body a).
Proof.
  intros a. unfold fetch.
  apply (sends_await 0 1 _ _ ); [|intros hs a1; by eexists [_]].
  intros a0. destruct (_isTesting a0); simpl; [exists []; by rewrite app_nil_r|].
  apply (sends_await 0 0); [apply sends_getAuthToken|].
  intros token. by apply sends_pure.
Qed.

Ltac quiet :=
  repeat first
    [ match goal with
      | |- Sends 0 (if ?b then _ else _) => destruct b
      end
    | apply (sends_await 0 0)
    | apply sends_pure; intros ?; unfold access;
      first [ reflexivity | by destruct (member _ _) ]
    | intros ? ].

Ltac one_request :=
  apply (sends_await 0 1); [apply sends_getTokenPayload | intros ?];
  apply (sends_await 0 1); [apply sends_getContext | intros ?];
  apply (sends_await 1 0); [apply sends_fetch | intros ?; quiet].

Lemma perform_sends (c : Call) : Sends 1 (perform platform c).
Proof.
  destruct c; unfold perform, getFluidToken, getFluidTenantInfo,
    getFluidContainerId, setFluidContainerId, getNtpTime, registerClientId,
    verifyClientRoles, getClientRoles, post;
    try one_request.
  - apply (sends_await 1 0); [one_request | quiet].
  - apply (sends_await 1 0); [apply sends_fetch | intros ?; quiet].
Qed.

Lemma performAll_sends (calls : list Call) :
  forall a,
    (length (requests (log (performAll platform calls a)))
     <= length (requests (log a)) + length calls)%nat.
Proof.
  induction calls as [|c calls IH]; intros a; simpl; [lia|].
  specialize (IH (perform platform c a).2).
  destruct (perform_sends c a) as (made & Hlog & Hone).
  rewrite Hlog, requests_app, length_app in IH. lia.
Qed.

(** X21. No call sends more than one request: after any sequence of calls,
    one after the other, the client has sent at most as many requests as
    calls were made. *)
Theorem one_request_per_call (host : option string) (testing : option bool)
    (calls : list Call) :
  (length (requests (log (performAll platform calls (new host testing))))
   <= length calls)%nat.
Proof. apply (performAll_sends calls (new host testing)). Qed.
End LiveAPIInvariant.

Lemma auth_token_is_never_renewed_witness :
  let platform := simplePlatform 200 LiveAPI.JNull in
  let a' := LiveAPI.performAll platform
              [LiveAPI.GetFluidContainerId; LiveAPI.GetNtpTime] signedInClient in
  LiveAPI._authToken a' = LiveAPI._authToken signedInClient
  /\ exists made,
       LiveAPI.log a' = LiveAPI.log signedInClient ++ made
       /\ LiveAPI.authAnswers made = []
       /\ (LiveAPI._isTesting signedInClient = false ->
           Forall (fun r => LiveAPI.bearer r
                            = Some ("Bearer "
                                    +:+ default EmptyString
                                          (LiveAPI._authToken signedInClient)))
                  (LiveAPI.requests made)).
Proof.
  intros platform.
  apply (auth_token_is_never_renewed platform
           [LiveAPI.GetFluidContainerId; LiveAPI.GetNtpTime] signedInClient).
  reflexivity.
Defined.

(** The two later requests of that client carry the token of the first. *)
Example signed_in_run :
  map LiveAPI.bearer
    (LiveAPI.requests
       (LiveAPI.log
          (LiveAPI.performAll (simplePlatform 200 LiveAPI.JNull)
             [LiveAPI.GetFluidContainerId; LiveAPI.GetNtpTime] signedInClient)))
  = [Some "Bearer tok"; Some "Bearer tok"; Some "Bearer tok"].
Proof. vm_compute. reflexivity. Qed.

Lemma signedOutPlatform_refuses : LiveAPI.refusesTokens signedOutPlatform.
Proof. intros h. by exists "not signed in". Qed.

Lemma refused_token_blocks_every_call_witness :
  let a := LiveAPI.performAll signedOutPlatform
             [LiveAPI.GetNtpTime; LiveAPI.GetFluidContainerId]
             (LiveAPI.new None None) in
  LiveAPI.requests (LiveAPI.log a) = []
  /\ length (LiveAPI.authAnswers (LiveAPI.log a)) = 2%nat
  /\ exists error,
       LiveAPI.sdk_getAuthToken signedOutPlatform (LiveAPI.log a) = Failed error
       /\ (LiveAPI.perform signedOutPlatform (LiveAPI.RegisterClientId "c1") a).1
          = Rejected (UpstreamFailure error).
Proof.
  apply (refused_token_blocks_every_call signedOutPlatform None None
           [LiveAPI.GetNtpTime; LiveAPI.GetFluidContainerId]
           (LiveAPI.RegisterClientId "c1")).
  - exact signedOutPlatform_refuses.
  - discriminate.
Defined.

Lemma unreadable_token_is_never_replaced_witness :
  let a := LiveAPI.new None None in
  let a1 := (LiveAPI.perform garbledPlatform (LiveAPI.GetFluidToken None) a).2 in
  let a' := LiveAPI.performAll garbledPlatform
              [LiveAPI.GetNtpTime; LiveAPI.GetClientRoles "c1"] a1 in
  (LiveAPI.GetFluidToken None <> LiveAPI.GetNtpTime ->
   (LiveAPI.perform garbledPlatform (LiveAPI.GetFluidToken None) a).1
   = Rejected (UpstreamFailure "SyntaxError: Unexpected token"))
  /\ LiveAPI._authToken a1 = Some "tok"
  /\ LiveAPI._tokenPayload a' = None
  /\ LiveAPI._authToken a' = Some "tok"
  /\ LiveAPI.authAnswers (LiveAPI.log a')
     = LiveAPI.authAnswers (LiveAPI.log a) ++ [Returned "tok"]
  /\ LiveAPI.perform garbledPlatform (LiveAPI.SetFluidContainerId "doc") a'
     = (Rejected (UpstreamFailure "SyntaxError: Unexpected token"), a').
Proof.
  apply (unreadable_token_is_never_replaced garbledPlatform
           "tok" "SyntaxError: Unexpected token" (LiveAPI.GetFluidToken None)
           [LiveAPI.GetNtpTime; LiveAPI.GetClientRoles "c1"]
           (LiveAPI.new None None) (LiveAPI.SetFluidContainerId "doc")).
  - repeat split.
  - reflexivity.
  - reflexivity.
  - reflexivity.
  - discriminate.
Defined.

(** An empty token is not held: the next call asks the SDK again. *)
Example empty_token_is_asked_for_again :
  let platform :=
    LiveAPI.mkPlatform (fun _ => Returned EmptyString)
      (fun _ => LiveAPI.mkContext (Some "m1"))
      (fun _ _ => Returned (LiveAPI.mkHttp 200 (Returned LiveAPI.JNull)))
      (fun _ => Failed "SyntaxError: Unexpected token")
      (fun _ => false) in
  LiveAPI.authAnswers
    (LiveAPI.log
       (LiveAPI.performAll platform
          [LiveAPI.GetFluidContainerId; LiveAPI.GetFluidContainerId]
          (LiveAPI.new None None)))
  = [Returned EmptyString; Returned EmptyString].
Proof. vm_compute. reflexivity. Qed.

Lemma error_status_never_fulfils_witness :
  let run := LiveAPI.perform (simplePlatform 404 LiveAPI.JNull)
               (LiveAPI.GetClientRoles "c1") (LiveAPI.new None None) in
  exists res,
    LiveAPI.lastResponse run.2 = Some res
    /\ (LiveAPI.status res < 400
        \/ (LiveAPI.status res = 404 /\ @None LiveAPI.Json = None
            /\ exists clientId,
                 LiveAPI.GetClientRoles "c1" = LiveAPI.GetClientRoles clientId)).
Proof.
  intros run.
  apply (error_status_never_fulfils (simplePlatform 404 LiveAPI.JNull)
           (LiveAPI.GetClientRoles "c1") (LiveAPI.new None None) run.2 None).
  vm_compute. reflexivity.
Defined.

(** The other calls do not accept a status of 404. *)
Example not_found_rejects_registration :
  (LiveAPI.perform (simplePlatform 404 LiveAPI.JNull)
     (LiveAPI.RegisterClientId "c1") (LiveAPI.new None None)).1
  = Rejected (UpstreamFailure
                "TeamsLiveAPI: registering client roles returned a status of 404").
Proof. vm_compute. reflexivity. Qed.
